(** * pdf-editor-ui: field detector post-processing and detection evaluator

    A shallow embedding of
    - the evaluator of [benchmarks/detection/evaluate.ts]
      ([computeIoU], [greedyMatch], [calcMetrics], [aggregateMetrics],
      [evaluateDetectorOutput]),
    - the raster detector of [src/lib/detectors/rasterHeuristics.ts]
      (module [RasterHeuristics]),
    - the earlier detector library that is still in the tree
      (module [PdfFieldDetection]),
    - the registry, the rectangle helpers, the page loop of the raster
      detector and the non-maximum suppression of
      [benchmarks/detection/detectors.ts] (module [Detectors]),
    - the rectangle and naming helpers of [components/PdfEditor.tsx]
      (module [PdfEditor]),
    - the matching of [lib/detectionTest.ts] (module [DetectionTester]),
      and
    - the pixel passes of the raster detector (module [RasterPasses]).

    Numbers.  A JavaScript [number] that is known to be finite is a
    rational [Q]: arithmetic is exact, IEEE rounding and overflow are not
    modelled, and two numbers are the same when they are [Qeq] ([==]).
    Where the code can meet a non-finite value (a division, a read past the
    end of a typed array) the value is a [JsNumber.number], which adds the
    infinities and NaN.  Array indexes, page indexes and counts are
    integers; the coordinates handed to the pixel reads are numbers, and a
    read at an index that is not whole is [undefined].

    Where rounding decides the matter, the algebraic properties of
    [computeIoU], the function is modelled a second time on binary64
    numbers (module [Binary64], over the primitive floats and their
    IEEE 754 specification in the Standard Library). *)

From Stdlib Require Import String.
From Stdlib Require Import List Bool Arith ZArith QArith Qminmax Qabs.
From Stdlib Require Import Qround DecimalString DecimalNat FinFun.
From Stdlib Require Import Lia Lqa Permutation Sorted.
From Stdlib Require Floats.
Import ListNotations.

Local Open Scope Q_scope.

(* ================================================================== *)
(** * JavaScript numbers with their non-finite values *)

Module JsNumber.

Inductive number : Type :=
| Fin (q : Q)
| Inf (negative : bool)
| NaN.

(** [Number.isFinite]. *)
Definition isFinite (v : number) : bool :=
  match v with Fin _ => true | _ => false end.

Definition Qneg (q : Q) : bool := negb (Qle_bool 0 q).

(** [a + b]. *)
Definition add (a b : number) : number :=
  match a, b with
  | NaN, _ | _, NaN => NaN
  | Fin p, Fin q => Fin (p + q)
  | Inf s, Inf t => if Bool.eqb s t then Inf s else NaN
  | Inf s, Fin _ | Fin _, Inf s => Inf s
  end.

(** [a * b]. *)
Definition mul (a b : number) : number :=
  match a, b with
  | NaN, _ | _, NaN => NaN
  | Fin p, Fin q => Fin (p * q)
  | Inf s, Inf t => Inf (xorb s t)
  | Inf s, Fin q | Fin q, Inf s =>
      if Qeq_bool q 0 then NaN else Inf (xorb s (Qneg q))
  end.

(** [a / b]; a zero divisor is taken as [+0]. *)
Definition div (a b : number) : number :=
  match a, b with
  | NaN, _ | _, NaN => NaN
  | Fin p, Fin q =>
      if Qeq_bool q 0
      then (if Qeq_bool p 0 then NaN else Inf (Qneg p))
      else Fin (p / q)
  | Fin _, Inf _ => Fin 0
  | Inf s, Fin q => Inf (xorb s (Qneg q))
  | Inf _, Inf _ => NaN
  end.

(** [a === b] on numbers. *)
Definition strictEq (a b : number) : bool :=
  match a, b with
  | Fin p, Fin q => Qeq_bool p q
  | Inf s, Inf t => Bool.eqb s t
  | _, _ => false
  end.

(** [a < b] and [a > b]; every comparison with NaN is false. *)
Definition lt (a b : number) : bool :=
  match a, b with
  | Fin p, Fin q => negb (Qle_bool q p)
  | Fin _, Inf s => negb s
  | Inf s, Fin _ => s
  | Inf s, Inf t => s && negb t
  | _, _ => false
  end.

Definition gt (a b : number) : bool := lt b a.

Definition ofZ (n : Z) : number := Fin (inject_Z n).

(** ToNumber of an array read: [undefined] becomes NaN. *)
Definition ofElement (e : option Z) : number :=
  match e with Some n => ofZ n | None => NaN end.

End JsNumber.

(* ================================================================== *)
(** * Shared types ([src/types/form.ts]) *)

Inductive FieldType : Type :=
| FText | FMultiline | FCheckbox | FSignature
| FRadio | FDropdown | FListbox | FButton.

Scheme Equality for FieldType.

(** The [type] tag of a [DetectedElement]. *)
Inductive ElementType : Type :=
| EText | ECheckbox | ERadio | ESignature
| EBox | ELine | EBracket | ECircle.

Scheme Equality for ElementType.

(** [{x, y, width, height}], used both for [NormalizedRect] and for the
    pixel-space rectangle of a [DetectedElement]. *)
Module Rect.
Record t : Type := mk { x : Q; y : Q; width : Q; height : Q }.
End Rect.

Definition NormalizedRect : Type := Rect.t.

Module DetectedElement.
Record t : Type := mk { type : ElementType; rect : Rect.t; confidence : Q }.
End DetectedElement.

(** A text box handed to the detector: [{text, rect}]. *)
Module TextBox.
Record t : Type := mk { text : string; rect : Rect.t }.
End TextBox.

(** [ImageData]: [data] is the RGBA [Uint8ClampedArray]. *)
Module ImageData.
Record t : Type := mk { data : list Z; width : Z; height : Z }.
End ImageData.

(** [Set<number>.has]; the set is the list of its members in insertion
    order. *)
Definition setHas (s : list nat) (i : nat) : bool := existsb (Nat.eqb i) s.

(** Strict comparisons on finite numbers. *)
Definition Qltb (a b : Q) : bool := negb (Qle_bool b a).
Definition Qgtb (a b : Q) : bool := Qltb b a.
Definition Qgeb (a b : Q) : bool := Qle_bool b a.

(* ================================================================== *)
(** * The evaluator ([benchmarks/detection/types.ts], [evaluate.ts]) *)

Module FieldAnnotation.
Record t : Type := mk { type : FieldType; rect : NormalizedRect }.
End FieldAnnotation.

Module FieldPrediction.
Record t : Type :=
  mk { type : FieldType; rect : NormalizedRect; confidence : option Q }.
End FieldPrediction.

Module PageAnnotation.
Record t : Type := mk { pageIndex : Z; fields : list FieldAnnotation.t }.
End PageAnnotation.

Module PagePrediction.
Record t : Type := mk { pageIndex : Z; fields : list FieldPrediction.t }.
End PagePrediction.

Module DocumentAnnotation.
Record t : Type := mk { documentId : string; pages : list PageAnnotation.t }.
End DocumentAnnotation.

(** The free-form [summary] of a detection output; it is only passed on. *)
Definition Summary : Type := list (string * string).

Module DetectionOutput.
Record t : Type :=
  mk { documentId : string;
       pages : list PagePrediction.t;
       summary : option Summary }.
End DetectionOutput.

Module Instance.
Record t (F : Type) : Type := mk { pageIndex : Z; field : F }.
Arguments mk {F} _ _.
Arguments pageIndex {F} _.
Arguments field {F} _.
End Instance.

Module MatchRecord.
Record t : Type :=
  mk { type : FieldType;
       pageIndex : Z;
       truth : Instance.t FieldAnnotation.t;
       prediction : Instance.t FieldPrediction.t;
       iou : Q }.
End MatchRecord.

Module TypeCounts.
Record t : Type := mk { tp : Z; fp : Z; fn : Z }.
End TypeCounts.

Module TypeMetrics.
Record t : Type :=
  mk { tp : Z; fp : Z; fn : Z; precision : Q; recall : Q; f1 : Q }.
End TypeMetrics.

Module AggregateMetrics.
Record t : Type :=
  mk { tp : Z; fp : Z; fn : Z;
       precision : Q; recall : Q; f1 : Q;
       support : Z; predicted : Z }.
End AggregateMetrics.

Module EvaluationReport.
Record t : Type :=
  mk { documentId : string;
       threshold : Q;
       perType : list (FieldType * TypeMetrics.t);
       micro : AggregateMetrics.t;
       macro : AggregateMetrics.t;
       matches : list MatchRecord.t;
       falsePositives : list (Instance.t FieldPrediction.t);
       falseNegatives : list (Instance.t FieldAnnotation.t);
       summary : option Summary }.
End EvaluationReport.

Module Evaluate.

Import JsNumber.

(** [clamp]: a non-finite value becomes 0. *)
Definition clamp (value : number) : Q :=
  match value with Fin q => q | _ => 0 end.

Definition computeIoU (a b : NormalizedRect) : Q :=
  let left := Qmax (Rect.x a) (Rect.x b) in
  let top := Qmax (Rect.y a) (Rect.y b) in
  let right := Qmin (Rect.x a + Rect.width a) (Rect.x b + Rect.width b) in
  let bottom := Qmin (Rect.y a + Rect.height a) (Rect.y b + Rect.height b) in
  if Qle_bool right left || Qle_bool bottom top then 0
  else
    let intersection := (right - left) * (bottom - top) in
    let areaA := Rect.width a * Rect.height a in
    let areaB := Rect.width b * Rect.height b in
    let union := areaA + areaB - intersection in
    if Qle_bool union 0 then 0 else intersection / union.

Record Candidate : Type :=
  mkCandidate { truthIndex : nat; predictionIndex : nat; iou : Q }.

(** An array with its indexes, as [forEach] and [filter] see it. *)
Definition indexed {A : Type} (l : list A) : list (nat * A) :=
  combine (seq 0 (length l)) l.

(** The two nested [forEach] loops of [greedyMatch]. *)
Definition collectCandidates
    (truths : list (Instance.t FieldAnnotation.t))
    (predictions : list (Instance.t FieldPrediction.t))
    (threshold : Q) : list Candidate :=
  flat_map
    (fun it =>
       flat_map
         (fun ip =>
            if negb (Instance.pageIndex (snd it) =? Instance.pageIndex (snd ip))%Z
            then []
            else
              let iou :=
                computeIoU (FieldAnnotation.rect (Instance.field (snd it)))
                           (FieldPrediction.rect (Instance.field (snd ip))) in
              if Qgeb iou threshold
              then [mkCandidate (fst it) (fst ip) iou]
              else [])
         (indexed predictions))
    (indexed truths).

(** [candidates.sort((a, b) => b.iou - a.iou)]: a stable sort, highest
    IoU first.  [insertCandidate] puts [c] in front of the first entry
    that is not strictly better, so equal entries keep their order. *)
Fixpoint insertCandidate (c : Candidate) (l : list Candidate) : list Candidate :=
  match l with
  | [] => [c]
  | d :: l' =>
      if Qgtb (iou d) (iou c) then d :: insertCandidate c l' else c :: d :: l'
  end.

Definition sortCandidates (l : list Candidate) : list Candidate :=
  fold_right insertCandidate [] l.

(** The state of the acceptance loop.  The two [Set<number>] are kept in
    insertion order. *)
Record MatchState : Type :=
  mkMatchState { matchedTruth : list nat;
                 matchedPredictions : list nat;
                 matches : list MatchRecord.t }.

(** One turn of [for (const candidate of candidates)].  The two array
    reads are in range for every candidate [collectCandidates] makes
    (lemma [collectCandidates_in_range]); the last branch is never taken. *)
Definition acceptCandidate
    (type : FieldType)
    (truths : list (Instance.t FieldAnnotation.t))
    (predictions : list (Instance.t FieldPrediction.t))
    (st : MatchState) (candidate : Candidate) : MatchState :=
  if setHas (matchedTruth st) (truthIndex candidate)
     || setHas (matchedPredictions st) (predictionIndex candidate)
  then st
  else
    match nth_error truths (truthIndex candidate),
          nth_error predictions (predictionIndex candidate) with
    | Some truthInstance, Some predictionInstance =>
        mkMatchState
          (matchedTruth st ++ [truthIndex candidate])
          (matchedPredictions st ++ [predictionIndex candidate])
          (matches st ++
             [MatchRecord.mk type (Instance.pageIndex truthInstance)
                truthInstance predictionInstance (iou candidate)])
    | _, _ => st
    end.

Definition acceptLoop
    (type : FieldType)
    (truths : list (Instance.t FieldAnnotation.t))
    (predictions : list (Instance.t FieldPrediction.t))
    (threshold : Q) : MatchState :=
  fold_left (acceptCandidate type truths predictions)
            (sortCandidates (collectCandidates truths predictions threshold))
            (mkMatchState [] [] []).

(** [array.filter((_, index) => !set.has(index))]. *)
Definition unmatched {A : Type} (l : list A) (set : list nat) : list A :=
  map snd (filter (fun ix => negb (setHas set (fst ix))) (indexed l)).

Record MatchRun : Type :=
  mkMatchRun { runMatches : list MatchRecord.t;
               runFalsePositives : list (Instance.t FieldPrediction.t);
               runFalseNegatives : list (Instance.t FieldAnnotation.t) }.

Definition greedyMatch
    (type : FieldType)
    (truths : list (Instance.t FieldAnnotation.t))
    (predictions : list (Instance.t FieldPrediction.t))
    (threshold : Q) : MatchRun :=
  let st := acceptLoop type truths predictions threshold in
  mkMatchRun (matches st)
             (unmatched predictions (matchedPredictions st))
             (unmatched truths (matchedTruth st)).

(** The three locals of [calcMetrics], before [clamp]. *)
Definition rawPrecision (counts : TypeCounts.t) : number :=
  if (TypeCounts.tp counts + TypeCounts.fp counts =? 0)%Z then Fin 0
  else div (ofZ (TypeCounts.tp counts))
           (ofZ (TypeCounts.tp counts + TypeCounts.fp counts)).

Definition rawRecall (counts : TypeCounts.t) : number :=
  if (TypeCounts.tp counts + TypeCounts.fn counts =? 0)%Z then Fin 0
  else div (ofZ (TypeCounts.tp counts))
           (ofZ (TypeCounts.tp counts + TypeCounts.fn counts)).

Definition rawF1 (counts : TypeCounts.t) : number :=
  let precision := rawPrecision counts in
  let recall := rawRecall counts in
  let denom := add precision recall in
  if strictEq denom (Fin 0) then Fin 0
  else div (mul (mul (Fin 2) precision) recall) denom.

Definition calcMetrics (counts : TypeCounts.t) : TypeMetrics.t :=
  TypeMetrics.mk (TypeCounts.tp counts) (TypeCounts.fp counts) (TypeCounts.fn counts)
                 (clamp (rawPrecision counts))
                 (clamp (rawRecall counts))
                 (clamp (rawF1 counts)).

Definition aggregateMetrics (counts : TypeCounts.t) : AggregateMetrics.t :=
  let metrics := calcMetrics counts in
  AggregateMetrics.mk
    (TypeCounts.tp counts) (TypeCounts.fp counts) (TypeCounts.fn counts)
    (TypeMetrics.precision metrics) (TypeMetrics.recall metrics)
    (TypeMetrics.f1 metrics)
    (TypeCounts.tp counts + TypeCounts.fn counts)%Z
    (TypeCounts.tp counts + TypeCounts.fp counts)%Z.

Definition flattenTruth (annotation : option DocumentAnnotation.t)
  : list (Instance.t FieldAnnotation.t) :=
  match annotation with
  | None => []
  | Some doc =>
      flat_map
        (fun page =>
           map (fun field => Instance.mk (PageAnnotation.pageIndex page) field)
               (PageAnnotation.fields page))
        (DocumentAnnotation.pages doc)
  end.

Definition flattenPredictions (output : DetectionOutput.t)
  : list (Instance.t FieldPrediction.t) :=
  flat_map
    (fun page =>
       map (fun field => Instance.mk (PagePrediction.pageIndex page) field)
           (PagePrediction.fields page))
    (DetectionOutput.pages output).

(** [Set.prototype.add]: a new member goes to the end. *)
Definition setAdd (s : list FieldType) (t : FieldType) : list FieldType :=
  if existsb (FieldType_beq t) s then s else s ++ [t].

Definition truthType (i : Instance.t FieldAnnotation.t) : FieldType :=
  FieldAnnotation.type (Instance.field i).

Definition predictionType (i : Instance.t FieldPrediction.t) : FieldType :=
  FieldPrediction.type (Instance.field i).

Definition activeTypesOf
    (truths : list (Instance.t FieldAnnotation.t))
    (predictions : list (Instance.t FieldPrediction.t)) : list FieldType :=
  fold_left (fun s i => setAdd s (predictionType i)) predictions
    (fold_left (fun s i => setAdd s (truthType i)) truths []).

(** What the [for (const type of activeTypes)] loop carries along.  The map
    [perTypeCounts] is written in the loop and never read; it is left out. *)
Record EvalState : Type :=
  mkEvalState { perTypeMetrics : list (FieldType * TypeMetrics.t);
                allMatches : list MatchRecord.t;
                allFalsePositives : list (Instance.t FieldPrediction.t);
                allFalseNegatives : list (Instance.t FieldAnnotation.t);
                microCounts : TypeCounts.t;
                macroPrecision : Q;
                macroRecall : Q;
                macroF1 : Q;
                macroTypes : Z }.

Definition lengthZ {A : Type} (l : list A) : Z := Z.of_nat (length l).

(** The locals [typeRun] and [counts] of the loop body. *)
Definition typeRun
    (truths : list (Instance.t FieldAnnotation.t))
    (predictions : list (Instance.t FieldPrediction.t))
    (threshold : Q) (type : FieldType) : MatchRun :=
  let typeTruths := filter (fun i => FieldType_beq (truthType i) type) truths in
  let typePredictions :=
    filter (fun i => FieldType_beq (predictionType i) type) predictions in
  greedyMatch type typeTruths typePredictions threshold.

Definition typeCounts (run : MatchRun) : TypeCounts.t :=
  TypeCounts.mk (lengthZ (runMatches run))
                (lengthZ (runFalsePositives run))
                (lengthZ (runFalseNegatives run)).

Definition evalType
    (truths : list (Instance.t FieldAnnotation.t))
    (predictions : list (Instance.t FieldPrediction.t))
    (threshold : Q) (st : EvalState) (type : FieldType) : EvalState :=
  let run := typeRun truths predictions threshold type in
  let counts := typeCounts run in
  let metrics := calcMetrics counts in
  mkEvalState
    (perTypeMetrics st ++ [(type, metrics)])
    (allMatches st ++ runMatches run)
    (allFalsePositives st ++ runFalsePositives run)
    (allFalseNegatives st ++ runFalseNegatives run)
    (TypeCounts.mk
       (TypeCounts.tp (microCounts st) + TypeCounts.tp counts)%Z
       (TypeCounts.fp (microCounts st) + TypeCounts.fp counts)%Z
       (TypeCounts.fn (microCounts st) + TypeCounts.fn counts)%Z)
    (macroPrecision st + TypeMetrics.precision metrics)
    (macroRecall st + TypeMetrics.recall metrics)
    (macroF1 st + TypeMetrics.f1 metrics)
    (macroTypes st + 1)%Z.

Definition initialEvalState : EvalState :=
  mkEvalState [] [] [] [] (TypeCounts.mk 0 0 0) 0 0 0 0%Z.

Definition evalLoop
    (truths : list (Instance.t FieldAnnotation.t))
    (predictions : list (Instance.t FieldPrediction.t))
    (threshold : Q) (types : list FieldType) : EvalState :=
  fold_left (evalType truths predictions threshold) types initialEvalState.

(** [threshold] is the optional third argument, 0.5 when left out. *)
Definition evaluateDetectorOutput
    (annotations : option DocumentAnnotation.t)
    (detections : DetectionOutput.t)
    (threshold : option Q) : EvaluationReport.t :=
  let threshold := match threshold with Some t => t | None => 1 # 2 end in
  let truths := flattenTruth annotations in
  let predictions := flattenPredictions detections in
  let activeTypes := activeTypesOf truths predictions in
  let st := evalLoop truths predictions threshold activeTypes in
  let micro := aggregateMetrics (microCounts st) in
  let macroDenominator :=
    if (macroTypes st =? 0)%Z then 1 else inject_Z (macroTypes st) in
  let macro :=
    AggregateMetrics.mk
      (TypeCounts.tp (microCounts st))
      (TypeCounts.fp (microCounts st))
      (TypeCounts.fn (microCounts st))
      (if (macroTypes st =? 0)%Z then 0 else macroPrecision st / macroDenominator)
      (if (macroTypes st =? 0)%Z then 0 else macroRecall st / macroDenominator)
      (if (macroTypes st =? 0)%Z then 0 else macroF1 st / macroDenominator)
      (lengthZ truths)
      (lengthZ predictions) in
  EvaluationReport.mk
    (DetectionOutput.documentId detections)
    threshold
    (perTypeMetrics st)
    micro
    macro
    (allMatches st)
    (allFalsePositives st)
    (allFalseNegatives st)
    (DetectionOutput.summary detections).

End Evaluate.

(** ** [computeIoU] on binary64 numbers

    The same function with the numbers of the program: the fields of a
    rectangle are binary64 values and every operation rounds as IEEE 754
    prescribes. *)

Module Binary64.

Import Floats.
Local Open Scope float_scope.

Record NormalizedRect : Type :=
  mkRect { x : float; y : float; width : float; height : float }.

(** [Math.max(a, b)]: NaN when an argument is NaN; otherwise the larger
    argument, [+0] counting as larger than [-0].  Two arguments of which
    neither is less than the other are the same value or two zeros, and the
    sum of two zeros is [-0] when both are [-0] and [+0] otherwise. *)
Definition max (a b : float) : float :=
  if is_nan a || is_nan b then nan
  else if a <? b then b
  else if b <? a then a
  else if is_zero a then a + b
  else a.

(** [Math.min(a, b)]: as [Math.max], with [-0] counting as smaller than
    [+0]: of two zeros the result is [+0] only when both are [+0]. *)
Definition min (a b : float) : float :=
  if is_nan a || is_nan b then nan
  else if a <? b then a
  else if b <? a then b
  else if is_zero a then - (- a + - b)
  else a.

Definition computeIoU (a b : NormalizedRect) : float :=
  let left := max (x a) (x b) in
  let top := max (y a) (y b) in
  let right := min (x a + width a) (x b + width b) in
  let bottom := min (y a + height a) (y b + height b) in
  if (right <=? left) || (bottom <=? top) then 0
  else
    let intersection := (right - left) * (bottom - top) in
    let areaA := width a * height a in
    let areaB := width b * height b in
    let union := areaA + areaB - intersection in
    if union <=? 0 then 0 else intersection / union.

End Binary64.

(* ================================================================== *)
(** * The detectors *)

(** [DetectionOptions], declared with the same fields by both detector
    files. *)
Module DetectionOptions.
Record t : Type :=
  mk { minTextFieldHeight : Q;
       maxFieldHeight : Q;
       minCheckboxSize : Q;
       maxCheckboxSize : Q;
       minRadioSize : Q;
       maxRadioSize : Q;
       mergeThreshold : Q;
       confidenceThreshold : Q }.

(** The defaults of the constructor. *)
Definition defaults : t := mk 12 200 8 20 8 16 5 (3 # 10).

(** [this.options.maxFieldHeight = v]. *)
Definition setMaxFieldHeight (o : t) (v : Q) : t :=
  mk (minTextFieldHeight o) v (minCheckboxSize o) (maxCheckboxSize o)
     (minRadioSize o) (maxRadioSize o) (mergeThreshold o)
     (confidenceThreshold o).

(** The same options with another [confidenceThreshold]. *)
Definition withConfidenceThreshold (o : t) (v : Q) : t :=
  mk (minTextFieldHeight o) (maxFieldHeight o) (minCheckboxSize o)
     (maxCheckboxSize o) (minRadioSize o) (maxRadioSize o)
     (mergeThreshold o) v.
End DetectionOptions.

(** A read [data[i]] of a [Uint8ClampedArray]: [undefined] outside
    [0 .. length-1]. *)
Definition readElement (data : list Z) (i : Z) : option Z :=
  if (i <? 0)%Z then None else nth_error data (Z.to_nat i).

(** [data[index]] for an index that is a number: [undefined] unless the
    index is an integer inside the array. *)
Definition readNumber (data : list Z) (index : Q) : option Z :=
  if Qeq_bool (inject_Z (Qfloor index)) index
  then readElement data (Qfloor index)
  else None.

(** [visited[j] = true]. *)
Fixpoint markVisited (j : nat) (visited : list bool) : list bool :=
  match visited, j with
  | [], _ => []
  | _ :: rest, O => true :: rest
  | v :: rest, S j' => v :: markVisited j' rest
  end.

(* ------------------------------------------------------------------ *)
(** ** [src/lib/detectors/rasterHeuristics.ts] *)

Module RasterHeuristics.

Import JsNumber.

(** The five raster passes.  Each is a function of the pixel buffer, the
    page size and the option fields its body reads:
    [detectTextFields] reads [minTextFieldHeight];
    [detectCheckboxes] reads [minCheckboxSize] and [maxCheckboxSize];
    [detectRadioButtons] reads [minRadioSize] and [maxRadioSize];
    [detectSignatureAreas] reads [minTextFieldHeight] and [maxFieldHeight];
    [detectStandaloneLines] reads no option.
    Their pixel loops are not unfolded here. *)
Record Passes : Type :=
  mkPasses {
    detectTextFields : Q -> ImageData.t -> Q -> Q -> list DetectedElement.t;
    detectCheckboxes : Q -> Q -> ImageData.t -> Q -> Q -> list DetectedElement.t;
    detectRadioButtons : Q -> Q -> ImageData.t -> Q -> Q -> list DetectedElement.t;
    detectSignatureAreas : Q -> Q -> ImageData.t -> Q -> Q -> list DetectedElement.t;
    detectStandaloneLines : ImageData.t -> Q -> Q -> list DetectedElement.t }.

Definition filterByMinimumSize (options : DetectionOptions.t)
    (elements : list DetectedElement.t) (pageHeight : Q)
  : list DetectedElement.t :=
  let minHeight :=
    Qmax (DetectionOptions.minTextFieldHeight options) (pageHeight * (1 # 100)) in
  let minWidth := minHeight * 2 in
  filter
    (fun element =>
       if Qltb (Rect.height (DetectedElement.rect element)) minHeight then false
       else if Qltb (Rect.width (DetectedElement.rect element)) minWidth
               && ElementType_beq (DetectedElement.type element) EText
            then false
            else true)
    elements.

Definition shouldMerge (options : DetectionOptions.t)
    (a b : DetectedElement.t) : bool :=
  if negb (ElementType_beq (DetectedElement.type a) (DetectedElement.type b))
  then false
  else
    let ra := DetectedElement.rect a in
    let rb := DetectedElement.rect b in
    let distanceX := Qabs (Rect.x ra - (Rect.x rb + Rect.width rb)) in
    let distanceY := Qabs (Rect.y ra - (Rect.y rb + Rect.height rb)) in
    let horizontalOverlap :=
      Qmin (Rect.x ra + Rect.width ra) (Rect.x rb + Rect.width rb)
      - Qmax (Rect.x ra) (Rect.x rb) in
    let verticalOverlap :=
      Qmin (Rect.y ra + Rect.height ra) (Rect.y rb + Rect.height rb)
      - Qmax (Rect.y ra) (Rect.y rb) in
    let closeHorizontally := Qltb distanceX (DetectionOptions.mergeThreshold options) in
    let closeVertically := Qltb distanceY (DetectionOptions.mergeThreshold options) in
    let overlappingHorizontally :=
      Qgtb horizontalOverlap (- DetectionOptions.mergeThreshold options) in
    let overlappingVertically :=
      Qgtb verticalOverlap (- DetectionOptions.mergeThreshold options) in
    (closeHorizontally && overlappingVertically)
    || (closeVertically && overlappingHorizontally).

Definition mergeRects (a b : Rect.t) : Rect.t :=
  let x := Qmin (Rect.x a) (Rect.x b) in
  let y := Qmin (Rect.y a) (Rect.y b) in
  let maxX := Qmax (Rect.x a + Rect.width a) (Rect.x b + Rect.width b) in
  let maxY := Qmax (Rect.y a + Rect.height a) (Rect.y b + Rect.height b) in
  Rect.mk x y (maxX - x) (maxY - y).

(** The inner loop [for (let j = i + 1; ...)]: [rest] is
    [elements[j ..]]. *)
Fixpoint mergeInto (options : DetectionOptions.t)
    (current : DetectedElement.t) (visited : list bool)
    (j : nat) (rest : list DetectedElement.t)
  : DetectedElement.t * list bool :=
  match rest with
  | [] => (current, visited)
  | candidate :: rest' =>
      if nth j visited false
      then mergeInto options current visited (S j) rest'
      else if shouldMerge options current candidate
           then
             mergeInto options
               (DetectedElement.mk
                  (DetectedElement.type current)
                  (mergeRects (DetectedElement.rect current)
                              (DetectedElement.rect candidate))
                  (Qmax (DetectedElement.confidence current)
                        (DetectedElement.confidence candidate) * (9 # 10)))
               (markVisited j visited) (S j) rest'
           else mergeInto options current visited (S j) rest'
  end.

(** The outer loop [for (let i = 0; ...)]: [rest] is [elements[i ..]]. *)
Fixpoint mergeFrom (options : DetectionOptions.t)
    (i : nat) (rest : list DetectedElement.t)
    (visited : list bool) (merged : list DetectedElement.t)
  : list DetectedElement.t :=
  match rest with
  | [] => merged
  | element :: rest' =>
      if nth i visited false
      then mergeFrom options (S i) rest' visited merged
      else
        let '(current, visited') :=
          mergeInto options element (markVisited i visited) (S i) rest' in
        mergeFrom options (S i) rest' visited' (merged ++ [current])
  end.

Definition mergeAdjacentFields (options : DetectionOptions.t)
    (elements : list DetectedElement.t) : list DetectedElement.t :=
  mergeFrom options 0 elements (repeat false (length elements)) [].

Definition calculateOverlapRatio (rect1 rect2 : Rect.t) : Q :=
  let x1 := Qmax (Rect.x rect1) (Rect.x rect2) in
  let y1 := Qmax (Rect.y rect1) (Rect.y rect2) in
  let x2 := Qmin (Rect.x rect1 + Rect.width rect1) (Rect.x rect2 + Rect.width rect2) in
  let y2 := Qmin (Rect.y rect1 + Rect.height rect1) (Rect.y rect2 + Rect.height rect2) in
  if Qle_bool x2 x1 || Qle_bool y2 y1 then 0
  else
    let overlapArea := (x2 - x1) * (y2 - y1) in
    let area1 := Rect.width rect1 * Rect.height rect1 in
    let area2 := Rect.width rect2 * Rect.height rect2 in
    let unionArea := area1 + area2 - overlapArea in
    if Qgtb unionArea 0 then overlapArea / unionArea else 0.

(** The [for (const textElement of textElements)] loop of the filter
    callback: [false] as soon as one text box overlaps by more than 0.3. *)
Fixpoint keepElement (rect : Rect.t) (textElements : list TextBox.t) : bool :=
  match textElements with
  | [] => true
  | textElement :: rest =>
      if Qgtb (calculateOverlapRatio rect (TextBox.rect textElement)) (3 # 10)
      then false
      else keepElement rect rest
  end.

Definition filterTextOverlaps (elements : list DetectedElement.t)
    (textElements : list TextBox.t) : list DetectedElement.t :=
  filter (fun element => keepElement (DetectedElement.rect element) textElements)
         elements.

(** [detectFields].  The method assigns [this.options.maxFieldHeight]; the
    options the detector holds after the call are returned with the
    result. *)
Definition detectFields (passes : Passes) (options : DetectionOptions.t)
    (imageData : ImageData.t) (pageWidth pageHeight : Q)
    (textElements : option (list TextBox.t))
  : DetectionOptions.t * list DetectedElement.t :=
  let options :=
    DetectionOptions.setMaxFieldHeight options
      (Qmin (DetectionOptions.maxFieldHeight options) (pageHeight * (1 # 2))) in
  let elements :=
    detectTextFields passes (DetectionOptions.minTextFieldHeight options)
      imageData pageWidth pageHeight
    ++ detectCheckboxes passes (DetectionOptions.minCheckboxSize options)
         (DetectionOptions.maxCheckboxSize options) imageData pageWidth pageHeight
    ++ detectRadioButtons passes (DetectionOptions.minRadioSize options)
         (DetectionOptions.maxRadioSize options) imageData pageWidth pageHeight
    ++ detectSignatureAreas passes (DetectionOptions.minTextFieldHeight options)
         (DetectionOptions.maxFieldHeight options) imageData pageWidth pageHeight
    ++ detectStandaloneLines passes imageData pageWidth pageHeight in
  let sizeFilteredElements := filterByMinimumSize options elements pageHeight in
  let textFilteredElements :=
    match textElements with
    | Some textElements => filterTextOverlaps sizeFilteredElements textElements
    | None => sizeFilteredElements
    end in
  let mergedElements := mergeAdjacentFields options textFilteredElements in
  (options,
   filter (fun element =>
             Qgeb (DetectedElement.confidence element)
                  (DetectionOptions.confidenceThreshold options))
          mergedElements).

End RasterHeuristics.

(* ------------------------------------------------------------------ *)
(** ** The earlier detector library ([PDFFieldDetector], second file) *)

Module PdfFieldDetection.

Import JsNumber.

(** The five raster passes of this file, with the option fields they read:
    [detectTextFields] reads [minTextFieldHeight];
    [detectCheckboxes] reads [minCheckboxSize] and [maxCheckboxSize];
    [detectRadioButtons] reads [minRadioSize] and [maxRadioSize];
    [detectSignatureAreas] and [detectStandaloneLines] read no option. *)
Record Passes : Type :=
  mkPasses {
    detectTextFields : Q -> ImageData.t -> Q -> Q -> list DetectedElement.t;
    detectCheckboxes : Q -> Q -> ImageData.t -> Q -> Q -> list DetectedElement.t;
    detectRadioButtons : Q -> Q -> ImageData.t -> Q -> Q -> list DetectedElement.t;
    detectSignatureAreas : ImageData.t -> Q -> Q -> list DetectedElement.t;
    detectStandaloneLines : ImageData.t -> Q -> Q -> list DetectedElement.t }.

(** [x], [y] and [width] are numbers, and not only whole ones:
    [detectTextFields] hands the row [line.y - fieldHeight - 2] to
    [calculateTextFieldAreaConfidence], which reads the pixels from that
    row on, and [fieldHeight] can be [height * 0.025]. *)
Definition getPixelBrightness (data : list Z) (x y width : Q) : number :=
  if Qltb x 0 || Qltb y 0 || Qgeb x width then Fin 255
  else
    let index := (y * width + x) * 4 in
    if Qgeb index (inject_Z (Z.of_nat (length data)) - 2) then Fin 255
    else
      div (add (add (ofElement (readNumber data index))
                    (ofElement (readNumber data (index + 1))))
               (ofElement (readNumber data (index + 2))))
          (Fin 3).

Definition filterByMinimumSize (elements : list DetectedElement.t)
    (pageHeight : Q) : list DetectedElement.t :=
  let minTextFieldHeight := Qmax 12 (pageHeight * (15 # 1000)) in
  let minCheckboxSize := Qmax 8 (pageHeight * (1 # 100)) in
  let minRadioSize := Qmax 8 (pageHeight * (1 # 100)) in
  let minSignatureHeight := Qmax 15 (pageHeight * (2 # 100)) in
  filter
    (fun element =>
       let width := Rect.width (DetectedElement.rect element) in
       let height := Rect.height (DetectedElement.rect element) in
       match DetectedElement.type element with
       | EText | EBox =>
           Qgeb height minTextFieldHeight && Qgeb width 20
       | ECheckbox =>
           Qgeb (Qmin width height) minCheckboxSize
           && Qle_bool (Qmax width height) (minCheckboxSize * 3)
       | ERadio =>
           Qgeb (Qmin width height) minRadioSize
           && Qle_bool (Qabs (width - height)) (Qmax width height * (3 # 10))
       | ESignature =>
           Qgeb height minSignatureHeight && Qgeb width (minSignatureHeight * 2)
       | ELine =>
           Qgeb width 30 && Qgeb height 1
       | _ => true
       end)
    elements.

Definition calculateRectangleOverlapRatio (rect1 rect2 : Rect.t) : Q :=
  let x1 := Qmax (Rect.x rect1) (Rect.x rect2) in
  let y1 := Qmax (Rect.y rect1) (Rect.y rect2) in
  let x2 := Qmin (Rect.x rect1 + Rect.width rect1) (Rect.x rect2 + Rect.width rect2) in
  let y2 := Qmin (Rect.y rect1 + Rect.height rect1) (Rect.y rect2 + Rect.height rect2) in
  if Qle_bool x2 x1 || Qle_bool y2 y1 then 0
  else
    let overlapArea := (x2 - x1) * (y2 - y1) in
    let rect1Area := Rect.width rect1 * Rect.height rect1 in
    if Qgtb rect1Area 0 then overlapArea / rect1Area else 0.

Definition isRectangleContainedWithin (rect1 rect2 : Rect.t) : bool :=
  Qgeb (Rect.x rect1) (Rect.x rect2)
  && Qgeb (Rect.y rect1) (Rect.y rect2)
  && Qle_bool (Rect.x rect1 + Rect.width rect1) (Rect.x rect2 + Rect.width rect2)
  && Qle_bool (Rect.y rect1 + Rect.height rect1) (Rect.y rect2 + Rect.height rect2).

(** The [for (const textEl of textElements)] loop of the filter callback,
    with its two [return false]. *)
Fixpoint keepElement (rect : Rect.t) (textElements : list TextBox.t) : bool :=
  match textElements with
  | [] => true
  | textEl :: rest =>
      let overlapRatio := calculateRectangleOverlapRatio rect (TextBox.rect textEl) in
      if Qgtb overlapRatio (4 # 10)
      then
        if isRectangleContainedWithin rect (TextBox.rect textEl) then false
        else if Qgtb overlapRatio (7 # 10) then false
             else keepElement rect rest
      else keepElement rect rest
  end.

Definition filterTextOverlaps (elements : list DetectedElement.t)
    (textElements : list TextBox.t) : list DetectedElement.t :=
  filter (fun element => keepElement (DetectedElement.rect element) textElements)
         elements.

Definition areAdjacent (options : DetectionOptions.t) (rect1 rect2 : Rect.t)
  : bool :=
  let threshold := DetectionOptions.mergeThreshold options in
  let horizontalOverlap :=
    Qmax 0
      (Qmin (Rect.x rect1 + Rect.width rect1) (Rect.x rect2 + Rect.width rect2)
       - Qmax (Rect.x rect1) (Rect.x rect2)) in
  let verticalDistance :=
    Qabs ((Rect.y rect1 + Rect.height rect1 / 2)
          - (Rect.y rect2 + Rect.height rect2 / 2)) in
  if Qgtb horizontalOverlap (Qmin (Rect.width rect1) (Rect.width rect2) * (1 # 2))
     && Qle_bool verticalDistance threshold
  then true
  else
    let verticalOverlap :=
      Qmax 0
        (Qmin (Rect.y rect1 + Rect.height rect1) (Rect.y rect2 + Rect.height rect2)
         - Qmax (Rect.y rect1) (Rect.y rect2)) in
    let horizontalDistance :=
      Qabs ((Rect.x rect1 + Rect.width rect1 / 2)
            - (Rect.x rect2 + Rect.width rect2 / 2)) in
    Qgtb verticalOverlap (Qmin (Rect.height rect1) (Rect.height rect2) * (1 # 2))
    && Qle_bool horizontalDistance threshold.

(** [mergeRects(elements)] for the non-empty array [first :: others]. *)
Definition mergeRects (first : DetectedElement.t)
    (others : list DetectedElement.t) : DetectedElement.t :=
  let rects := map DetectedElement.rect others in
  let r0 := DetectedElement.rect first in
  let minX := fold_left Qmin (map Rect.x rects) (Rect.x r0) in
  let minY := fold_left Qmin (map Rect.y rects) (Rect.y r0) in
  let maxX :=
    fold_left Qmax (map (fun r => Rect.x r + Rect.width r) rects)
              (Rect.x r0 + Rect.width r0) in
  let maxY :=
    fold_left Qmax (map (fun r => Rect.y r + Rect.height r) rects)
              (Rect.y r0 + Rect.height r0) in
  DetectedElement.mk
    (DetectedElement.type first)
    (Rect.mk minX minY (maxX - minX) (maxY - minY))
    (fold_left Qmax (map DetectedElement.confidence others)
               (DetectedElement.confidence first)).

(** The inner loop: the elements to merge with [current], in order, and
    the [used] set.  [rest] is [elements[j ..]]. *)
Fixpoint collectAdjacent (options : DetectionOptions.t)
    (current : DetectedElement.t) (used : list nat)
    (j : nat) (rest : list DetectedElement.t)
  : list DetectedElement.t * list nat :=
  match rest with
  | [] => ([], used)
  | other :: rest' =>
      if setHas used j then collectAdjacent options current used (S j) rest'
      else if ElementType_beq (DetectedElement.type current)
                              (DetectedElement.type other)
              && areAdjacent options (DetectedElement.rect current)
                             (DetectedElement.rect other)
           then
             let '(more, used') :=
               collectAdjacent options current (used ++ [j]) (S j) rest' in
             (other :: more, used')
           else collectAdjacent options current used (S j) rest'
  end.

Fixpoint mergeFrom (options : DetectionOptions.t)
    (i : nat) (rest : list DetectedElement.t)
    (used : list nat) (merged : list DetectedElement.t)
  : list DetectedElement.t :=
  match rest with
  | [] => merged
  | current :: rest' =>
      if setHas used i then mergeFrom options (S i) rest' used merged
      else
        let '(others, used') :=
          collectAdjacent options current (used ++ [i]) (S i) rest' in
        match others with
        | [] => mergeFrom options (S i) rest' used' (merged ++ [current])
        | _ :: _ =>
            mergeFrom options (S i) rest' used'
                      (merged ++ [mergeRects current others])
        end
  end.

Definition mergeAdjacentFields (options : DetectionOptions.t)
    (elements : list DetectedElement.t) : list DetectedElement.t :=
  mergeFrom options 0 elements [] [].

Definition detectFields (passes : Passes) (options : DetectionOptions.t)
    (imageData : ImageData.t) (pageWidth pageHeight : Q)
    (textElements : option (list TextBox.t))
  : DetectionOptions.t * list DetectedElement.t :=
  let options :=
    DetectionOptions.setMaxFieldHeight options
      (Qmin (DetectionOptions.maxFieldHeight options) (pageHeight * (1 # 2))) in
  let elements :=
    detectTextFields passes (DetectionOptions.minTextFieldHeight options)
      imageData pageWidth pageHeight
    ++ detectCheckboxes passes (DetectionOptions.minCheckboxSize options)
         (DetectionOptions.maxCheckboxSize options) imageData pageWidth pageHeight
    ++ detectRadioButtons passes (DetectionOptions.minRadioSize options)
         (DetectionOptions.maxRadioSize options) imageData pageWidth pageHeight
    ++ detectSignatureAreas passes imageData pageWidth pageHeight
    ++ detectStandaloneLines passes imageData pageWidth pageHeight in
  let sizeFilteredElements := filterByMinimumSize elements pageHeight in
  let textFilteredElements :=
    match textElements with
    | Some textElements => filterTextOverlaps sizeFilteredElements textElements
    | None => sizeFilteredElements
    end in
  let mergedElements := mergeAdjacentFields options textFilteredElements in
  (options,
   filter (fun element =>
             Qgeb (DetectedElement.confidence element)
                  (DetectionOptions.confidenceThreshold options))
          mergedElements).

End PdfFieldDetection.

(* ================================================================== *)
(** * Vocabulary of the statements *)

Section Binary64Vocabulary.

Import Floats.
Local Open Scope float_scope.








End Binary64Vocabulary.





(** What the acceptance loop of [greedyMatch] keeps true of its state: no
    index is claimed twice, and the k-th match record holds the truth and
    the prediction whose indexes were claimed k-th. *)
Record accepted
    (truths : list (Instance.t FieldAnnotation.t))
    (predictions : list (Instance.t FieldPrediction.t))
    (st : Evaluate.MatchState) : Prop :=
  mkAccepted {
    acc_truth_nodup : NoDup (Evaluate.matchedTruth st);
    acc_pred_nodup : NoDup (Evaluate.matchedPredictions st);
    acc_truth :
      Forall2 (fun m i => nth_error truths i = Some (MatchRecord.truth m))
              (Evaluate.matches st) (Evaluate.matchedTruth st);
    acc_pred :
      Forall2 (fun m i => nth_error predictions i = Some (MatchRecord.prediction m))
              (Evaluate.matches st) (Evaluate.matchedPredictions st) }.


(** The intersection of two rectangles, its area; the area of a rectangle. *)
Definition intersectionArea (a b : Rect.t) : Q :=
  Qmax 0 (Qmin (Rect.x a + Rect.width a) (Rect.x b + Rect.width b)
          - Qmax (Rect.x a) (Rect.x b))
  * Qmax 0 (Qmin (Rect.y a + Rect.height a) (Rect.y b + Rect.height b)
            - Qmax (Rect.y a) (Rect.y b)).

Definition rectArea (r : Rect.t) : Q := Rect.width r * Rect.height r.

(** The overlap ratio of the text-overlap filter as the specification words
    it: intersection area over the area of the detection (0 for a detection
    of no area). *)
Definition overlapRatio (detection text : Rect.t) : Q :=
  intersectionArea detection text / rectArea detection.

Definition containedIn (inner outer : Rect.t) : Prop :=
  Rect.x outer <= Rect.x inner
  /\ Rect.y outer <= Rect.y inner
  /\ Rect.x inner + Rect.width inner <= Rect.x outer + Rect.width outer
  /\ Rect.y inner + Rect.height inner <= Rect.y outer + Rect.height outer.

(** The drop rule of the specification: some text box overlaps the
    detection by more than 0.4 and contains it, or by more than 0.7. *)
Definition droppedByText (detection : Rect.t) (textElements : list TextBox.t)
  : Prop :=
  exists t, In t textElements
    /\ ((4 # 10 < overlapRatio detection (TextBox.rect t)
         /\ containedIn detection (TextBox.rect t))
        \/ 7 # 10 < overlapRatio detection (TextBox.rect t)).

(** A text-overlap filter follows the rule when it keeps exactly the
    detections the rule does not drop. *)
Definition followsTextOverlapRule
    (filterFn : list DetectedElement.t -> list TextBox.t -> list DetectedElement.t)
  : Prop :=
  forall elements textElements e,
    In e (filterFn elements textElements)
    <-> In e elements /\ ~ droppedByText (DetectedElement.rect e) textElements.

(** A coordinate that is not on the [width] x [height] image. *)
Definition outsideImage (width height : Z) (x y : Q) : Prop :=
  x < 0 \/ inject_Z width <= x \/ y < 0 \/ inject_Z height <= y.

(** A brightness read is white off the image when it gives 255 at every
    coordinate off the image, for every buffer of at least
    [width * height * 4] bytes. *)
Definition whiteOutsideImage
    (brightness : list Z -> Q -> Q -> Q -> JsNumber.number) : Prop :=
  forall data width height x y,
    (0 < width)%Z -> (0 < height)%Z ->
    (width * height * 4 <= Z.of_nat (length data))%Z ->
    outsideImage width height x y ->
    brightness data x y (inject_Z width) = JsNumber.Fin 255.

(** Two rectangles that touch: on one axis one ends where the other begins,
    and on the other axis their extents overlap. *)
Definition touching (a b : Rect.t) : Prop :=
  ((Rect.x a + Rect.width a == Rect.x b \/ Rect.x b + Rect.width b == Rect.x a)
   /\ Qmax (Rect.y a) (Rect.y b)
      < Qmin (Rect.y a + Rect.height a) (Rect.y b + Rect.height b))
  \/
  ((Rect.y a + Rect.height a == Rect.y b \/ Rect.y b + Rect.height b == Rect.y a)
   /\ Qmax (Rect.x a) (Rect.x b)
      < Qmin (Rect.x a + Rect.width a) (Rect.x b + Rect.width b)).

Definition rectEq (r s : Rect.t) : Prop :=
  Rect.x r == Rect.x s /\ Rect.y r == Rect.y s
  /\ Rect.width r == Rect.width s /\ Rect.height r == Rect.height s.

(** The smallest rectangle around two rectangles. *)
Definition boundingBox (a b : Rect.t) : Rect.t :=
  let left := Qmin (Rect.x a) (Rect.x b) in
  let top := Qmin (Rect.y a) (Rect.y b) in
  Rect.mk left top
    (Qmax (Rect.x a + Rect.width a) (Rect.x b + Rect.width b) - left)
    (Qmax (Rect.y a + Rect.height a) (Rect.y b + Rect.height b) - top).

(** The pair [first; second] comes out of [merge] as one element with the
    type of the pair, the bounding box, and [factor] times the larger
    confidence. *)
Definition mergedAsOne (factor : Q)
    (merge : list DetectedElement.t -> list DetectedElement.t)
    (first second : DetectedElement.t) : Prop :=
  exists m,
    merge [first; second] = [m]
    /\ DetectedElement.type m = DetectedElement.type first
    /\ rectEq (DetectedElement.rect m)
              (boundingBox (DetectedElement.rect first) (DetectedElement.rect second))
    /\ DetectedElement.confidence m
       == Qmax (DetectedElement.confidence first)
               (DetectedElement.confidence second) * factor.

(** A merge step merges touching pairs when every touching pair of one type
    comes out as one element with 0.9 times the larger confidence. *)
Definition mergesTouchingPairs
    (merge : list DetectedElement.t -> list DetectedElement.t) : Prop :=
  forall first second,
    DetectedElement.type first = DetectedElement.type second ->
    touching (DetectedElement.rect first) (DetectedElement.rect second) ->
    mergedAsOne (9 # 10) merge first second.

(** A detection whose rectangle has whole coordinates. *)
Definition wholeBox (type : ElementType) (x y width height : Z) (confidence : Q)
  : DetectedElement.t :=
  DetectedElement.mk type
    (Rect.mk (inject_Z x) (inject_Z y) (inject_Z width) (inject_Z height))
    confidence.

(* ================================================================== *)
(** * Sample inputs *)

(** The ground truth and the detections of [evaluate_smoke.ts]. *)
Definition smokeTextTruth : FieldAnnotation.t :=
  FieldAnnotation.mk FText (Rect.mk (1 # 10) (2 # 10) (3 # 10) (5 # 100)).

Definition smokeCheckboxTruth : FieldAnnotation.t :=
  FieldAnnotation.mk FCheckbox (Rect.mk (6 # 10) (4 # 10) (5 # 100) (5 # 100)).

Definition smokeNearPrediction : FieldPrediction.t :=
  FieldPrediction.mk FText
    (Rect.mk (105 # 1000) (205 # 1000) (29 # 100) (55 # 1000)) (Some (8 # 10)).

Definition smokeFarPrediction : FieldPrediction.t :=
  FieldPrediction.mk FText
    (Rect.mk (5 # 10) (5 # 10) (1 # 10) (5 # 100)) (Some (4 # 10)).

Definition smokeAnnotations : DocumentAnnotation.t :=
  DocumentAnnotation.mk "synthetic"
    [PageAnnotation.mk 0 [smokeTextTruth; smokeCheckboxTruth]].

Definition smokeDetections : DetectionOutput.t :=
  DetectionOutput.mk "synthetic"
    [PagePrediction.mk 0 [smokeNearPrediction; smokeFarPrediction]] None.

(** Two text boxes side by side, the first to the left, sharing the edge
    [x = 50]. *)
Definition leftBox : DetectedElement.t :=
  DetectedElement.mk EText (Rect.mk 0 0 50 20) (5 # 10).

Definition rightBox : DetectedElement.t :=
  DetectedElement.mk EText (Rect.mk 50 0 50 20) (6 # 10).

(** Two narrow text boxes side by side, sharing the edge [x = 4]. *)
Definition leftSliver : DetectedElement.t :=
  DetectedElement.mk EText (Rect.mk 0 0 4 20) (5 # 10).

Definition rightSliver : DetectedElement.t :=
  DetectedElement.mk EText (Rect.mk 4 0 4 20) (6 # 10).

(** A 10 x 10 detection inside a 100 x 100 text box. *)
Definition glyphBox : DetectedElement.t :=
  DetectedElement.mk ECheckbox (Rect.mk 10 10 10 10) (7 # 10).

Definition paragraph : TextBox.t :=
  TextBox.mk "Lorem ipsum" (Rect.mk 0 0 100 100).

(** Rectangles on binary64 numbers.  A decimal literal stands for the
    nearest binary64 value, as in JavaScript. *)
Section Binary64Samples.

Import Floats.
Local Open Scope float_scope.
#[local] Set Warnings "-inexact-float".







End Binary64Samples.

(** One black opaque pixel, and the same buffer followed by a second
    pixel's worth of bytes. *)
Definition blackPixel : list Z := [0; 0; 0; 255]%Z.
Definition twoBlackPixels : list Z := [0; 0; 0; 255; 0; 0; 0; 255]%Z.

(** Passes that find one text box, one checkbox and one line, whatever the
    image. *)
Definition fixedRasterPasses : RasterHeuristics.Passes :=
  RasterHeuristics.mkPasses
    (fun _ _ _ _ => [DetectedElement.mk EText (Rect.mk 10 10 100 20) (5 # 10)])
    (fun _ _ _ _ _ => [DetectedElement.mk ECheckbox (Rect.mk 200 10 14 14) (7 # 10)])
    (fun _ _ _ _ _ => [])
    (fun _ _ _ _ _ => [])
    (fun _ _ _ => [DetectedElement.mk ELine (Rect.mk 10 300 100 12) (4 # 10)]).

Definition fixedLegacyPasses : PdfFieldDetection.Passes :=
  PdfFieldDetection.mkPasses
    (fun _ _ _ _ => [DetectedElement.mk EText (Rect.mk 10 10 100 20) (5 # 10)])
    (fun _ _ _ _ _ => [DetectedElement.mk ECheckbox (Rect.mk 200 10 14 14) (7 # 10)])
    (fun _ _ _ _ _ => [])
    (fun _ _ _ => [])
    (fun _ _ _ => [DetectedElement.mk EBox (Rect.mk 10 300 100 4) (7 # 10)]).

Definition blankImage : ImageData.t := ImageData.mk blackPixel 1 1.

(* ================================================================== *)
(** * The evaluator: vocabulary of the further statements *)

(** [a] may come before [b] in the sorted candidates: its IoU is not
    smaller. *)
Definition betterFirst (a b : Evaluate.Candidate) : Prop :=
  Evaluate.iou b <= Evaluate.iou a.

(** What a match record of a run for [type] holds. *)
Definition validMatch (type : FieldType) (threshold : Q) (m : MatchRecord.t) : Prop :=
  MatchRecord.type m = type
  /\ MatchRecord.pageIndex m = Instance.pageIndex (MatchRecord.truth m)
  /\ Instance.pageIndex (MatchRecord.truth m)
     = Instance.pageIndex (MatchRecord.prediction m)
  /\ MatchRecord.iou m
     = Evaluate.computeIoU
         (FieldAnnotation.rect (Instance.field (MatchRecord.truth m)))
         (FieldPrediction.rect (Instance.field (MatchRecord.prediction m)))
  /\ threshold <= MatchRecord.iou m.

(** The elements of [l] at the indexes [idx], in the order of [idx]. *)
Definition pick {A : Type} (l : list A) (idx : list nat) : list A :=
  flat_map (fun i => match nth_error l i with Some a => [a] | None => [] end) idx.

(** [DatasetSample] of [benchmarks/detection/types.ts]. *)
Module DatasetSample.
Record t : Type :=
  mk { documentId : string;
       pdfPath : string;
       annotationPath : option string;
       annotations : option DocumentAnnotation.t }.
End DatasetSample.

(** The [detect] of the detector registered as ["empty"]. *)
Definition emptyDetect (sample : DatasetSample.t) : DetectionOutput.t :=
  let pages :=
    match DatasetSample.annotations sample with
    | Some annotations =>
        map (fun page => PagePrediction.mk (PageAnnotation.pageIndex page) [])
            (DocumentAnnotation.pages annotations)
    | None => []
    end in
  DetectionOutput.mk (DatasetSample.documentId sample) pages
    (Some [("note"%string, "No detections produced."%string)]).

(** The synthetic annotations as a dataset sample. *)
Definition smokeSample : DatasetSample.t :=
  DatasetSample.mk "synthetic" "synthetic.pdf" None (Some smokeAnnotations).

(* ================================================================== *)
(** * The benchmark detectors ([benchmarks/detection/detectors.ts]) *)

(** [Math.max] and [Math.min] on numbers that may not be finite. *)
Module JsMath.

Import JsNumber.

Definition max (a b : number) : number :=
  match a, b with
  | NaN, _ | _, NaN => NaN
  | _, _ => if lt a b then b else a
  end.

Definition min (a b : number) : number :=
  match a, b with
  | NaN, _ | _, NaN => NaN
  | _, _ => if lt b a then b else a
  end.

End JsMath.

(** A rectangle whose four numbers may not be finite. *)
Module NumberRect.
Record t : Type :=
  mk { x : JsNumber.number; y : JsNumber.number;
       width : JsNumber.number; height : JsNumber.number }.
End NumberRect.

(** A registered detector.  [detect] stands for the asynchronous method;
    the built-in detectors read files and render pages, which is outside
    this model. *)
Module Detector.
Record t : Type :=
  mk { name : string;
       description : string;
       detect : DatasetSample.t -> DetectionOutput.t }.
End Detector.

Module Detectors.

Import JsNumber.

(** The [registry] map, in insertion order. *)
Definition Registry : Type := list (string * Detector.t).

Definition has (registry : Registry) (id : string) : bool :=
  existsb (fun entry => String.eqb (fst entry) id) registry.

Definition getDetector (registry : Registry) (id : string) : option Detector.t :=
  option_map snd (find (fun entry => String.eqb (fst entry) id) registry).

(** [registerDetector]: the new registry, or the message of the [Error]
    it throws. *)
Definition registerDetector (registry : Registry) (id : string)
    (detector : Detector.t) : Registry + string :=
  if has registry id
  then inr (String.append "Detector " (String.append id " is already registered"))
  else inl (registry ++ [(id, detector)]).

Definition listDetectors (registry : Registry) : list (string * string * string) :=
  map (fun entry =>
         (fst entry, Detector.name (snd entry), Detector.description (snd entry)))
      registry.

Definition requireDetector (registry : Registry) (id : string)
  : Detector.t + string :=
  match getDetector registry id with
  | Some detector => inl detector
  | None => inr (String.append "Unknown detector: " id)
  end.

(** [TYPE_MAPPING], with [element.type in TYPE_MAPPING] as [Some]. *)
Definition TYPE_MAPPING (type : ElementType) : option FieldType :=
  match type with
  | EText => Some FText
  | ECheckbox => Some FCheckbox
  | ERadio => Some FRadio
  | ESignature => Some FSignature
  | _ => None
  end.

Definition normalizeRect (rect : Rect.t) (viewportWidth viewportHeight : Q)
  : NormalizedRect :=
  let safeWidth := if Qeq_bool viewportWidth 0 then 1 else viewportWidth in
  let safeHeight := if Qeq_bool viewportHeight 0 then 1 else viewportHeight in
  Rect.mk (Rect.x rect / safeWidth) (Rect.y rect / safeHeight)
          (Rect.width rect / safeWidth) (Rect.height rect / safeHeight).

(** The callback of [rawDetections.map]: [null] is [None].  The
    [attributes] of the prediction, which nothing reads, are left out. *)
Definition toPrediction (width height : Q) (element : DetectedElement.t)
  : option FieldPrediction.t :=
  match TYPE_MAPPING (DetectedElement.type element) with
  | None => None
  | Some type =>
      let normalized := normalizeRect (DetectedElement.rect element) width height in
      Some (FieldPrediction.mk type normalized
              (Some (DetectedElement.confidence element)))
  end.

(** [rawDetections.map(...).filter(Boolean)]. *)
Definition toPredictions (width height : Q) (rawDetections : list DetectedElement.t)
  : list FieldPrediction.t :=
  flat_map
    (fun element =>
       match toPrediction width height element with
       | Some field => [field]
       | None => []
       end)
    rawDetections.

(** One turn of the page loop of the ["heuristic:pdfjs"] detector, from the
    rendered image on: the shared detector instance with its options, the
    page's predictions. *)
Definition heuristicPage (passes : RasterHeuristics.Passes)
    (options : DetectionOptions.t) (pageIndex : Z)
    (imageData : ImageData.t) (width height : Q)
  : DetectionOptions.t * PagePrediction.t :=
  let '(options, rawDetections) :=
    RasterHeuristics.detectFields passes options imageData width height None in
  (options, PagePrediction.mk pageIndex (toPredictions width height rawDetections)).

Definition clampUnit (value : number) : number :=
  JsMath.max (Fin 0) (JsMath.min (Fin 1) value).

Definition normalizeRectTopLeft (x y width height pageWidth pageHeight : Q)
  : NumberRect.t :=
  NumberRect.mk
    (clampUnit (div (Fin x) (Fin pageWidth)))
    (clampUnit (div (Fin y) (Fin pageHeight)))
    (clampUnit (div (Fin width) (Fin pageWidth)))
    (clampUnit (div (Fin height) (Fin pageHeight))).

Definition normalizeRectFromBottomLeft (x y width height pageWidth pageHeight : Q)
  : NumberRect.t :=
  let topLeftY := pageHeight - (y + height) in
  normalizeRectTopLeft x topLeftY width height pageWidth pageHeight.

Definition rectIoU (a b : NormalizedRect) : Q :=
  let left := Qmax (Rect.x a) (Rect.x b) in
  let top := Qmax (Rect.y a) (Rect.y b) in
  let right := Qmin (Rect.x a + Rect.width a) (Rect.x b + Rect.width b) in
  let bottom := Qmin (Rect.y a + Rect.height a) (Rect.y b + Rect.height b) in
  if Qle_bool right left || Qle_bool bottom top then 0
  else
    let intersection := (right - left) * (bottom - top) in
    let union :=
      Rect.width a * Rect.height a + Rect.width b * Rect.height b - intersection in
    if Qle_bool union 0 then 0 else intersection / union.

Definition fieldArea (f : FieldPrediction.t) : Q :=
  Rect.width (FieldPrediction.rect f) * Rect.height (FieldPrediction.rect f).

(** [[...fields].sort((a, b) => area(b) - area(a))]: stable, largest
    first. *)
Fixpoint insertByArea (f : FieldPrediction.t) (l : list FieldPrediction.t)
  : list FieldPrediction.t :=
  match l with
  | [] => [f]
  | g :: l' =>
      if Qgtb (fieldArea g) (fieldArea f) then g :: insertByArea f l'
      else f :: g :: l'
  end.

Definition sortByArea (l : list FieldPrediction.t) : list FieldPrediction.t :=
  fold_right insertByArea [] l.

(** The loop [while (candidates.length > 0)]: [current] is shifted off and
    kept, and the inner loop splices out every candidate that overlaps it
    by [threshold] or more.  Each turn shortens [candidates], so
    [length candidates] turns are enough. *)
Fixpoint nmsLoop (turns : nat) (threshold : Q)
    (candidates kept : list FieldPrediction.t) : list FieldPrediction.t :=
  match turns with
  | O => kept
  | S turns' =>
      match candidates with
      | [] => kept
      | current :: rest =>
          nmsLoop turns' threshold
            (filter
               (fun candidate =>
                  negb (Qgeb (rectIoU (FieldPrediction.rect current)
                                      (FieldPrediction.rect candidate))
                             threshold))
               rest)
            (kept ++ [current])
      end
  end.

Definition applyNms (fields : list FieldPrediction.t) (threshold : Q)
  : list FieldPrediction.t :=
  if (length fields <=? 1)%nat then fields
  else
    let candidates := sortByArea fields in
    nmsLoop (length candidates) threshold candidates [].

End Detectors.

(** A number that is finite and lies between 0 and 1. *)
Definition unitNumber (v : JsNumber.number) : Prop :=
  exists q, v = JsNumber.Fin q /\ 0 <= q <= 1.

(** A number that is finite and has the value [q]. *)
Definition finiteValue (v : JsNumber.number) (q : Q) : Prop :=
  exists q', v = JsNumber.Fin q' /\ q' == q.

(** The element types the heuristic detector passes on. *)
Definition supportedType (t : FieldType) : Prop :=
  t = FText \/ t = FCheckbox \/ t = FRadio \/ t = FSignature.

(** [f] comes no later than [g] when sorted by area, largest first. *)
Definition largerFirst (f g : FieldPrediction.t) : Prop :=
  Detectors.fieldArea g <= Detectors.fieldArea f.

(** [k] suppresses [f]: it is at least as large and overlaps it by the
    threshold or more. *)
Definition suppresses (threshold : Q) (k f : FieldPrediction.t) : Prop :=
  largerFirst k f
  /\ threshold <= Detectors.rectIoU (FieldPrediction.rect k) (FieldPrediction.rect f).

Definition apart (threshold : Q) (f g : FieldPrediction.t) : Prop :=
  Detectors.rectIoU (FieldPrediction.rect f) (FieldPrediction.rect g) < threshold.

(** Some element of [merged] has the type of [element] and a rectangle
    around its rectangle. *)
Definition coveredBy (element : DetectedElement.t)
    (merged : list DetectedElement.t) : Prop :=
  exists m, In m merged
    /\ DetectedElement.type m = DetectedElement.type element
    /\ containedIn (DetectedElement.rect element) (DetectedElement.rect m).

(** The least height [filterByMinimumSize] lets through. *)
Definition minimumHeight (options : DetectionOptions.t) (pageHeight : Q) : Q :=
  Qmax (DetectionOptions.minTextFieldHeight options) (pageHeight * (1 # 100)).

(* ================================================================== *)
(** * The editor's helpers ([components/PdfEditor.tsx]) *)

Module PdfEditor.

Import JsNumber.

(** [a - b]. *)
Definition sub (a b : number) : number :=
  match a, b with
  | NaN, _ | _, NaN => NaN
  | Fin p, Fin q => Fin (p - q)
  | Inf s, Inf t => if Bool.eqb s t then NaN else Inf s
  | Inf s, Fin _ => Inf s
  | Fin _, Inf s => Inf (negb s)
  end.

Definition clamp (value min max : number) : number :=
  JsMath.min (JsMath.max value min) max.

(** [normalizeExistingRect]: a widget rectangle in PDF points, origin at
    the bottom left, to a fraction of the page, origin at the top left. *)
Definition normalizeExistingRect (rect : Rect.t) (pageWidth pageHeight : Q)
  : NumberRect.t :=
  let normalizedWidth :=
    clamp (div (Fin (Rect.width rect)) (Fin pageWidth)) (Fin (2 # 100)) (Fin 1) in
  let normalizedHeight :=
    clamp (div (Fin (Rect.height rect)) (Fin pageHeight)) (Fin (2 # 100)) (Fin 1) in
  let normalizedX :=
    clamp (div (Fin (Rect.x rect)) (Fin pageWidth)) (Fin 0)
          (sub (Fin 1) normalizedWidth) in
  let normalizedY :=
    clamp (sub (Fin 1)
               (div (add (Fin (Rect.y rect)) (Fin (Rect.height rect))) (Fin pageHeight)))
          (Fin 0) (sub (Fin 1) normalizedHeight) in
  NumberRect.mk normalizedX normalizedY normalizedWidth normalizedHeight.

(** The decimal digits of a counter. *)
Definition decimal (n : nat) : string := NilEmpty.string_of_uint (Nat.to_uint n).

Section Names.

(** [String.prototype.trim]. *)
Variable trim : string -> string.

(** [baseName.trim() || "Field"]. *)
Definition trimmedOrField (baseName : string) : string :=
  let trimmed := trim baseName in
  if String.eqb trimmed "" then "Field"%string else trimmed.

(** The loop [while (used.has(candidate))] of [ensureUniqueFieldName];
    [turns] bounds the number of tests of the loop condition. *)
Fixpoint uniqueLoop (turns : nat) (used : list string) (baseName : string)
    (candidate : string) (index : nat) : option string :=
  match turns with
  | O => None
  | S turns' =>
      if existsb (String.eqb candidate) used
      then
        let index := S index in
        uniqueLoop turns' used baseName
          (String.append (trimmedOrField baseName)
             (String.append " " (decimal index)))
          index
      else Some candidate
  end.

(** The names the loop tries, in order: the base name, then the base name
    with 2, 3, ... after it. *)
Definition candidateName (baseName : string) (k : nat) : string :=
  if (k =? 1)%nat then trimmedOrField baseName
  else String.append (trimmedOrField baseName) (String.append " " (decimal k)).

(** [ensureUniqueFieldName]: the name and the set [used] after
    [used.add(candidate)]. *)
Definition ensureUniqueFieldName (baseName : string) (used : list string)
  : option (string * list string) :=
  match uniqueLoop (S (length used)) used baseName (trimmedOrField baseName) 1 with
  | Some candidate => Some (candidate, used ++ [candidate])
  | None => None
  end.

(** Calls of [ensureUniqueFieldName] on one set, as [mapExistingFields]
    and [handleExport] make them, one per base name. *)
Fixpoint uniqueNames (baseNames : list string) (used : list string)
  : option (list string * list string) :=
  match baseNames with
  | [] => Some ([], used)
  | baseName :: rest =>
      match ensureUniqueFieldName baseName used with
      | None => None
      | Some (name, used') =>
          match uniqueNames rest used' with
          | None => None
          | Some (names, used'') => Some (name :: names, used'')
          end
      end
  end.

End Names.

End PdfEditor.

(** The four numbers of [n] are finite and have the values of [r]. *)
Definition finiteRect (n : NumberRect.t) (r : Rect.t) : Prop :=
  finiteValue (NumberRect.x n) (Rect.x r)
  /\ finiteValue (NumberRect.y n) (Rect.y r)
  /\ finiteValue (NumberRect.width n) (Rect.width r)
  /\ finiteValue (NumberRect.height n) (Rect.height r).

(** A rectangle of the editor: inside the page and at least 2% of it in
    each direction. *)
Definition editorRect (r : Rect.t) : Prop :=
  (2 # 100) <= Rect.width r <= 1 /\ (2 # 100) <= Rect.height r <= 1
  /\ 0 <= Rect.x r /\ Rect.x r + Rect.width r <= 1
  /\ 0 <= Rect.y r /\ Rect.y r + Rect.height r <= 1.

(** A line found by [findHorizontalLines]. *)
Module HorizontalLine.
Record t : Type := mk { x : Q; y : Q; width : Q }.
End HorizontalLine.

(** The body of [detectStandaloneLines] of the raster detector, from the
    lines found on: one element of type ["line"] per line, 2 high. *)
Definition standaloneLines (horizontalLines : list HorizontalLine.t)
  : list DetectedElement.t :=
  map (fun line =>
         DetectedElement.mk ELine
           (Rect.mk (HorizontalLine.x line) (HorizontalLine.y line)
                    (HorizontalLine.width line) 2)
           (4 # 10))
      horizontalLines.

(** The passes with the last one finding nothing. *)
Definition withoutStandaloneLines (passes : RasterHeuristics.Passes)
  : RasterHeuristics.Passes :=
  RasterHeuristics.mkPasses
    (RasterHeuristics.detectTextFields passes)
    (RasterHeuristics.detectCheckboxes passes)
    (RasterHeuristics.detectRadioButtons passes)
    (RasterHeuristics.detectSignatureAreas passes)
    (fun _ _ _ => []).

(* ================================================================== *)
(** * The detection tester ([lib/detectionTest.ts]) *)

Inductive MatchQuality : Type := QPerfect | QGood | QFair | QPoor.

Module FieldMatch.
Record t : Type :=
  mk { labeled : DetectedElement.t;
       detected : DetectedElement.t;
       overlapRatio : Q;
       typeMatch : bool;
       quality : MatchQuality }.
End FieldMatch.

Module DetectionTester.

Definition calculateOverlapRatio (rect1 rect2 : Rect.t) : Q :=
  let x1 := Qmax (Rect.x rect1) (Rect.x rect2) in
  let y1 := Qmax (Rect.y rect1) (Rect.y rect2) in
  let x2 := Qmin (Rect.x rect1 + Rect.width rect1) (Rect.x rect2 + Rect.width rect2) in
  let y2 := Qmin (Rect.y rect1 + Rect.height rect1) (Rect.y rect2 + Rect.height rect2) in
  if Qle_bool x2 x1 || Qle_bool y2 y1 then 0
  else
    let overlapArea := (x2 - x1) * (y2 - y1) in
    let area1 := Rect.width rect1 * Rect.height rect1 in
    let area2 := Rect.width rect2 * Rect.height rect2 in
    let unionArea := area1 + area2 - overlapArea in
    if Qgtb unionArea 0 then overlapArea / unionArea else 0.

Definition assessMatchQuality (overlapRatio : Q) (typeMatch : bool) : MatchQuality :=
  if Qgtb overlapRatio (8 # 10) && typeMatch then QPerfect
  else if Qgtb overlapRatio (6 # 10) && typeMatch then QGood
  else if Qgtb overlapRatio (4 # 10) || typeMatch then QFair
  else QPoor.

(** [bestMatch]: index, detection and overlap ratio. *)
Definition Best : Type := (nat * DetectedElement.t * Q)%type.

(** The inner loop [for (let i = 0; i < detected.length; i++)]: [rest] is
    [detected[i ..]]. *)
Fixpoint bestFrom (usedDetected : list nat) (expectedField : DetectedElement.t)
    (i : nat) (rest : list DetectedElement.t) (bestMatch : option Best)
  : option Best :=
  match rest with
  | [] => bestMatch
  | detectedField :: rest' =>
      if setHas usedDetected i
      then bestFrom usedDetected expectedField (S i) rest' bestMatch
      else
        let overlapRatio :=
          calculateOverlapRatio (DetectedElement.rect expectedField)
                                (DetectedElement.rect detectedField) in
        if Qgtb overlapRatio (3 # 10)
           && match bestMatch with
              | None => true
              | Some best => Qgtb overlapRatio (snd best)
              end
        then bestFrom usedDetected expectedField (S i) rest'
               (Some (i, detectedField, overlapRatio))
        else bestFrom usedDetected expectedField (S i) rest' bestMatch
  end.

(** One turn of the loop [for (const expectedField of expected)] on the
    matches so far and the set [usedDetected]. *)
Definition matchField (detected : list DetectedElement.t)
    (state : list FieldMatch.t * list nat) (expectedField : DetectedElement.t)
  : list FieldMatch.t * list nat :=
  let '(matches, usedDetected) := state in
  match bestFrom usedDetected expectedField 0 detected None with
  | Some (index, found, overlapRatio) =>
      let typeMatch :=
        ElementType_beq (DetectedElement.type expectedField)
                        (DetectedElement.type found) in
      let quality := assessMatchQuality overlapRatio typeMatch in
      (matches ++ [FieldMatch.mk expectedField found overlapRatio typeMatch quality],
       usedDetected ++ [index])
  | None => (matches, usedDetected)
  end.

(** [findMatches] with the set [usedDetected] it ends with. *)
Definition findMatchesRun (expected detected : list DetectedElement.t)
  : list FieldMatch.t * list nat :=
  fold_left (matchField detected) expected ([], []).

Definition findMatches (expected detected : list DetectedElement.t)
  : list FieldMatch.t :=
  fst (findMatchesRun expected detected).

End DetectionTester.

(** [best] is the choice of the inner loop among the detections before
    [bound] that are not used. *)
Definition bestSoFar (expectedField : DetectedElement.t)
    (detected : list DetectedElement.t) (used : list nat) (bound : nat)
    (best : option DetectionTester.Best) : Prop :=
  let ratio other :=
    DetectionTester.calculateOverlapRatio (DetectedElement.rect expectedField)
                                          (DetectedElement.rect other) in
  match best with
  | None =>
      forall j other, (j < bound)%nat -> nth_error detected j = Some other ->
        ~ In j used -> ratio other <= 3 # 10
  | Some (index, found, overlapRatio) =>
      nth_error detected index = Some found /\ ~ In index used
      /\ overlapRatio = ratio found /\ (3 # 10) < overlapRatio
      /\ forall j other, (j < bound)%nat -> nth_error detected j = Some other ->
            ~ In j used -> ratio other <= overlapRatio
  end.

(** A match of the tester: the detection at [index], overlapping the
    labeled field by [overlapRatio], more than 0.3, and by no less than any
    detection outside [usedBefore]. *)
Definition testerMatch (expected detected : list DetectedElement.t)
    (usedBefore : list nat) (m : FieldMatch.t) (index : nat) : Prop :=
  In (FieldMatch.labeled m) expected
  /\ nth_error detected index = Some (FieldMatch.detected m)
  /\ ~ In index usedBefore
  /\ FieldMatch.overlapRatio m
     = DetectionTester.calculateOverlapRatio
         (DetectedElement.rect (FieldMatch.labeled m))
         (DetectedElement.rect (FieldMatch.detected m))
  /\ (3 # 10) < FieldMatch.overlapRatio m
  /\ (forall j other, nth_error detected j = Some other -> ~ In j usedBefore ->
        DetectionTester.calculateOverlapRatio
          (DetectedElement.rect (FieldMatch.labeled m)) (DetectedElement.rect other)
        <= FieldMatch.overlapRatio m)
  /\ FieldMatch.typeMatch m
     = ElementType_beq (DetectedElement.type (FieldMatch.labeled m))
                       (DetectedElement.type (FieldMatch.detected m))
  /\ FieldMatch.quality m
     = DetectionTester.assessMatchQuality (FieldMatch.overlapRatio m)
                                          (FieldMatch.typeMatch m).

(** The default options with merging switched off. *)
Definition noMergeOptions : DetectionOptions.t :=
  DetectionOptions.mk 12 200 8 20 8 16 0 (3 # 10).

(* ================================================================== *)
(** * The pixel passes of the raster detector
      ([src/lib/detectors/rasterHeuristics.ts]) *)

(** The values a loop counter takes in
    [for (let i = start; i < bound; i += step)], for a positive [step]:
    [start], [start + step], ... while below [bound].  The body of no
    loop of the detector assigns its counter or changes its bound. *)
Definition countUp (start bound step : Q) : list Q :=
  map (fun k => start + inject_Z (Z.of_nat k) * step)
      (seq 0 (Z.to_nat (Qceiling ((bound - start) / step)))).

(** The same for [i <= bound]. *)
Definition countUpTo (start bound step : Q) : list Q :=
  map (fun k => start + inject_Z (Z.of_nat k) * step)
      (seq 0 (Z.to_nat (Qfloor ((bound - start) / step) + 1))).

(** A loop whose body returns from the function with [Some] value and
    goes on with [None]. *)
Fixpoint firstSome {A B : Type} (body : A -> option B) (l : list A) : option B :=
  match l with
  | [] => None
  | a :: rest =>
      match body a with
      | Some b => Some b
      | None => firstSome body rest
      end
  end.

(** The same with a [break] tested first in the body. *)
Fixpoint firstUntil {A B : Type} (stop : A -> bool) (body : A -> option B)
    (l : list A) : option B :=
  match l with
  | [] => None
  | a :: rest =>
      if stop a then None
      else match body a with
           | Some b => Some b
           | None => firstUntil stop body rest
           end
  end.

Module RasterPasses.

Import JsNumber.

(** [getPixelBrightness] at coordinates and a width that are numbers. *)
Definition getPixelBrightness (data : list Z) (x y width : Q) : number :=
  let offset := (y * width + x) * 4 in
  let r := ofElement (readNumber data offset) in
  let g := ofElement (readNumber data (offset + 1)) in
  let b := ofElement (readNumber data (offset + 2)) in
  add (add (mul (Fin (299 # 1000)) r) (mul (Fin (587 # 1000)) g))
      (mul (Fin (114 # 1000)) b).

Definition countDarkIf (data : list Z) (width x y : Q) : Z :=
  if lt (getPixelBrightness data x y width) (Fin 140) then 1%Z else 0%Z.

Definition measureBorderDarkness (data : list Z) (width x y rectWidth rectHeight : Q)
  : Q :=
  let horizontal :=
    fold_left
      (fun (counts : Z * Z) currX =>
         let '(darkPixels, totalPixels) := counts in
         ((darkPixels + countDarkIf data width currX y
           + countDarkIf data width currX (y + rectHeight))%Z,
          (totalPixels + 2)%Z))
      (countUp x (x + rectWidth) 1) (0%Z, 0%Z) in
  let '(darkPixels, totalPixels) :=
    fold_left
      (fun (counts : Z * Z) currY =>
         let '(darkPixels, totalPixels) := counts in
         ((darkPixels + countDarkIf data width x currY
           + countDarkIf data width (x + rectWidth) currY)%Z,
          (totalPixels + 2)%Z))
      (countUp y (y + rectHeight) 1) horizontal in
  if (0 <? totalPixels)%Z then inject_Z darkPixels / inject_Z totalPixels else 0.

Definition measureFillBrightness (data : list Z) (width x y rectWidth rectHeight : Q)
  : number :=
  let '(totalBrightness, totalPixels) :=
    fold_left
      (fun (sums : number * Z) currY =>
         fold_left
           (fun (sums : number * Z) currX =>
              let '(totalBrightness, totalPixels) := sums in
              (add totalBrightness (getPixelBrightness data currX currY width),
               (totalPixels + 1)%Z))
           (countUp (x + 1) (x + rectWidth - 1) 3) sums)
      (countUp (y + 1) (y + rectHeight - 1) 3) (Fin 0, 0%Z) in
  if (0 <? totalPixels)%Z then div totalBrightness (ofZ totalPixels) else Fin 0.

Definition detectSquareAt (data : list Z) (width height x y minSize maxSize
    borderThreshold : Q) : option Q :=
  firstUntil
    (fun size => Qgeb (x + size) width || Qgeb (y + size) height)
    (fun size =>
       let borderBrightness := measureBorderDarkness data width x y size size in
       if Qgtb borderBrightness borderThreshold then Some size else None)
    (countUpTo minSize maxSize 1).

(** The twelve turns of the loop [for (let i = 0; i < points; i++)] of
    [detectCircleAt].  [circle i] is the pair of [Math.cos(angle)] and
    [Math.sin(angle)] for [angle = (2 * Math.PI * i) / 12]. *)
Definition sampleCircle (circle : nat -> Q * Q) (data : list Z)
    (width height centerX centerY radius : Q) : Z * Z :=
  fold_left
    (fun (counts : Z * Z) i =>
       let '(darkCount, total) := counts in
       let sampleX := inject_Z (Qfloor (centerX + radius * fst (circle i))) in
       let sampleY := inject_Z (Qfloor (centerY + radius * snd (circle i))) in
       if Qltb sampleX 0 || Qgeb sampleX width || Qltb sampleY 0 || Qgeb sampleY height
       then counts
       else
         let brightness := getPixelBrightness data sampleX sampleY width in
         ((if lt brightness (Fin 140) then darkCount + 1 else darkCount)%Z,
          (total + 1)%Z))
    (seq 0 12) (0%Z, 0%Z).

Definition detectCircleAt (circle : nat -> Q * Q) (data : list Z)
    (width height x y minSize maxSize borderThreshold : Q) : option Q :=
  firstUntil
    (fun size => Qgeb (x + size) width || Qgeb (y + size) height)
    (fun size =>
       let radius := size / 2 in
       let centerX := x + radius in
       let centerY := y + radius in
       let '(darkCount, total) :=
         sampleCircle circle data width height centerX centerY radius in
       if (0 <? total)%Z
          && Qgtb (inject_Z darkCount / inject_Z total) borderThreshold
       then Some size else None)
    (countUpTo minSize maxSize 1).

Definition detectWideRectangle (data : list Z) (width height x y minWidth maxWidth
    minHeight maxHeight borderThreshold : Q) : option Rect.t :=
  firstSome
    (fun rectWidth =>
       firstUntil
         (fun rectHeight =>
            Qgeb (x + rectWidth) width || Qgeb (y + rectHeight) height)
         (fun rectHeight =>
            let borderBrightness :=
              measureBorderDarkness data width x y rectWidth rectHeight in
            if Qgtb borderBrightness borderThreshold
            then Some (Rect.mk x y rectWidth rectHeight) else None)
         (countUpTo minHeight maxHeight 5))
    (countUpTo minWidth maxWidth 10).

Definition detectRectangleAt (minTextFieldHeight : Q) (data : list Z)
    (width height x y threshold : Q) : option Rect.t :=
  let maxWidth := Qmin (width - x) 300 in
  let maxHeight := Qmin (height - y) 100 in
  firstSome
    (fun rectHeight =>
       firstSome
         (fun rectWidth =>
            let borderBrightness :=
              measureBorderDarkness data width x y rectWidth rectHeight in
            let fillBrightness :=
              measureFillBrightness data width x y rectWidth rectHeight in
            if Qgtb borderBrightness (6 # 10)
               && gt fillBrightness (Fin (threshold + 40))
            then Some (Rect.mk x y rectWidth rectHeight) else None)
         (countUp minTextFieldHeight maxWidth 5))
    (countUp minTextFieldHeight maxHeight 5).

(** [isLikelyUnderline]. *)
Definition isLikelyUnderline (data : list Z) (x y width imageWidth imageHeight
    threshold : Q) : bool :=
  let checkHeight := Qmin 20 (y - 5) in
  if Qle_bool checkHeight 0 then false
  else
    let '(clearPixels, totalPixels) :=
      fold_left
        (fun (counts : Z * Z) checkY =>
           fold_left
             (fun (counts : Z * Z) checkX =>
                let '(clearPixels, totalPixels) := counts in
                let brightness := getPixelBrightness data checkX checkY imageWidth in
                ((if gt brightness (Fin (threshold + 20))
                  then clearPixels + 1 else clearPixels)%Z,
                 (totalPixels + 1)%Z))
             (countUp x (Qmin (x + width) imageWidth) 3) counts)
        (countUp (y - checkHeight) (y - 2) 1) (0%Z, 0%Z) in
    let clearRatio :=
      if (0 <? totalPixels)%Z then inject_Z clearPixels / inject_Z totalPixels
      else 0 in
    Qgtb clearRatio (55 # 100).

(** The variables of one row of [findHorizontalLines]; [totalPixels],
    which is only counted, is left out. *)
Record RowState : Type :=
  mkRow { lineStart : Q; lineLength : Q; darkPixels : Z;
          lines : list HorizontalLine.t }.

(** The test made at the end of a run of dark pixels and at the end of the
    row: the lines with the run added when it is long enough and
    [isLikelyUnderline] accepts it. *)
Definition pushLine (data : list Z) (width height threshold y : Q) (row : RowState)
  : list HorizontalLine.t :=
  if Qgeb (lineLength row) 40
     && Qgtb (inject_Z (darkPixels row)) (lineLength row * (7 # 10))
  then if isLikelyUnderline data (lineStart row) y (lineLength row) width height
            threshold
       then lines row ++ [HorizontalLine.mk (lineStart row) y (lineLength row)]
       else lines row
  else lines row.

(** One turn of the loop over [x]. *)
Definition scanPixel (data : list Z) (width height threshold y : Q)
    (row : RowState) (x : Q) : RowState :=
  let brightness := getPixelBrightness data x y width in
  let isDark := lt brightness (Fin threshold) in
  if isDark
  then
    let lineStart := if Qeq_bool (lineStart row) (-1) then x else lineStart row in
    mkRow lineStart (x - lineStart + 1) (darkPixels row + 1)%Z (lines row)
  else mkRow (-1) 0 0%Z (pushLine data width height threshold y row).

(** One turn of the loop over [y]. *)
Definition scanRow (data : list Z) (width height threshold : Q)
    (lines : list HorizontalLine.t) (y : Q) : list HorizontalLine.t :=
  let row :=
    fold_left (scanPixel data width height threshold y)
              (countUp 5 (width - 5) 1) (mkRow (-1) 0 0%Z lines) in
  pushLine data width height threshold y row.

Definition findHorizontalLines (data : list Z) (width height threshold : Q)
  : list HorizontalLine.t :=
  fold_left (scanRow data width height threshold) (countUp 10 (height - 10) 2) [].

Definition calculateTextFieldAreaConfidence (data : list Z)
    (x y width height imageWidth imageHeight : Q) : Q :=
  let sampleStepX := Qmax 1 (inject_Z (Qfloor (width / 100))) in
  let sampleStepY := Qmax 1 (inject_Z (Qfloor (height / 20))) in
  let '(brightPixels, totalPixels) :=
    fold_left
      (fun (counts : Z * Z) sampleY =>
         fold_left
           (fun (counts : Z * Z) sampleX =>
              let '(brightPixels, totalPixels) := counts in
              let brightness := getPixelBrightness data sampleX sampleY imageWidth in
              ((if gt brightness (Fin 200) then brightPixels + 1 else brightPixels)%Z,
               (totalPixels + 1)%Z))
           (countUp x (Qmin imageWidth (x + width)) sampleStepX) counts)
      (countUp y (Qmin imageHeight (y + height)) sampleStepY) (0%Z, 0%Z) in
  if (totalPixels =? 0)%Z then 0
  else
    let brightRatio := inject_Z brightPixels / inject_Z totalPixels in
    Qmax 0 (Qmin 1 brightRatio).

Definition detectBoxedTextFields (minTextFieldHeight : Q) (data : list Z)
    (width height threshold : Q) : list DetectedElement.t :=
  flat_map
    (fun y =>
       flat_map
         (fun x =>
            match detectRectangleAt minTextFieldHeight data width height x y
                    threshold with
            | None => []
            | Some rectangle => [DetectedElement.mk EText rectangle (5 # 10)]
            end)
         (countUp 0 (width - minTextFieldHeight) 3))
    (countUp 0 (height - minTextFieldHeight) 3).

(** The turn of the loop [for (const line of horizontalLines)] of
    [detectTextFields]: the elements it pushes. *)
Definition textFieldAbove (minTextFieldHeight : Q) (data : list Z) (width height : Q)
    (line : HorizontalLine.t) : list DetectedElement.t :=
  if Qltb (HorizontalLine.width line) 40 then []
  else
    let fieldHeight := Qmax minTextFieldHeight (Qmin 25 (height * (25 # 1000))) in
    let textFieldY := Qmax 0 (HorizontalLine.y line - fieldHeight - 2) in
    if Qgeb textFieldY 0 && Qgeb (HorizontalLine.y line - textFieldY) fieldHeight
    then
      let confidence :=
        calculateTextFieldAreaConfidence data (HorizontalLine.x line) textFieldY
          (HorizontalLine.width line) fieldHeight width height in
      if Qgtb confidence (2 # 10)
      then [DetectedElement.mk EText
              (Rect.mk (HorizontalLine.x line) textFieldY
                       (HorizontalLine.width line) fieldHeight)
              confidence]
      else []
    else [].

Definition detectTextFields (minTextFieldHeight : Q) (imageData : ImageData.t)
    (width height : Q) : list DetectedElement.t :=
  let data := ImageData.data imageData in
  let threshold := 120 in
  let horizontalLines := findHorizontalLines data width height threshold in
  flat_map (textFieldAbove minTextFieldHeight data width height) horizontalLines
  ++ detectBoxedTextFields minTextFieldHeight data width height threshold.

(** [if (!size) continue]: [null] and 0 are skipped. *)
Definition squareElement (type : ElementType) (confidence x y : Q) (size : option Q)
  : list DetectedElement.t :=
  match size with
  | None => []
  | Some size =>
      if Qeq_bool size 0 then []
      else [DetectedElement.mk type (Rect.mk x y size size) confidence]
  end.

Definition detectCheckboxes (minSize maxSize : Q) (imageData : ImageData.t)
    (width height : Q) : list DetectedElement.t :=
  let data := ImageData.data imageData in
  flat_map
    (fun y =>
       flat_map
         (fun x =>
            squareElement ECheckbox (7 # 10) x y
              (detectSquareAt data width height x y minSize maxSize (65 # 100)))
         (countUp 0 (width - maxSize) 3))
    (countUp 0 (height - maxSize) 3).

Definition detectRadioButtons (circle : nat -> Q * Q) (minSize maxSize : Q)
    (imageData : ImageData.t) (width height : Q) : list DetectedElement.t :=
  let data := ImageData.data imageData in
  flat_map
    (fun y =>
       flat_map
         (fun x =>
            squareElement ERadio (6 # 10) x y
              (detectCircleAt circle data width height x y minSize maxSize (6 # 10)))
         (countUp 0 (width - maxSize) 3))
    (countUp 0 (height - maxSize) 3).

Definition detectSignatureAreas (minTextFieldHeight maxFieldHeight : Q)
    (imageData : ImageData.t) (width height : Q) : list DetectedElement.t :=
  let data := ImageData.data imageData in
  let minWidth := width * (2 # 10) in
  let maxWidth := width * (8 # 10) in
  let minHeight := Qmax (minTextFieldHeight * (15 # 10)) 20 in
  let maxHeight := Qmin (height * (6 # 100)) maxFieldHeight in
  flat_map
    (fun y =>
       flat_map
         (fun x =>
            match detectWideRectangle data width height x y minWidth maxWidth
                    minHeight maxHeight (45 # 100) with
            | None => []
            | Some signature => [DetectedElement.mk ESignature signature (55 # 100)]
            end)
         (countUp 0 (width - maxWidth) 4))
    (countUp 0 (height - maxHeight) 4).

Definition detectStandaloneLines (imageData : ImageData.t) (width height : Q)
  : list DetectedElement.t :=
  let data := ImageData.data imageData in
  let horizontalLines := findHorizontalLines data width height 100 in
  standaloneLines horizontalLines.

(** The five passes as the class has them. *)
Definition passes (circle : nat -> Q * Q) : RasterHeuristics.Passes :=
  RasterHeuristics.mkPasses detectTextFields detectCheckboxes
    (detectRadioButtons circle) detectSignatureAreas detectStandaloneLines.

End RasterPasses.

(** No channel value of the buffer is below 140. *)
Definition noDarkByte (data : list Z) : Prop := Forall (fun v => (140 <= v)%Z) data.

(** A 4 x 4 image, every byte 255. *)
Definition whiteImage : ImageData.t := ImageData.mk (repeat 255%Z 64) 4 4.

(** Samples on the axes only, for computing with [detectCircleAt]. *)
Definition axisCircle (i : nat) : Q * Q :=
  match Nat.modulo i 4 with
  | 0%nat => (1, 0)
  | 1%nat => (0, 1)
  | 2%nat => (-1, 0)
  | _ => (0, -1)
  end.

(** A rectangle with a corner that is not negative, ending before the
    right and the bottom edge of the page. *)
Definition onPage (pageWidth pageHeight : Q) (r : Rect.t) : Prop :=
  0 <= Rect.x r /\ 0 <= Rect.y r
  /\ Rect.x r + Rect.width r < pageWidth
  /\ Rect.y r + Rect.height r < pageHeight.

(** The pixel at [(x, y)] is darker than [threshold]. *)
Definition darkAt (data : list Z) (width threshold x y : Q) : Prop :=
  JsNumber.lt (RasterPasses.getPixelBrightness data x y width)
              (JsNumber.Fin threshold) = true.

(** What holds of a line of [findHorizontalLines]. *)
Definition underline (data : list Z) (width height threshold : Q)
    (line : HorizontalLine.t) : Prop :=
  let x := HorizontalLine.x line in
  let y := HorizontalLine.y line in
  40 <= HorizontalLine.width line
  /\ 5 <= x /\ x + HorizontalLine.width line - 1 < width - 5
  /\ 10 <= y < height - 10
  /\ (forall k : nat, inject_Z (Z.of_nat k) < HorizontalLine.width line ->
        darkAt data width threshold (x + inject_Z (Z.of_nat k)) y)
  /\ RasterPasses.isLikelyUnderline data x y (HorizontalLine.width line)
       width height threshold = true.

(** The column of the [k]-th turn of the loop over [x] in
    [findHorizontalLines]. *)
Definition scanColumn (k : nat) : Q := 5 + inject_Z (Z.of_nat k) * 1.

(** A line of row [y] found in the columns before the [m]-th: a run of
    dark pixels from column [i] to before column [j]. *)
Definition foundBefore (data : list Z) (width height threshold y : Q) (m : nat)
    (line : HorizontalLine.t) : Prop :=
  HorizontalLine.y line = y
  /\ exists i j : nat,
       (i < j <= m)%nat
       /\ HorizontalLine.x line = scanColumn i
       /\ HorizontalLine.width line == inject_Z (Z.of_nat (j - i))
       /\ 40 <= HorizontalLine.width line
       /\ (forall k, (i <= k < j)%nat -> darkAt data width threshold (scanColumn k) y)
       /\ RasterPasses.isLikelyUnderline data (HorizontalLine.x line) y
            (HorizontalLine.width line) width height threshold = true.

(** The variables of the row after the columns before the [m]-th: no run
    is open, or a run of dark pixels is open since column [i]. *)
Definition rowState (data : list Z) (width height threshold y : Q)
    (found : list HorizontalLine.t) (m : nat) (row : RasterPasses.RowState) : Prop :=
  ((RasterPasses.lineStart row = -1 /\ RasterPasses.lineLength row = 0)
   \/ exists i : nat,
        (i < m)%nat
        /\ RasterPasses.lineStart row = scanColumn i
        /\ RasterPasses.lineLength row == inject_Z (Z.of_nat (m - i))
        /\ forall k, (i <= k < m)%nat -> darkAt data width threshold (scanColumn k) y)
  /\ forall line, In line (RasterPasses.lines row) ->
       In line found \/ foundBefore data width height threshold y m line.

(** A 12 x 12 image, every byte 0. *)
Definition blackImage : ImageData.t := ImageData.mk (repeat 0%Z 576) 12 12.

(* ================================================================== *)
(** * Comparisons on rationals *)

Lemma Qle_bool_false (a b : Q) : Qle_bool a b = false <-> b < a.
Proof.
  split; intro H.
  - apply Qnot_le_lt. intro Hle. apply Qle_bool_iff in Hle. congruence.
  - destruct (Qle_bool a b) eqn:E; [|reflexivity].
    apply Qle_bool_iff in E. lra.
Qed.

Lemma Qgtb_lt (a b : Q) : Qgtb a b = true <-> b < a.
Proof.
  unfold Qgtb, Qltb. rewrite negb_true_iff. apply Qle_bool_false.
Qed.

Lemma Qgtb_le (a b : Q) : Qgtb a b = false <-> a <= b.
Proof.
  unfold Qgtb, Qltb. rewrite negb_false_iff. apply Qle_bool_iff.
Qed.

Lemma Qltb_lt (a b : Q) : Qltb a b = true <-> a < b.
Proof. apply (Qgtb_lt b a). Qed.

Lemma Qgeb_le (a b : Q) : Qgeb a b = true <-> b <= a.
Proof. unfold Qgeb. apply Qle_bool_iff. Qed.

Lemma Qmax0_pos (d : Q) : 0 < d -> Qmax 0 d == d.
Proof. intros H. apply Q.max_r. lra. Qed.

Lemma Qmax0_nonpos (d : Q) : d <= 0 -> Qmax 0 d == 0.
Proof. intros H. apply Q.max_l. exact H. Qed.

Lemma Qmin_again (m k : Q) : Qmin (Qmin m k) k = Qmin m k.
Proof.
  unfold Qmin, GenericMinMax.gmin. destruct (m ?= k) eqn:E.
  - now rewrite E.
  - now rewrite E.
  - assert (Hk : (k ?= k) = Eq) by (apply Qeq_alt; reflexivity).
    now rewrite Hk.
Qed.

(** Turns the boolean tests of the code in the context into order facts. *)
Ltac qbool :=
  repeat match goal with
  | H : Qle_bool _ _ = true |- _ => apply Qle_bool_iff in H
  | H : Qle_bool _ _ = false |- _ => apply Qle_bool_false in H
  | H : (_ || _)%bool = true |- _ => apply orb_true_iff in H; destruct H
  | H : (_ || _)%bool = false |- _ => apply orb_false_iff in H; destruct H
  | H : (_ && _)%bool = true |- _ => apply andb_true_iff in H; destruct H
  | H : (_ && _)%bool = false |- _ => apply andb_false_iff in H; destruct H
  | H : negb _ = true |- _ => apply negb_true_iff in H
  | H : negb _ = false |- _ => apply negb_false_iff in H
  end.

(* ================================================================== *)
(** * Intersection over union *)

Section Binary64Facts.

Import Floats.
Local Open Scope float_scope.
#[local] Set Warnings "-inexact-float".

(** ** The order of the binary64 values *)





(** ** Sums, and the larger and the smaller of two values *)








(** ** The properties of [computeIoU] *)















End Binary64Facts.

(* ================================================================== *)
(** * The greedy matcher *)

Lemma setHas_In (s : list nat) (i : nat) : setHas s i = true <-> In i s.
Proof.
  unfold setHas. rewrite existsb_exists. split.
  - intros [j [Hj E]]. apply Nat.eqb_eq in E. now subst.
  - intros H. exists i. split; [exact H | apply Nat.eqb_refl].
Qed.

Lemma setHas_not_In (s : list nat) (i : nat) : setHas s i = false <-> ~ In i s.
Proof.
  rewrite <- setHas_In. destruct (setHas s i); split; congruence.
Qed.

Lemma NoDup_snoc {A : Type} (s : list A) (i : A) :
  NoDup s -> ~ In i s -> NoDup (s ++ [i]).
Proof.
  intros Hs Hi. apply NoDup_rev in Hs. rewrite <- (rev_involutive (s ++ [i])).
  apply NoDup_rev. rewrite rev_app_distr. simpl. constructor; [|exact Hs].
  rewrite <- in_rev. exact Hi.
Qed.

(** *** The candidates *)

Lemma combine_seq_In {A : Type} (l : list A) (s i : nat) (a : A) :
  In (i, a) (combine (seq s (length l)) l) ->
  (s <= i)%nat /\ nth_error l (i - s) = Some a.
Proof.
  revert s. induction l as [|b l IH]; intros s H; simpl in H; [contradiction|].
  destruct H as [E|H].
  - inversion E; subst. split; [lia|]. now rewrite Nat.sub_diag.
  - apply IH in H. destruct H as [Hle Hnth]. split; [lia|].
    replace (i - s)%nat with (S (i - S s)) by lia. exact Hnth.
Qed.

Lemma indexed_In {A : Type} (l : list A) (i : nat) (a : A) :
  In (i, a) (Evaluate.indexed l) -> nth_error l i = Some a.
Proof.
  intros H. apply combine_seq_In in H. destruct H as [_ H].
  now rewrite Nat.sub_0_r in H.
Qed.

(** Every candidate pairs a truth and a prediction of one page whose IoU
    reaches the threshold; its two indexes are in range. *)
Lemma collectCandidates_in_range truths predictions threshold c :
  In c (Evaluate.collectCandidates truths predictions threshold) ->
  exists t p,
    nth_error truths (Evaluate.truthIndex c) = Some t
    /\ nth_error predictions (Evaluate.predictionIndex c) = Some p
    /\ Instance.pageIndex t = Instance.pageIndex p
    /\ threshold <= Evaluate.iou c
    /\ Evaluate.iou c
       = Evaluate.computeIoU (FieldAnnotation.rect (Instance.field t))
                             (FieldPrediction.rect (Instance.field p)).
Proof.
  unfold Evaluate.collectCandidates. intros H.
  apply in_flat_map in H. destruct H as [[ti t] [Ht H]].
  apply in_flat_map in H. destruct H as [[pi p] [Hp H]].
  cbn [fst snd] in H.
  destruct (Instance.pageIndex t =? Instance.pageIndex p)%Z eqn:Epage;
    cbn [negb] in H; [|contradiction].
  destruct (Qgeb _ threshold) eqn:Eiou; [|contradiction].
  destruct H as [<-|[]]. cbn [Evaluate.truthIndex Evaluate.predictionIndex Evaluate.iou].
  exists t, p. repeat split.
  - now apply indexed_In.
  - now apply indexed_In.
  - now apply Z.eqb_eq.
  - now apply Qgeb_le.
Qed.

Lemma insertCandidate_In c d l :
  In d (Evaluate.insertCandidate c l) <-> d = c \/ In d l.
Proof.
  induction l as [|e l IH]; simpl.
  - split; intros [H|H]; auto; contradiction.
  - destruct (Qgtb (Evaluate.iou e) (Evaluate.iou c)); simpl.
    + rewrite IH. split; intros [H|[H|H]]; auto.
    + split; intros [H|[H|H]]; auto.
Qed.

Lemma sortCandidates_In d l : In d (Evaluate.sortCandidates l) <-> In d l.
Proof.
  induction l as [|c l IH]; simpl; [reflexivity|].
  rewrite insertCandidate_In, IH. split; intros [H|H]; auto.
Qed.

(** A candidate whose truth and prediction are both unclaimed is accepted:
    the last branch of [acceptCandidate] is not taken. *)
Lemma acceptCandidate_claims type truths predictions threshold st c :
  In c (Evaluate.sortCandidates
          (Evaluate.collectCandidates truths predictions threshold)) ->
  setHas (Evaluate.matchedTruth st) (Evaluate.truthIndex c) = false ->
  setHas (Evaluate.matchedPredictions st) (Evaluate.predictionIndex c) = false ->
  let st' := Evaluate.acceptCandidate type truths predictions st c in
  Evaluate.matchedTruth st' = Evaluate.matchedTruth st ++ [Evaluate.truthIndex c]
  /\ Evaluate.matchedPredictions st'
     = Evaluate.matchedPredictions st ++ [Evaluate.predictionIndex c]
  /\ length (Evaluate.matches st') = S (length (Evaluate.matches st)).
Proof.
  intros Hin Ht Hp. apply sortCandidates_In, collectCandidates_in_range in Hin.
  destruct Hin as [t [p [Et [Ep _]]]].
  unfold Evaluate.acceptCandidate. rewrite Ht, Hp, Et, Ep. cbn.
  repeat split. rewrite length_app. simpl. lia.
Qed.

(** *** The acceptance loop *)

Section GreedyMatch.

Variable type : FieldType.
Variable truths : list (Instance.t FieldAnnotation.t).
Variable predictions : list (Instance.t FieldPrediction.t).

Lemma acceptCandidate_accepted st c :
  accepted truths predictions st ->
  accepted truths predictions (Evaluate.acceptCandidate type truths predictions st c).
Proof.
  intros [Ht Hp Hft Hfp]. unfold Evaluate.acceptCandidate.
  destruct (setHas (Evaluate.matchedTruth st) (Evaluate.truthIndex c)) eqn:E1; simpl.
  { now constructor. }
  destruct (setHas (Evaluate.matchedPredictions st) (Evaluate.predictionIndex c)) eqn:E2;
    simpl.
  { now constructor. }
  destruct (nth_error truths (Evaluate.truthIndex c)) as [ti|] eqn:Et;
    [|now constructor].
  destruct (nth_error predictions (Evaluate.predictionIndex c)) as [pi|] eqn:Ep;
    [|now constructor].
  apply setHas_not_In in E1. apply setHas_not_In in E2.
  constructor; simpl.
  - now apply NoDup_snoc.
  - now apply NoDup_snoc.
  - apply Forall2_app; [exact Hft|]. constructor; [exact Et | constructor].
  - apply Forall2_app; [exact Hfp|]. constructor; [exact Ep | constructor].
Qed.

Lemma fold_accepted cs st :
  accepted truths predictions st ->
  accepted truths predictions
    (fold_left (Evaluate.acceptCandidate type truths predictions) cs st).
Proof.
  revert st. induction cs as [|c cs IH]; intros st H; simpl; [exact H|].
  apply IH. now apply acceptCandidate_accepted.
Qed.

Lemma acceptLoop_accepted threshold :
  accepted truths predictions (Evaluate.acceptLoop type truths predictions threshold).
Proof.
  unfold Evaluate.acceptLoop. apply fold_accepted.
  constructor; simpl; constructor.
Qed.

End GreedyMatch.

(** *** Counting what is left over *)

Lemma filter_indexed_length {A : Type} (f : nat -> bool) (l : list A) (idx : list nat) :
  length idx = length l ->
  length (filter (fun ix => f (fst ix)) (combine idx l)) = length (filter f idx).
Proof.
  revert l. induction idx as [|i idx IH]; intros [|a l] H; simpl in *;
    try lia; try reflexivity.
  destruct (f i); simpl; rewrite IH by lia; reflexivity.
Qed.

Lemma unmatched_length {A : Type} (l : list A) (s : list nat) :
  length (Evaluate.unmatched l s)
  = length (filter (fun i => negb (setHas s i)) (seq 0 (length l))).
Proof.
  unfold Evaluate.unmatched, Evaluate.indexed. rewrite length_map.
  apply (filter_indexed_length (fun i => negb (setHas s i))).
  apply length_seq.
Qed.

Lemma filter_split_length {A : Type} (f : A -> bool) (l : list A) :
  (length (filter f l) + length (filter (fun a => negb (f a)) l) = length l)%nat.
Proof.
  induction l as [|a l IH]; simpl; [reflexivity|].
  destruct (f a); simpl; lia.
Qed.

Lemma members_below_count (s : list nat) (n : nat) :
  NoDup s -> (forall i, In i s -> (i < n)%nat) ->
  (length s + length (filter (fun i => negb (setHas s i)) (seq 0 n)) = n)%nat.
Proof.
  intros Hs Hb.
  pose proof (filter_split_length (setHas s) (seq 0 n)) as Hsplit.
  rewrite length_seq in Hsplit.
  enough (length s = length (filter (setHas s) (seq 0 n))) by lia.
  apply Permutation_length. apply NoDup_Permutation.
  - exact Hs.
  - apply NoDup_filter, seq_NoDup.
  - intros i. rewrite filter_In, in_seq, setHas_In. split.
    + intros Hi. split; [|exact Hi]. specialize (Hb i Hi). lia.
    + tauto.
Qed.

Lemma Forall2_nth_error_bound {A B : Type} (l : list A) (ms : list B) (s : list nat)
    (proj : B -> A) :
  Forall2 (fun m i => nth_error l i = Some (proj m)) ms s ->
  forall i, In i s -> (i < length l)%nat.
Proof.
  induction 1 as [|m i ms s H _ IH]; intros j Hj; simpl in Hj; [contradiction|].
  destruct Hj as [<-|Hj]; [|now apply IH].
  apply nth_error_Some. congruence.
Qed.

Lemma greedyMatch_lengths type truths predictions threshold :
  let run := Evaluate.greedyMatch type truths predictions threshold in
  (length (Evaluate.runMatches run) + length (Evaluate.runFalseNegatives run)
   = length truths)%nat
  /\ (length (Evaluate.runMatches run) + length (Evaluate.runFalsePositives run)
      = length predictions)%nat.
Proof.
  intros run.
  destruct (acceptLoop_accepted type truths predictions threshold) as [Ht Hp Hft Hfp].
  unfold run, Evaluate.greedyMatch.
  cbn [Evaluate.runMatches Evaluate.runFalseNegatives Evaluate.runFalsePositives].
  rewrite !unmatched_length. split.
  - rewrite (Forall2_length Hft).
    apply members_below_count; [exact Ht|].
    exact (Forall2_nth_error_bound _ _ _ _ Hft).
  - rewrite (Forall2_length Hfp).
    apply members_below_count; [exact Hp|].
    exact (Forall2_nth_error_bound _ _ _ _ Hfp).
Qed.

(** C1.  For every field type, truth list, prediction list and threshold,
    [greedyMatch] claims no truth index and no prediction index twice, the
    k-th match holds the truth and the prediction claimed k-th (so no truth
    and no prediction is in two matches), and
    [matches.length + falseNegatives.length = truths.length],
    [matches.length + falsePositives.length = predictions.length]. *)
Theorem greedyMatch_invariants
    (type : FieldType)
    (truths : list (Instance.t FieldAnnotation.t))
    (predictions : list (Instance.t FieldPrediction.t))
    (threshold : Q) :
  let st := Evaluate.acceptLoop type truths predictions threshold in
  let run := Evaluate.greedyMatch type truths predictions threshold in
  NoDup (Evaluate.matchedTruth st)
  /\ NoDup (Evaluate.matchedPredictions st)
  /\ Forall2 (fun m i => nth_error truths i = Some (MatchRecord.truth m))
             (Evaluate.runMatches run) (Evaluate.matchedTruth st)
  /\ Forall2 (fun m i => nth_error predictions i = Some (MatchRecord.prediction m))
             (Evaluate.runMatches run) (Evaluate.matchedPredictions st)
  /\ (length (Evaluate.runMatches run) + length (Evaluate.runFalseNegatives run)
      = length truths)%nat
  /\ (length (Evaluate.runMatches run) + length (Evaluate.runFalsePositives run)
      = length predictions)%nat.
Proof.
  intros st run.
  destruct (acceptLoop_accepted type truths predictions threshold) as [Ht Hp Hft Hfp].
  destruct (greedyMatch_lengths type truths predictions threshold) as [Hn Hm].
  repeat split; assumption.
Qed.

(* ================================================================== *)
(** * The evaluator *)

Section EvaluatorFacts.

Import Evaluate.
Import JsNumber.

Lemma FieldType_beq_eq (a b : FieldType) : FieldType_beq a b = true <-> a = b.
Proof.
  split; [apply internal_FieldType_dec_bl | apply internal_FieldType_dec_lb].
Qed.

Lemma FieldType_beq_neq (a b : FieldType) : FieldType_beq a b = false <-> a <> b.
Proof.
  rewrite <- FieldType_beq_eq. destruct (FieldType_beq a b); split; congruence.
Qed.

(** ** The set of active types *)

Lemma setAdd_In (s : list FieldType) (t u : FieldType) :
  In u (setAdd s t) <-> In u s \/ u = t.
Proof.
  unfold setAdd. destruct (existsb (FieldType_beq t) s) eqn:E.
  - apply existsb_exists in E. destruct E as [v [Hv E]].
    apply FieldType_beq_eq in E. subst v. split; [tauto|].
    intros [H| ->]; assumption.
  - rewrite in_app_iff. simpl. split; intros [H|H]; auto.
    destruct H as [<-|[]]. now right.
Qed.

Lemma setAdd_NoDup (s : list FieldType) (t : FieldType) :
  NoDup s -> NoDup (setAdd s t).
Proof.
  intros Hs. unfold setAdd. destruct (existsb (FieldType_beq t) s) eqn:E; [exact Hs|].
  assert (Hn : ~ In t s).
  { intros Hin. assert (existsb (FieldType_beq t) s = true); [|congruence].
    apply existsb_exists. exists t. split; [exact Hin | now apply FieldType_beq_eq]. }
  apply NoDup_rev in Hs. rewrite <- (rev_involutive (s ++ [t])).
  apply NoDup_rev. rewrite rev_app_distr. simpl. constructor; [|exact Hs].
  now rewrite <- in_rev.
Qed.

Lemma fold_setAdd_In {A : Type} (key : A -> FieldType) (l : list A) (s : list FieldType) u :
  In u (fold_left (fun s i => setAdd s (key i)) l s)
  <-> In u s \/ exists a, In a l /\ key a = u.
Proof.
  revert s. induction l as [|a l IH]; intros s; simpl.
  - split; [tauto|]. intros [H|[a [[] _]]]. exact H.
  - rewrite IH, setAdd_In. split.
    + intros [[H| ->]|[b [Hb E]]]; eauto.
    + intros [H|[b [[->|Hb] E]]]; eauto.
Qed.

Lemma fold_setAdd_NoDup {A : Type} (key : A -> FieldType) (l : list A) (s : list FieldType) :
  NoDup s -> NoDup (fold_left (fun s i => setAdd s (key i)) l s).
Proof.
  revert s. induction l as [|a l IH]; intros s Hs; simpl; [exact Hs|].
  apply IH. now apply setAdd_NoDup.
Qed.

Lemma activeTypes_NoDup truths predictions : NoDup (activeTypesOf truths predictions).
Proof.
  unfold activeTypesOf. apply fold_setAdd_NoDup, fold_setAdd_NoDup. constructor.
Qed.

Lemma activeTypes_truth truths predictions i :
  In i truths -> In (truthType i) (activeTypesOf truths predictions).
Proof.
  intros Hi. unfold activeTypesOf. apply fold_setAdd_In. left.
  apply fold_setAdd_In. right. now exists i.
Qed.

Lemma activeTypes_prediction truths predictions i :
  In i predictions -> In (predictionType i) (activeTypesOf truths predictions).
Proof.
  intros Hi. unfold activeTypesOf. apply fold_setAdd_In. right. now exists i.
Qed.

(** ** Grouping a list by type *)

Lemma filter_none {A : Type} (f : A -> bool) (l : list A) :
  (forall a, In a l -> f a = false) -> filter f l = [].
Proof.
  induction l as [|a l IH]; intros H; simpl; [reflexivity|].
  rewrite (H a) by now left. apply IH. intros b Hb. apply H. now right.
Qed.

Lemma filter_partition_perm {T : Type} (keep : T -> bool) (xs : list T) :
  Permutation (filter keep xs ++ filter (fun x => negb (keep x)) xs) xs.
Proof.
  induction xs as [|x xs IHxs]; simpl; [constructor|].
  destruct (keep x); simpl.
  - now constructor.
  - apply Permutation_sym, Permutation_cons_app, Permutation_sym, IHxs.
Qed.

Lemma group_by_type_perm {A : Type} (key : A -> FieldType) (ts : list FieldType) :
  NoDup ts ->
  forall l : list A,
  (forall a, In a l -> In (key a) ts) ->
  Permutation (flat_map (fun t => filter (fun a => FieldType_beq (key a) t) l) ts) l.
Proof.
  induction 1 as [|t ts Hnot Hnd IH]; intros l Hin; simpl.
  - destruct l as [|a l]; [constructor|]. destruct (Hin a (or_introl eq_refl)).
  - eapply Permutation_trans;
      [|apply (filter_partition_perm (fun a => FieldType_beq (key a) t) l)].
    apply Permutation_app_head.
    set (l' := filter (fun a => negb (FieldType_beq (key a) t)) l).
    assert (Hl' : forall a, In a l' -> In (key a) ts).
    { intros a Ha. apply filter_In in Ha. destruct Ha as [Ha Hne].
      apply negb_true_iff, FieldType_beq_neq in Hne.
      destruct (Hin a Ha) as [E|H]; [congruence | exact H]. }
    assert (Heq : forall u, In u ts ->
              filter (fun a => FieldType_beq (key a) u) l
              = filter (fun a => FieldType_beq (key a) u) l').
    { intros u Hu. unfold l'. clear -Hu Hnot.
      induction l as [|a l IHl]; simpl; [reflexivity|].
      destruct (FieldType_beq (key a) u) eqn:E1.
      - apply FieldType_beq_eq in E1.
        assert (E2 : FieldType_beq (key a) t = false).
        { apply FieldType_beq_neq. intros E. rewrite E in E1. subst u. contradiction. }
        rewrite E2. simpl. rewrite (proj2 (FieldType_beq_eq _ _) E1).
        now rewrite IHl.
      - destruct (FieldType_beq (key a) t); simpl; [exact IHl|].
        now rewrite E1. }
    assert (Hfm : flat_map (fun t0 => filter (fun a => FieldType_beq (key a) t0) l) ts
                  = flat_map (fun t0 => filter (fun a => FieldType_beq (key a) t0) l') ts).
    { clear -Heq. induction ts as [|u ts IHts]; simpl; [reflexivity|].
      rewrite (Heq u) by now left.
      f_equal. apply IHts. intros v Hv. apply Heq. now right. }
    rewrite Hfm. apply IH. exact Hl'.
Qed.

(** ** The loop over the active types *)



Section EvalLoop.

Variable truths : list (Instance.t FieldAnnotation.t).
Variable predictions : list (Instance.t FieldPrediction.t).
Variable threshold : Q.

Local Abbreviation run := (typeRun truths predictions threshold).




Lemma fold_evalType_lists ts st :
  let st' := fold_left (evalType truths predictions threshold) ts st in
  perTypeMetrics st'
  = perTypeMetrics st ++ map (fun t => (t, calcMetrics (typeCounts (run t)))) ts
  /\ allMatches st' = allMatches st ++ flat_map (fun t => runMatches (run t)) ts
  /\ allFalsePositives st'
     = allFalsePositives st ++ flat_map (fun t => runFalsePositives (run t)) ts
  /\ allFalseNegatives st'
     = allFalseNegatives st ++ flat_map (fun t => runFalseNegatives (run t)) ts.
Proof.
  revert st. induction ts as [|t ts IH]; intros st; simpl.
  - now rewrite !app_nil_r.
  - destruct (IH (evalType truths predictions threshold st t)) as [H1 [H2 [H3 H4]]].
    rewrite H1, H2, H3, H4. unfold evalType; simpl.
    now rewrite <- !app_assoc.
Qed.

Lemma evalLoop_lists ts :
  let st := evalLoop truths predictions threshold ts in
  perTypeMetrics st = map (fun t => (t, calcMetrics (typeCounts (run t)))) ts
  /\ allMatches st = flat_map (fun t => runMatches (run t)) ts
  /\ allFalsePositives st = flat_map (fun t => runFalsePositives (run t)) ts
  /\ allFalseNegatives st = flat_map (fun t => runFalseNegatives (run t)) ts.
Proof.
  exact (fold_evalType_lists ts initialEvalState).
Qed.


End EvalLoop.


(** ** Metrics *)

Lemma inject_Z_eq0 (n : Z) : Qeq_bool (inject_Z n) 0 = true <-> n = 0%Z.
Proof.
  rewrite Qeq_bool_iff. unfold Qeq. simpl. lia.
Qed.

Lemma inject_Z_neq0 (n : Z) : n <> 0%Z -> Qeq_bool (inject_Z n) 0 = false.
Proof.
  intros H. destruct (Qeq_bool (inject_Z n) 0) eqn:E; [|reflexivity].
  apply inject_Z_eq0 in E. contradiction.
Qed.

Lemma rawPrecision_value (counts : TypeCounts.t) :
  rawPrecision counts
  = Fin (if (TypeCounts.tp counts + TypeCounts.fp counts =? 0)%Z then 0
         else inject_Z (TypeCounts.tp counts)
              / inject_Z (TypeCounts.tp counts + TypeCounts.fp counts)).
Proof.
  unfold rawPrecision.
  destruct (TypeCounts.tp counts + TypeCounts.fp counts =? 0)%Z eqn:E; [reflexivity|].
  apply Z.eqb_neq in E. unfold div, ofZ. now rewrite inject_Z_neq0.
Qed.

Lemma rawRecall_value (counts : TypeCounts.t) :
  rawRecall counts
  = Fin (if (TypeCounts.tp counts + TypeCounts.fn counts =? 0)%Z then 0
         else inject_Z (TypeCounts.tp counts)
              / inject_Z (TypeCounts.tp counts + TypeCounts.fn counts)).
Proof.
  unfold rawRecall.
  destruct (TypeCounts.tp counts + TypeCounts.fn counts =? 0)%Z eqn:E; [reflexivity|].
  apply Z.eqb_neq in E. unfold div, ofZ. now rewrite inject_Z_neq0.
Qed.

Lemma rawF1_value (counts : TypeCounts.t) :
  rawF1 counts
  = Fin (let p := clamp (rawPrecision counts) in
         let r := clamp (rawRecall counts) in
         if Qeq_bool (p + r) 0 then 0 else 2 * p * r / (p + r)).
Proof.
  unfold rawF1. rewrite rawPrecision_value, rawRecall_value. cbn [clamp add mul strictEq].
  cbv zeta.
  match goal with |- context [Qeq_bool ?d 0] => destruct (Qeq_bool d 0) eqn:E end.
  - reflexivity.
  - unfold div. now rewrite E.
Qed.

Lemma calcMetrics_guards (counts : TypeCounts.t) :
  isFinite (rawPrecision counts) = true
  /\ isFinite (rawRecall counts) = true
  /\ isFinite (rawF1 counts) = true
  /\ ((TypeCounts.tp counts + TypeCounts.fp counts = 0)%Z ->
      TypeMetrics.precision (calcMetrics counts) == 0)
  /\ ((TypeCounts.tp counts + TypeCounts.fn counts = 0)%Z ->
      TypeMetrics.recall (calcMetrics counts) == 0)
  /\ (TypeMetrics.precision (calcMetrics counts)
      + TypeMetrics.recall (calcMetrics counts) == 0 ->
      TypeMetrics.f1 (calcMetrics counts) == 0).
Proof.
  repeat split.
  - now rewrite rawPrecision_value.
  - now rewrite rawRecall_value.
  - now rewrite rawF1_value.
  - intros H. cbn [calcMetrics TypeMetrics.precision].
    rewrite rawPrecision_value. apply Z.eqb_eq in H. rewrite H. reflexivity.
  - intros H. cbn [calcMetrics TypeMetrics.recall].
    rewrite rawRecall_value. apply Z.eqb_eq in H. rewrite H. reflexivity.
  - cbn [calcMetrics TypeMetrics.precision TypeMetrics.recall TypeMetrics.f1].
    intros H. rewrite rawF1_value. cbn [clamp]. cbv zeta.
    apply Qeq_bool_iff in H. rewrite H. reflexivity.
Qed.

(** ** No ground truth *)

Lemma indexed_all {A : Type} (l : list A) (s : nat) :
  map snd (filter (fun ix : nat * A => negb (setHas [] (fst ix)))
                  (combine (seq s (length l)) l)) = l.
Proof.
  revert s. induction l as [|a l IH]; intros s; simpl; [reflexivity|].
  now rewrite IH.
Qed.

Lemma unmatched_nil {A : Type} (l : list A) : unmatched l [] = l.
Proof. apply indexed_all. Qed.

Lemma greedyMatch_no_truth type predictions threshold :
  greedyMatch type [] predictions threshold = mkMatchRun [] predictions [].
Proof.
  unfold greedyMatch, acceptLoop. simpl. now rewrite unmatched_nil.
Qed.

Lemma no_truth_metrics (n : Z) :
  let m := calcMetrics (TypeCounts.mk 0 n 0) in
  TypeMetrics.precision m == 0 /\ TypeMetrics.recall m == 0.
Proof.
  cbn [calcMetrics TypeMetrics.precision TypeMetrics.recall]. split.
  - rewrite rawPrecision_value. cbn [clamp TypeCounts.tp TypeCounts.fp].
    destruct (0 + n =? 0)%Z; [reflexivity|]. unfold Qdiv. apply Qmult_0_l.
  - rewrite rawRecall_value. reflexivity.
Qed.

Lemma no_truth_report
    (detections : DetectionOutput.t) (threshold : option Q) :
  let report := evaluateDetectorOutput None detections threshold in
  EvaluationReport.matches report = []
  /\ EvaluationReport.falseNegatives report = []
  /\ Permutation (EvaluationReport.falsePositives report)
                 (flattenPredictions detections)
  /\ (forall p, In p (flattenPredictions detections) ->
        exists m, In (predictionType p, m) (EvaluationReport.perType report))
  /\ (forall t m, In (t, m) (EvaluationReport.perType report) ->
        TypeMetrics.precision m == 0 /\ TypeMetrics.recall m == 0).
Proof.
  intros report.
  set (thr := match threshold with Some t => t | None => 1 # 2 end).
  set (P := flattenPredictions detections).
  destruct (evalLoop_lists [] P thr (activeTypesOf [] P)) as [Hper [Hm [Hfp Hfn]]].
  assert (Hrun : forall t, typeRun [] P thr t
                           = mkMatchRun [] (filter (fun i => FieldType_beq (predictionType i) t) P) []).
  { intros t. unfold typeRun. simpl. apply greedyMatch_no_truth. }
  unfold report, evaluateDetectorOutput.
  cbn [EvaluationReport.matches EvaluationReport.falseNegatives
       EvaluationReport.falsePositives EvaluationReport.perType flattenTruth].
  fold thr. fold P. rewrite Hper, Hm, Hfp, Hfn. clear Hper Hm Hfp Hfn.
  repeat split.
  - induction (activeTypesOf [] P) as [|t ts IH]; cbn [flat_map]; [reflexivity|].
    rewrite Hrun, IH. reflexivity.
  - induction (activeTypesOf [] P) as [|t ts IH]; cbn [flat_map]; [reflexivity|].
    rewrite Hrun, IH. reflexivity.
  - rewrite (flat_map_ext _
               (fun t => filter (fun i => FieldType_beq (predictionType i) t) P))
      by (intros t; now rewrite Hrun).
    apply group_by_type_perm.
    + apply activeTypes_NoDup.
    + intros a Ha. now apply activeTypes_prediction.
  - intros p Hp. eexists. apply in_map_iff. exists (predictionType p).
    split; [reflexivity|]. now apply activeTypes_prediction.
  - apply in_map_iff in H. destruct H as [u [E _]]. inversion E; subst.
    rewrite Hrun. apply no_truth_metrics.
  - apply in_map_iff in H. destruct H as [u [E _]]. inversion E; subst.
    rewrite Hrun. apply no_truth_metrics.
Qed.

(** C4.  For all counts the three values [calcMetrics] computes are finite
    before [clamp] is applied, precision is 0 when [tp + fp = 0], recall is
    0 when [tp + fn = 0] and F1 is 0 when precision plus recall is 0.
    Without a truth document every prediction instance is a false
    positive, nothing is matched or missed, and every type that has
    predictions gets precision 0 and recall 0. *)
Theorem metrics_never_nonfinite :
  (forall counts : TypeCounts.t,
     isFinite (rawPrecision counts) = true
     /\ isFinite (rawRecall counts) = true
     /\ isFinite (rawF1 counts) = true
     /\ ((TypeCounts.tp counts + TypeCounts.fp counts = 0)%Z ->
         TypeMetrics.precision (calcMetrics counts) == 0)
     /\ ((TypeCounts.tp counts + TypeCounts.fn counts = 0)%Z ->
         TypeMetrics.recall (calcMetrics counts) == 0)
     /\ (TypeMetrics.precision (calcMetrics counts)
         + TypeMetrics.recall (calcMetrics counts) == 0 ->
         TypeMetrics.f1 (calcMetrics counts) == 0))
  /\ (forall (detections : DetectionOutput.t) (threshold : option Q),
        let report := evaluateDetectorOutput None detections threshold in
        EvaluationReport.matches report = []
        /\ EvaluationReport.falseNegatives report = []
        /\ Permutation (EvaluationReport.falsePositives report)
                       (flattenPredictions detections)
        /\ (forall p, In p (flattenPredictions detections) ->
              exists m, In (predictionType p, m) (EvaluationReport.perType report))
        /\ (forall t m, In (t, m) (EvaluationReport.perType report) ->
              TypeMetrics.precision m == 0 /\ TypeMetrics.recall m == 0)).
Proof.
  split; [exact calcMetrics_guards | exact no_truth_report].
Qed.

Lemma metrics_never_nonfinite_witness :
  TypeMetrics.precision (calcMetrics (TypeCounts.mk 0 0 3)) == 0
  /\ TypeMetrics.recall (calcMetrics (TypeCounts.mk 0 2 0)) == 0
  /\ TypeMetrics.f1 (calcMetrics (TypeCounts.mk 0 2 3)) == 0
  /\ exists m,
       In (FText, m)
          (EvaluationReport.perType (evaluateDetectorOutput None smokeDetections None)).
Proof.
  destruct metrics_never_nonfinite as [Hguards Hnone].
  split; [|split; [|split]].
  - apply (Hguards (TypeCounts.mk 0 0 3)). reflexivity.
  - apply (Hguards (TypeCounts.mk 0 2 0)). reflexivity.
  - apply (Hguards (TypeCounts.mk 0 2 3)). reflexivity.
  - destruct (Hnone smokeDetections None) as [_ [_ [_ [Hper _]]]].
    apply (Hper (Instance.mk 0%Z smokeNearPrediction)). left. reflexivity.
Defined.

(** ** The report *)









(** C2.  On the ground truth and the detections of the smoke test, at
    threshold 0.5: the one match pairs the text truth with the first text
    prediction (IoU 261/358, about 0.73), the checkbox truth is the one
    false negative, the second text prediction is the one false positive,
    and micro precision, recall and F1 are all 0.5. *)
Theorem smoke_report :
  let report :=
    evaluateDetectorOutput (Some smokeAnnotations) smokeDetections (Some (1 # 2)) in
  map MatchRecord.truth (EvaluationReport.matches report)
    = [Instance.mk 0%Z smokeTextTruth]
  /\ map MatchRecord.prediction (EvaluationReport.matches report)
     = [Instance.mk 0%Z smokeNearPrediction]
  /\ Forall (fun m => MatchRecord.iou m == 261 # 358) (EvaluationReport.matches report)
  /\ EvaluationReport.falseNegatives report = [Instance.mk 0%Z smokeCheckboxTruth]
  /\ EvaluationReport.falsePositives report = [Instance.mk 0%Z smokeFarPrediction]
  /\ AggregateMetrics.precision (EvaluationReport.micro report) == 1 # 2
  /\ AggregateMetrics.recall (EvaluationReport.micro report) == 1 # 2
  /\ AggregateMetrics.f1 (EvaluationReport.micro report) == 1 # 2.
Proof.
  cbv zeta. repeat split; try (vm_compute; reflexivity).
  vm_compute. constructor; [reflexivity | constructor].
Qed.

End EvaluatorFacts.

(* ================================================================== *)
(** * The detectors *)

(** ** The text-overlap filters *)

Lemma legacy_ratio_spec (d t : Rect.t) :
  PdfFieldDetection.calculateRectangleOverlapRatio d t == overlapRatio d t.
Proof.
  unfold PdfFieldDetection.calculateRectangleOverlapRatio, overlapRatio,
    intersectionArea, rectArea.
  pose proof (Q.le_max_l (Rect.x d) (Rect.x t)).
  pose proof (Q.le_max_l (Rect.y d) (Rect.y t)).
  pose proof (Q.le_min_l (Rect.x d + Rect.width d) (Rect.x t + Rect.width t)).
  pose proof (Q.le_min_l (Rect.y d + Rect.height d) (Rect.y t + Rect.height t)).
  revert H H0 H1 H2.
  generalize (Qmax (Rect.x d) (Rect.x t)) (Qmax (Rect.y d) (Rect.y t))
             (Qmin (Rect.x d + Rect.width d) (Rect.x t + Rect.width t))
             (Qmin (Rect.y d + Rect.height d) (Rect.y t + Rect.height t)).
  intros x1 y1 x2 y2 Hx1 Hy1 Hx2 Hy2. cbv zeta.
  destruct (Qle_bool x2 x1 || Qle_bool y2 y1)%bool eqn:E; qbool.
  - rewrite (Qmax0_nonpos (x2 - x1)) by lra. unfold Qdiv. ring.
  - rewrite (Qmax0_nonpos (y2 - y1)) by lra. unfold Qdiv. ring.
  - rewrite (Qmax0_pos (x2 - x1)), (Qmax0_pos (y2 - y1)) by lra.
    assert (0 < Rect.width d * Rect.height d) by nra.
    destruct (Qgtb _ 0) eqn:E2; [reflexivity|].
    apply Qgtb_le in E2. lra.
Qed.

Lemma legacy_contained_spec (d t : Rect.t) :
  PdfFieldDetection.isRectangleContainedWithin d t = true <-> containedIn d t.
Proof.
  unfold PdfFieldDetection.isRectangleContainedWithin, containedIn.
  rewrite !andb_true_iff, !Qgeb_le, !Qle_bool_iff. tauto.
Qed.

Lemma legacy_keepElement_spec (rect : Rect.t) (texts : list TextBox.t) :
  PdfFieldDetection.keepElement rect texts = true <-> ~ droppedByText rect texts.
Proof.
  induction texts as [|t texts IH]; simpl.
  - split; [|reflexivity]. intros _ [t [[] _]].
  - assert (Hdrop : droppedByText rect (t :: texts)
                    <-> ((4 # 10 < overlapRatio rect (TextBox.rect t)
                          /\ containedIn rect (TextBox.rect t))
                         \/ 7 # 10 < overlapRatio rect (TextBox.rect t))
                        \/ droppedByText rect texts).
    { unfold droppedByText. split.
      - intros [u [[<-|Hu] H]]; [now left | right; now exists u].
      - intros [H|[u [Hu H]]]; [exists t | exists u]; simpl; auto. }
    rewrite Hdrop. clear Hdrop.
    pose proof (legacy_ratio_spec rect (TextBox.rect t)) as Hr.
    pose proof (legacy_contained_spec rect (TextBox.rect t)) as Hc.
    destruct (Qgtb _ (4 # 10)) eqn:E1.
    + apply Qgtb_lt in E1.
      destruct (PdfFieldDetection.isRectangleContainedWithin _ _) eqn:E2.
      * split; [discriminate|]. intros H. exfalso. apply H. left. left.
        split; [lra | now apply Hc].
      * assert (Hnc : ~ containedIn rect (TextBox.rect t)).
        { intros H. apply Hc in H. discriminate. }
        destruct (Qgtb _ (7 # 10)) eqn:E3.
        -- apply Qgtb_lt in E3. split; [discriminate|].
           intros H. exfalso. apply H. left. right. lra.
        -- apply Qgtb_le in E3. rewrite IH. split.
           ++ intros H [[[_ Hcon]|H7]|Hd]; [contradiction | lra | contradiction].
           ++ intros H Hd. apply H. now right.
    + apply Qgtb_le in E1. rewrite IH. split.
      * intros H [[[H4 _]|H7]|Hd]; [lra | lra | contradiction].
      * intros H Hd. apply H. now right.
Qed.

Lemma legacy_filter_follows_rule :
  followsTextOverlapRule PdfFieldDetection.filterTextOverlaps.
Proof.
  intros elements texts e. unfold PdfFieldDetection.filterTextOverlaps.
  rewrite filter_In, legacy_keepElement_spec. reflexivity.
Qed.

Lemma raster_ratio_is_IoU (a b : Rect.t) :
  RasterHeuristics.calculateOverlapRatio a b = Evaluate.computeIoU a b.
Proof.
  unfold RasterHeuristics.calculateOverlapRatio, Evaluate.computeIoU, Qgtb, Qltb.
  cbv zeta. destruct (_ || _)%bool; [reflexivity|].
  destruct (Qle_bool _ 0); reflexivity.
Qed.

Lemma raster_keepElement_spec (rect : Rect.t) (texts : list TextBox.t) :
  RasterHeuristics.keepElement rect texts = true
  <-> forall t, In t texts -> Evaluate.computeIoU rect (TextBox.rect t) <= 3 # 10.
Proof.
  induction texts as [|t texts IH]; simpl.
  - split; [intros _ t []| reflexivity].
  - rewrite raster_ratio_is_IoU.
    destruct (Qgtb _ (3 # 10)) eqn:E.
    + apply Qgtb_lt in E. split; [discriminate|].
      intros H. specialize (H t (or_introl eq_refl)). lra.
    + apply Qgtb_le in E. rewrite IH. split.
      * intros H u [<-|Hu]; [exact E | now apply H].
      * intros H u Hu. apply H. now right.
Qed.

(** C5, as amended.  The text-overlap filter of the earlier detector
    library follows the rule of the specification: with overlap ratio =
    intersection area / detection area, it drops a detection exactly when
    some text box overlaps it by more than 0.4 and contains it, or by more
    than 0.7, and keeps every other detection.  The filter of
    [rasterHeuristics] keeps a detection exactly when its intersection over
    union with every text box is at most 0.3. *)
Theorem text_overlap_filters :
  followsTextOverlapRule PdfFieldDetection.filterTextOverlaps
  /\ (forall elements textElements e,
        In e (RasterHeuristics.filterTextOverlaps elements textElements)
        <-> In e elements
            /\ forall t, In t textElements ->
                 Evaluate.computeIoU (DetectedElement.rect e) (TextBox.rect t) <= 3 # 10).
Proof.
  split; [exact legacy_filter_follows_rule|].
  intros elements texts e. unfold RasterHeuristics.filterTextOverlaps.
  rewrite filter_In, raster_keepElement_spec. reflexivity.
Qed.

(** The filter of [rasterHeuristics] keeps a detection that lies inside a
    text box, where the rule drops it (overlap ratio 1). *)
Lemma raster_filter_breaks_rule :
  ~ followsTextOverlapRule RasterHeuristics.filterTextOverlaps.
Proof.
  intros H. destruct (H [glyphBox] [paragraph] glyphBox) as [Hkeep _].
  assert (Hin : In glyphBox (RasterHeuristics.filterTextOverlaps [glyphBox] [paragraph])).
  { vm_compute. now left. }
  destruct (Hkeep Hin) as [_ Hnot]. apply Hnot.
  exists paragraph. split; [now left|]. right.
  unfold Qlt. vm_compute. reflexivity.
Qed.

Lemma text_overlap_filters_witness :
  In glyphBox (RasterHeuristics.filterTextOverlaps [glyphBox] [paragraph])
  /\ ~ In glyphBox (PdfFieldDetection.filterTextOverlaps [glyphBox] [paragraph]).
Proof.
  destruct text_overlap_filters as [Hlegacy Hraster]. split.
  - apply Hraster. split; [now left|].
    intros t [<-|[]]. vm_compute. discriminate.
  - intros Hin. apply Hlegacy in Hin. destruct Hin as [_ Hkept]. apply Hkept.
    exists paragraph. split; [now left|]. right. vm_compute. reflexivity.
Defined.

Section PixelFacts.

Import JsNumber.

(** ** Reading pixels *)

Lemma readElement_inside (data : list Z) (i : Z) :
  (0 <= i < Z.of_nat (length data))%Z -> exists v, readElement data i = Some v.
Proof.
  intros [Hlo Hhi]. unfold readElement.
  replace (i <? 0)%Z with false by (symmetry; apply Z.ltb_ge; lia).
  destruct (nth_error data (Z.to_nat i)) as [v|] eqn:E; [now exists v|].
  apply nth_error_None in E. lia.
Qed.

Lemma readElement_outside (data : list Z) (i : Z) :
  (i < 0 \/ Z.of_nat (length data) <= i)%Z -> readElement data i = None.
Proof.
  intros H. unfold readElement. destruct (i <? 0)%Z eqn:E; [reflexivity|].
  apply Z.ltb_ge in E. apply nth_error_None. lia.
Qed.

Lemma readNumber_inject_Z (data : list Z) (i : Z) :
  readNumber data (inject_Z i) = readElement data i.
Proof.
  unfold readNumber. rewrite Qfloor_Z.
  now rewrite (proj2 (Qeq_bool_iff _ _) (Qeq_refl (inject_Z i))).
Qed.

Lemma readNumber_ext (data : list Z) (p q : Q) :
  p == q -> readNumber data p = readNumber data q.
Proof.
  intros E. unfold readNumber.
  assert (Ef : Qfloor p = Qfloor q) by now rewrite E.
  rewrite Ef.
  destruct (Qeq_bool (inject_Z (Qfloor q)) p) eqn:Ep,
           (Qeq_bool (inject_Z (Qfloor q)) q) eqn:Eq; try reflexivity.
  - apply Qeq_bool_iff in Ep. apply Qeq_bool_neq in Eq.
    exfalso. apply Eq. now rewrite Ep.
  - apply Qeq_bool_iff in Eq. apply Qeq_bool_neq in Ep.
    exfalso. apply Ep. now rewrite Eq.
Qed.

(** The byte index at whole coordinates is the whole number
    [(y * width + x) * 4]. *)
Lemma index_inject_Z (x y width k : Z) :
  (inject_Z y * inject_Z width + inject_Z x) * 4 + inject_Z k
  == inject_Z ((y * width + x) * 4 + k).
Proof.
  rewrite !inject_Z_plus, !inject_Z_mult, !inject_Z_plus, !inject_Z_mult.
  reflexivity.
Qed.

Lemma readNumber_index (data : list Z) (x y width k : Z) :
  readNumber data ((inject_Z y * inject_Z width + inject_Z x) * 4 + inject_Z k)
  = readElement data ((y * width + x) * 4 + k).
Proof.
  rewrite (readNumber_ext data _ _ (index_inject_Z x y width k)).
  apply readNumber_inject_Z.
Qed.

Lemma readNumber_index0 (data : list Z) (x y width : Z) :
  readNumber data ((inject_Z y * inject_Z width + inject_Z x) * 4)
  = readElement data ((y * width + x) * 4).
Proof.
  rewrite <- (Z.add_0_r ((y * width + x) * 4)).
  rewrite <- (readNumber_index data x y width 0).
  apply readNumber_ext. change (inject_Z 0) with 0. ring.
Qed.

(** The earlier library's read either returns 255 at one of its two tests
    or goes on to read three bytes. *)
Lemma legacy_cases (data : list Z) (x y width : Q) :
  PdfFieldDetection.getPixelBrightness data x y width = Fin 255
  \/ (0 <= x /\ 0 <= y /\ x < width
      /\ (y * width + x) * 4 < inject_Z (Z.of_nat (length data)) - 2
      /\ PdfFieldDetection.getPixelBrightness data x y width
         = div (add (add (ofElement (readNumber data ((y * width + x) * 4)))
                         (ofElement (readNumber data ((y * width + x) * 4 + 1))))
                    (ofElement (readNumber data ((y * width + x) * 4 + 2))))
               (Fin 3)).
Proof.
  unfold PdfFieldDetection.getPixelBrightness.
  destruct (Qltb x 0 || Qltb y 0 || Qgeb x width) eqn:E; [now left|].
  apply orb_false_iff in E. destruct E as [E Ew].
  apply orb_false_iff in E. destruct E as [Ex Ey].
  unfold Qltb in Ex, Ey. apply negb_false_iff in Ex, Ey.
  apply Qle_bool_iff in Ex, Ey. unfold Qgeb in Ew. apply Qle_bool_false in Ew.
  cbv zeta.
  destruct (Qgeb _ _) eqn:Ei; [now left|].
  unfold Qgeb in Ei. apply Qle_bool_false in Ei. right. auto 6.
Qed.

Lemma legacy_white_guards (data : list Z) (x y width : Q) :
  x < 0 \/ y < 0 \/ width <= x ->
  PdfFieldDetection.getPixelBrightness data x y width = Fin 255.
Proof.
  intros H.
  destruct (legacy_cases data x y width) as [E|[Hx [Hy [Hw _]]]]; [exact E|].
  exfalso. destruct H as [H|[H|H]]; lra.
Qed.

Lemma legacy_white_off_image (data : list Z) (width height : Z) (x y : Q) :
  (0 < width)%Z ->
  Z.of_nat (length data) = (width * height * 4)%Z ->
  outsideImage width height x y ->
  PdfFieldDetection.getPixelBrightness data x y (inject_Z width) = Fin 255.
Proof.
  intros Hpos Hlen Hout.
  destruct (legacy_cases data x y (inject_Z width))
    as [E|[Hx [Hy [Hw [Hi _]]]]]; [exact E|].
  rewrite Hlen, !inject_Z_mult in Hi. change (inject_Z 4) with 4 in Hi.
  assert (Hwq : 0 < inject_Z width)
    by (change 0 with (inject_Z 0); rewrite <- Zlt_Qlt; exact Hpos).
  exfalso. destruct Hout as [H|[H|[H|H]]]; try lra.
  assert (inject_Z height * inject_Z width <= y * inject_Z width)
    by (apply Qmult_le_compat_r; lra).
  lra.
Qed.

Lemma legacy_white_past_buffer (data : list Z) (x y width : Z) :
  (Z.of_nat (length data) - 2 <= (y * width + x) * 4)%Z ->
  PdfFieldDetection.getPixelBrightness data
    (inject_Z x) (inject_Z y) (inject_Z width) = Fin 255.
Proof.
  intros H.
  destruct (legacy_cases data (inject_Z x) (inject_Z y) (inject_Z width))
    as [E|[_ [_ [_ [Hi _]]]]]; [exact E|].
  exfalso. rewrite Zle_Qle in H.
  rewrite <- Z.add_opp_r in H.
  rewrite inject_Z_plus, inject_Z_mult, inject_Z_plus, inject_Z_mult in H.
  change (inject_Z 4) with 4 in H. change (inject_Z (- (2))) with (- (2)) in H.
  lra.
Qed.

Lemma legacy_brightness_finite (data : list Z) (x y width : Z) :
  isFinite (PdfFieldDetection.getPixelBrightness data
              (inject_Z x) (inject_Z y) (inject_Z width)) = true.
Proof.
  destruct (legacy_cases data (inject_Z x) (inject_Z y) (inject_Z width))
    as [E|[Hx [Hy [Hw [Hi E]]]]]; [now rewrite E|].
  rewrite E. clear E.
  change 0 with (inject_Z 0) in Hx, Hy.
  rewrite <- Zle_Qle in Hx, Hy. rewrite <- Zlt_Qlt in Hw.
  assert (Hi' : ((y * width + x) * 4 < Z.of_nat (length data) - 2)%Z).
  { rewrite Zlt_Qlt.
    rewrite <- Z.add_opp_r.
    rewrite inject_Z_plus, inject_Z_mult, inject_Z_plus, inject_Z_mult.
    change (inject_Z 4) with 4. change (inject_Z (- (2))) with (- (2)). lra. }
  assert (0 <= (y * width + x) * 4)%Z by nia.
  change 1 with (inject_Z 1). change 2 with (inject_Z 2).
  rewrite readNumber_index0, !readNumber_index.
  destruct (readElement_inside data ((y * width + x) * 4)) as [r ->]; [lia|].
  destruct (readElement_inside data ((y * width + x) * 4 + 1)) as [g ->]; [lia|].
  destruct (readElement_inside data ((y * width + x) * 4 + 2)) as [b ->]; [lia|].
  reflexivity.
Qed.

Lemma add_NaN_r (a : number) : add a NaN = NaN.
Proof. destruct a; reflexivity. Qed.

Lemma mul_NaN_r (a : number) : mul a NaN = NaN.
Proof. destruct a; reflexivity. Qed.

Lemma raster_NaN_past_buffer (data : list Z) (x y width : Z) :
  ((y * width + x) * 4 < 0
   \/ Z.of_nat (length data) <= (y * width + x) * 4 + 2)%Z ->
  RasterPasses.getPixelBrightness data
    (inject_Z x) (inject_Z y) (inject_Z width) = NaN.
Proof.
  intros H. unfold RasterPasses.getPixelBrightness. cbv zeta.
  change 1 with (inject_Z 1). change 2 with (inject_Z 2).
  rewrite readNumber_index0, !readNumber_index.
  destruct H as [H|H].
  - rewrite (readElement_outside data ((y * width + x) * 4)) by lia.
    cbn [ofElement]. rewrite mul_NaN_r. reflexivity.
  - rewrite (readElement_outside data ((y * width + x) * 4 + 2)) by lia.
    cbn [ofElement]. rewrite mul_NaN_r. apply add_NaN_r.
Qed.

Lemma raster_finite_inside_buffer (data : list Z) (x y width : Z) :
  (0 <= (y * width + x) * 4)%Z ->
  ((y * width + x) * 4 + 2 < Z.of_nat (length data))%Z ->
  isFinite (RasterPasses.getPixelBrightness data
              (inject_Z x) (inject_Z y) (inject_Z width)) = true.
Proof.
  intros Hlo Hhi. unfold RasterPasses.getPixelBrightness. cbv zeta.
  change 1 with (inject_Z 1). change 2 with (inject_Z 2).
  rewrite readNumber_index0, !readNumber_index.
  destruct (readElement_inside data ((y * width + x) * 4)) as [r ->]; [lia|].
  destruct (readElement_inside data ((y * width + x) * 4 + 1)) as [g ->]; [lia|].
  destruct (readElement_inside data ((y * width + x) * 4 + 2)) as [b ->]; [lia|].
  reflexivity.
Qed.

(** C6, as amended.  In the earlier detector library [getPixelBrightness]
    returns 255 when [x < 0], [y < 0] or [x >= width], and, at whole
    coordinates, when the byte index [(y * width + x) * 4] is at least
    [data.length - 2]; that is every coordinate off the image when the
    buffer holds exactly [width * height * 4] bytes; and at whole
    coordinates and width its result is always a finite number.  In
    [rasterHeuristics] [getPixelBrightness] has no bounds check: at whole
    coordinates, when one of the three bytes it reads lies outside the
    buffer the result is NaN, and when the three lie inside it is a finite
    number. *)
Theorem brightness_off_image :
  (forall data (x y width : Q),
     x < 0 \/ y < 0 \/ width <= x ->
     PdfFieldDetection.getPixelBrightness data x y width = Fin 255)
  /\ (forall data (x y width : Z),
        (Z.of_nat (length data) - 2 <= (y * width + x) * 4)%Z ->
        PdfFieldDetection.getPixelBrightness data
          (inject_Z x) (inject_Z y) (inject_Z width) = Fin 255)
  /\ (forall data (width height : Z) (x y : Q),
        (0 < width)%Z ->
        Z.of_nat (length data) = (width * height * 4)%Z ->
        outsideImage width height x y ->
        PdfFieldDetection.getPixelBrightness data x y (inject_Z width) = Fin 255)
  /\ (forall data (x y width : Z),
        isFinite (PdfFieldDetection.getPixelBrightness data
                    (inject_Z x) (inject_Z y) (inject_Z width)) = true)
  /\ (forall data (x y width : Z),
        ((y * width + x) * 4 < 0
         \/ Z.of_nat (length data) <= (y * width + x) * 4 + 2)%Z ->
        RasterPasses.getPixelBrightness data
          (inject_Z x) (inject_Z y) (inject_Z width) = NaN)
  /\ (forall data (x y width : Z),
        (0 <= (y * width + x) * 4)%Z ->
        ((y * width + x) * 4 + 2 < Z.of_nat (length data))%Z ->
        isFinite (RasterPasses.getPixelBrightness data
                    (inject_Z x) (inject_Z y) (inject_Z width)) = true).
Proof.
  split; [exact legacy_white_guards|].
  split; [exact legacy_white_past_buffer|].
  split; [exact legacy_white_off_image|].
  split; [exact legacy_brightness_finite|].
  split; [exact raster_NaN_past_buffer | exact raster_finite_inside_buffer].
Qed.

Lemma brightness_off_image_witness :
  PdfFieldDetection.getPixelBrightness blackPixel 1 0 1 = Fin 255
  /\ PdfFieldDetection.getPixelBrightness twoBlackPixels 0 2 1 = Fin 255
  /\ RasterPasses.getPixelBrightness blackPixel 1 0 1 = NaN.
Proof.
  destruct brightness_off_image as [_ [Hpast [Hlegacy [_ [Hraster _]]]]].
  split; [|split].
  - apply (Hlegacy blackPixel 1%Z 1%Z 1 0); [lia | reflexivity|].
    unfold outsideImage. right. left. apply Qle_refl.
  - apply (Hpast twoBlackPixels 0%Z 2%Z 1%Z). simpl. lia.
  - apply (Hraster blackPixel 1%Z 0%Z 1%Z). simpl. lia.
Defined.

(** Neither read is white at every coordinate off the image for every
    buffer of at least [width * height * 4] bytes: [rasterHeuristics]
    gives NaN right of a one-pixel image, and the earlier library reads
    the bytes that follow the image when the buffer is longer.  Nor is the
    result of the earlier library always a number: at a row that is not
    whole (row 9/8, off a one-pixel image whose buffer holds eight bytes,
    and row 1/8 of an image of one column and two rows) the index is not
    whole and the result is NaN. *)
Lemma brightness_not_white_off_image :
  ~ whiteOutsideImage RasterPasses.getPixelBrightness
  /\ ~ whiteOutsideImage PdfFieldDetection.getPixelBrightness
  /\ (outsideImage 1 1 0 (9 # 8)
      /\ PdfFieldDetection.getPixelBrightness twoBlackPixels 0 (9 # 8) 1 = NaN)
  /\ PdfFieldDetection.getPixelBrightness twoBlackPixels 0 (1 # 8) 1 = NaN.
Proof.
  split; [|split; [|split; [split|]]].
  - intros H. specialize (H blackPixel 1%Z 1%Z 1 0).
    assert (E : RasterPasses.getPixelBrightness blackPixel 1 0 (inject_Z 1) = Fin 255).
    { apply H; try lia; [simpl; lia|].
      unfold outsideImage. right. left. apply Qle_refl. }
    vm_compute in E. discriminate.
  - intros H. specialize (H twoBlackPixels 1%Z 1%Z 0 1).
    assert (E : PdfFieldDetection.getPixelBrightness twoBlackPixels 0 1 (inject_Z 1)
                = Fin 255).
    { apply H; try lia; [simpl; lia|].
      unfold outsideImage. right. right. right. apply Qle_refl. }
    vm_compute in E. discriminate.
  - unfold outsideImage. right. right. right. vm_compute. discriminate.
  - vm_compute. reflexivity.
  - vm_compute. reflexivity.
Qed.

End PixelFacts.

(** ** [maxFieldHeight] across calls *)

Lemma raster_second_call passes options imageData pageWidth pageHeight textElements :
  let first :=
    RasterHeuristics.detectFields passes options imageData pageWidth pageHeight textElements in
  fst first
  = DetectionOptions.setMaxFieldHeight options
      (Qmin (DetectionOptions.maxFieldHeight options) (pageHeight * (1 # 2)))
  /\ RasterHeuristics.detectFields passes (fst first) imageData pageWidth pageHeight
       textElements = first.
Proof.
  split; [reflexivity|].
  unfold RasterHeuristics.detectFields.
  cbn [fst DetectionOptions.setMaxFieldHeight DetectionOptions.maxFieldHeight
       DetectionOptions.minTextFieldHeight DetectionOptions.minCheckboxSize
       DetectionOptions.maxCheckboxSize DetectionOptions.minRadioSize
       DetectionOptions.maxRadioSize DetectionOptions.mergeThreshold
       DetectionOptions.confidenceThreshold].
  rewrite Qmin_again. reflexivity.
Qed.

Lemma legacy_second_call passes options imageData pageWidth pageHeight textElements :
  let first :=
    PdfFieldDetection.detectFields passes options imageData pageWidth pageHeight textElements in
  fst first
  = DetectionOptions.setMaxFieldHeight options
      (Qmin (DetectionOptions.maxFieldHeight options) (pageHeight * (1 # 2)))
  /\ PdfFieldDetection.detectFields passes (fst first) imageData pageWidth pageHeight
       textElements = first.
Proof.
  split; [reflexivity|].
  unfold PdfFieldDetection.detectFields.
  cbn [fst DetectionOptions.setMaxFieldHeight DetectionOptions.maxFieldHeight
       DetectionOptions.minTextFieldHeight DetectionOptions.minCheckboxSize
       DetectionOptions.maxCheckboxSize DetectionOptions.minRadioSize
       DetectionOptions.maxRadioSize DetectionOptions.mergeThreshold
       DetectionOptions.confidenceThreshold].
  rewrite Qmin_again. reflexivity.
Qed.

(** C7, as amended.  In both detectors a call of [detectFields] stores
    [min(maxFieldHeight, 0.5 * pageHeight)] as the detector's
    [maxFieldHeight] and leaves the seven other options as they were; a
    second call with the same inputs leaves the options as the first call
    left them and returns the same elements. *)
Theorem detectFields_lowers_maxFieldHeight :
  (forall passes options imageData pageWidth pageHeight textElements,
     let first :=
       RasterHeuristics.detectFields passes options imageData pageWidth pageHeight
         textElements in
     fst first
     = DetectionOptions.setMaxFieldHeight options
         (Qmin (DetectionOptions.maxFieldHeight options) (pageHeight * (1 # 2)))
     /\ RasterHeuristics.detectFields passes (fst first) imageData pageWidth pageHeight
          textElements = first)
  /\ (forall passes options imageData pageWidth pageHeight textElements,
        let first :=
          PdfFieldDetection.detectFields passes options imageData pageWidth pageHeight
            textElements in
        fst first
        = DetectionOptions.setMaxFieldHeight options
            (Qmin (DetectionOptions.maxFieldHeight options) (pageHeight * (1 # 2)))
        /\ PdfFieldDetection.detectFields passes (fst first) imageData pageWidth
             pageHeight textElements = first).
Proof.
  split; intros; [apply raster_second_call | apply legacy_second_call].
Qed.

(** A call on a page 100 high lowers the stored [maxFieldHeight] from 200 to
    50, and a later call on a page 1000 high still works with 50, not with
    [min(200, 500)]. *)
Lemma detectFields_changes_options :
  let afterSmallPage :=
    fst (RasterHeuristics.detectFields fixedRasterPasses DetectionOptions.defaults
           blankImage 100 100 None) in
  let afterLargePage :=
    fst (RasterHeuristics.detectFields fixedRasterPasses afterSmallPage
           blankImage 1000 1000 None) in
  DetectionOptions.maxFieldHeight DetectionOptions.defaults == 200
  /\ DetectionOptions.maxFieldHeight afterSmallPage == 50
  /\ afterSmallPage <> DetectionOptions.defaults
  /\ DetectionOptions.maxFieldHeight afterLargePage == 50
  /\ ~ DetectionOptions.maxFieldHeight afterLargePage
       == Qmin (DetectionOptions.maxFieldHeight DetectionOptions.defaults)
               (1000 * (1 # 2)).
Proof.
  cbv zeta. repeat split; try (vm_compute; reflexivity).
  - intros H. apply (f_equal DetectionOptions.maxFieldHeight) in H.
    vm_compute in H. discriminate.
  - vm_compute. discriminate.
Qed.

(** ** Merging *)

Lemma rectEq_refl (r : Rect.t) : rectEq r r.
Proof. repeat split; reflexivity. Qed.

Lemma raster_merge_accepted_pair (options : DetectionOptions.t)
    (first second : DetectedElement.t) :
  RasterHeuristics.shouldMerge options first second = true ->
  mergedAsOne (9 # 10) (RasterHeuristics.mergeAdjacentFields options) first second.
Proof.
  intros H. unfold mergedAsOne, RasterHeuristics.mergeAdjacentFields.
  simpl. rewrite H. simpl. eexists. split; [reflexivity|]. simpl.
  split; [reflexivity|]. split; [apply rectEq_refl | reflexivity].
Qed.

Lemma raster_merge_rejected_pair (options : DetectionOptions.t)
    (first second : DetectedElement.t) :
  RasterHeuristics.shouldMerge options first second = false ->
  RasterHeuristics.mergeAdjacentFields options [first; second] = [first; second].
Proof.
  intros H. unfold RasterHeuristics.mergeAdjacentFields. simpl. rewrite H. reflexivity.
Qed.

Lemma raster_shouldMerge_left_or_above (options : DetectionOptions.t)
    (first second : DetectedElement.t) :
  let a := DetectedElement.rect first in
  let b := DetectedElement.rect second in
  0 < DetectionOptions.mergeThreshold options ->
  DetectedElement.type first = DetectedElement.type second ->
  (Rect.x b + Rect.width b == Rect.x a
   /\ Qmax (Rect.y a) (Rect.y b) < Qmin (Rect.y a + Rect.height a) (Rect.y b + Rect.height b))
  \/ (Rect.y b + Rect.height b == Rect.y a
      /\ Qmax (Rect.x a) (Rect.x b) < Qmin (Rect.x a + Rect.width a) (Rect.x b + Rect.width b)) ->
  RasterHeuristics.shouldMerge options first second = true.
Proof.
  intros a b Hthr Hty Htouch. unfold RasterHeuristics.shouldMerge.
  rewrite Hty.
  replace (ElementType_beq _ _) with true
    by (symmetry; apply internal_ElementType_dec_lb; reflexivity).
  cbn [negb]. fold a b. cbv zeta.
  apply orb_true_iff.
  destruct Htouch as [[Hedge Hover]|[Hedge Hover]]; [left | right];
    apply andb_true_iff; split.
  - apply Qltb_lt.
    assert (E : Rect.x a - (Rect.x b + Rect.width b) == 0) by lra.
    rewrite E. exact Hthr.
  - apply Qgtb_lt. lra.
  - apply Qltb_lt.
    assert (E : Rect.y a - (Rect.y b + Rect.height b) == 0) by lra.
    rewrite E. exact Hthr.
  - apply Qgtb_lt. lra.
Qed.

Lemma Qabs_opp_le (q d : Q) : q == - d -> d <= Qabs q.
Proof.
  intros E. rewrite E, Qabs_opp. apply Qle_Qabs.
Qed.

(** Two boxes of one row side by side, the left one first: both distances
    of [shouldMerge] run from the left or top edge of the first to the far
    edge of the second. *)
Lemma raster_shouldMerge_left_first (options : DetectionOptions.t)
    (type : ElementType) (x y leftWidth rightWidth height : Z) (c1 c2 : Q) :
  DetectionOptions.mergeThreshold options <= inject_Z (leftWidth + rightWidth) ->
  DetectionOptions.mergeThreshold options <= inject_Z height ->
  RasterHeuristics.shouldMerge options
    (wholeBox type x y leftWidth height c1)
    (wholeBox type (x + leftWidth) y rightWidth height c2) = false.
Proof.
  intros Hwide Hhigh. unfold RasterHeuristics.shouldMerge, wholeBox.
  cbn [DetectedElement.type DetectedElement.rect
       Rect.x Rect.y Rect.width Rect.height].
  replace (ElementType_beq type type) with true
    by (symmetry; apply internal_ElementType_dec_lb; reflexivity).
  cbn [negb]. cbv zeta.
  rewrite !inject_Z_plus in *.
  apply orb_false_iff. split; apply andb_false_iff; left.
  - destruct (Qltb _ _) eqn:E; [|reflexivity]. apply Qltb_lt in E. exfalso.
    assert (Hd : inject_Z leftWidth + inject_Z rightWidth
                 <= Qabs (inject_Z x
                          - (inject_Z x + inject_Z leftWidth + inject_Z rightWidth)))
      by (apply Qabs_opp_le; ring).
    lra.
  - destruct (Qltb _ _) eqn:E; [|reflexivity]. apply Qltb_lt in E. exfalso.
    assert (Hd : inject_Z height
                 <= Qabs (inject_Z y - (inject_Z y + inject_Z height)))
      by (apply Qabs_opp_le; ring).
    lra.
Qed.

Lemma same_row_touching (type : ElementType)
    (x y leftWidth rightWidth height : Z) (c1 c2 : Q) :
  (0 < leftWidth)%Z -> (0 < rightWidth)%Z -> (0 < height)%Z ->
  touching (DetectedElement.rect (wholeBox type x y leftWidth height c1))
           (DetectedElement.rect (wholeBox type (x + leftWidth) y rightWidth height c2)).
Proof.
  intros Hl Hr Hh. left.
  cbn [wholeBox DetectedElement.rect Rect.x Rect.y Rect.width Rect.height].
  split; [left; rewrite inject_Z_plus; reflexivity|].
  rewrite Q.max_id, Q.min_id.
  assert (0 < inject_Z height)
    by (change 0 with (inject_Z 0); rewrite <- Zlt_Qlt; exact Hh).
  lra.
Qed.

(** C8.  [mergeAdjacentFields] of [rasterHeuristics] treats a touching pair
    differently by its order.  Take two boxes of one type and one row with
    whole coordinates, side by side and touching, at least
    [mergeThreshold] high and together at least [mergeThreshold] wide (the
    threshold being positive).  With the left box first the pair is
    returned as it is, not merged; with the right box first it comes out
    as one element with the bounding box and 0.9 times the larger
    confidence. *)
Theorem raster_merge_depends_on_order (options : DetectionOptions.t)
    (type : ElementType) (x y leftWidth rightWidth height : Z) (c1 c2 : Q) :
  let leftOne := wholeBox type x y leftWidth height c1 in
  let rightOne := wholeBox type (x + leftWidth) y rightWidth height c2 in
  (0 < leftWidth)%Z -> (0 < rightWidth)%Z -> (0 < height)%Z ->
  0 < DetectionOptions.mergeThreshold options ->
  DetectionOptions.mergeThreshold options <= inject_Z (leftWidth + rightWidth) ->
  DetectionOptions.mergeThreshold options <= inject_Z height ->
  touching (DetectedElement.rect leftOne) (DetectedElement.rect rightOne)
  /\ RasterHeuristics.mergeAdjacentFields options [leftOne; rightOne]
     = [leftOne; rightOne]
  /\ mergedAsOne (9 # 10) (RasterHeuristics.mergeAdjacentFields options)
       rightOne leftOne.
Proof.
  intros leftOne rightOne Hl Hr Hh Hthr Hwide Hhigh.
  split; [now apply same_row_touching|]. split.
  - apply raster_merge_rejected_pair.
    now apply raster_shouldMerge_left_first.
  - apply raster_merge_accepted_pair.
    apply raster_shouldMerge_left_or_above; [exact Hthr | reflexivity|].
    left.
    cbn [leftOne rightOne wholeBox DetectedElement.rect
         Rect.x Rect.y Rect.width Rect.height].
    split; [rewrite inject_Z_plus; reflexivity|].
    rewrite Q.max_id, Q.min_id.
    assert (0 < inject_Z height)
      by (change 0 with (inject_Z 0); rewrite <- Zlt_Qlt; exact Hh).
    lra.
Qed.

Lemma raster_merge_depends_on_order_witness :
  touching (DetectedElement.rect leftBox) (DetectedElement.rect rightBox)
  /\ RasterHeuristics.mergeAdjacentFields DetectionOptions.defaults [leftBox; rightBox]
     = [leftBox; rightBox]
  /\ mergedAsOne (9 # 10)
       (RasterHeuristics.mergeAdjacentFields DetectionOptions.defaults)
       rightBox leftBox.
Proof.
  apply (raster_merge_depends_on_order DetectionOptions.defaults EText
           0 0 50 50 20 (5 # 10) (6 # 10)); try lia; vm_compute; congruence.
Defined.

(** With the default options, [rasterHeuristics] leaves two touching text
    boxes unmerged when the left one comes first, and the earlier library
    merges two touching slivers into one element whose confidence is the
    larger one, not 0.9 times it. *)
Lemma touching_pairs_not_merged :
  ~ mergesTouchingPairs (RasterHeuristics.mergeAdjacentFields DetectionOptions.defaults)
  /\ ~ mergesTouchingPairs (PdfFieldDetection.mergeAdjacentFields DetectionOptions.defaults).
Proof.
  split; intros H.
  - destruct (H leftBox rightBox) as [m [Hm _]].
    + reflexivity.
    + left. split; [left; reflexivity | reflexivity].
    + vm_compute in Hm. discriminate.
  - destruct (H leftSliver rightSliver) as [m [Hm [_ [_ Hc]]]].
    + reflexivity.
    + left. split; [left; reflexivity | reflexivity].
    + vm_compute in Hm. injection Hm as <-. vm_compute in Hc. discriminate.
Qed.

(** What the two merge steps return on the sample pairs, with the default
    options. *)
Lemma merge_on_sample_pairs :
  RasterHeuristics.mergeAdjacentFields DetectionOptions.defaults [leftBox; rightBox]
  = [leftBox; rightBox]
  /\ RasterHeuristics.mergeAdjacentFields DetectionOptions.defaults
       [leftSliver; rightSliver]
     = [leftSliver; rightSliver]
  /\ PdfFieldDetection.mergeAdjacentFields DetectionOptions.defaults [leftBox; rightBox]
     = [leftBox; rightBox]
  /\ PdfFieldDetection.mergeAdjacentFields DetectionOptions.defaults
       [leftSliver; rightSliver]
     = [DetectedElement.mk EText (Rect.mk 0 0 (8 - 0) (20 - 0)) (6 # 10)].
Proof. repeat split; vm_compute; reflexivity. Qed.

(** ** The confidence filter *)

Lemma raster_shouldMerge_ext o o' a b :
  DetectionOptions.mergeThreshold o = DetectionOptions.mergeThreshold o' ->
  RasterHeuristics.shouldMerge o a b = RasterHeuristics.shouldMerge o' a b.
Proof. intros H. unfold RasterHeuristics.shouldMerge. now rewrite H. Qed.

Lemma raster_mergeInto_ext o o' :
  DetectionOptions.mergeThreshold o = DetectionOptions.mergeThreshold o' ->
  forall rest current visited j,
    RasterHeuristics.mergeInto o current visited j rest
    = RasterHeuristics.mergeInto o' current visited j rest.
Proof.
  intros H. induction rest as [|c rest IH]; intros current visited j; simpl.
  - reflexivity.
  - rewrite (raster_shouldMerge_ext o o' current c H), !IH. reflexivity.
Qed.

Lemma raster_mergeFrom_ext o o' :
  DetectionOptions.mergeThreshold o = DetectionOptions.mergeThreshold o' ->
  forall rest i visited merged,
    RasterHeuristics.mergeFrom o i rest visited merged
    = RasterHeuristics.mergeFrom o' i rest visited merged.
Proof.
  intros H. induction rest as [|e rest IH]; intros i visited merged; simpl.
  - reflexivity.
  - rewrite (raster_mergeInto_ext o o' H), IH.
    destruct (RasterHeuristics.mergeInto _ _ _ _ _) as [current visited'].
    now rewrite IH.
Qed.

Lemma legacy_collectAdjacent_ext o o' :
  DetectionOptions.mergeThreshold o = DetectionOptions.mergeThreshold o' ->
  forall rest current used j,
    PdfFieldDetection.collectAdjacent o current used j rest
    = PdfFieldDetection.collectAdjacent o' current used j rest.
Proof.
  intros H. induction rest as [|c rest IH]; intros current used j; simpl.
  - reflexivity.
  - unfold PdfFieldDetection.areAdjacent. rewrite H, !IH. reflexivity.
Qed.

Lemma legacy_mergeFrom_ext o o' :
  DetectionOptions.mergeThreshold o = DetectionOptions.mergeThreshold o' ->
  forall rest i used merged,
    PdfFieldDetection.mergeFrom o i rest used merged
    = PdfFieldDetection.mergeFrom o' i rest used merged.
Proof.
  intros H. induction rest as [|e rest IH]; intros i used merged; simpl.
  - reflexivity.
  - rewrite (legacy_collectAdjacent_ext o o' H), IH.
    destruct (PdfFieldDetection.collectAdjacent _ _ _ _ _) as [[|x others] used'];
      now rewrite ?IH.
Qed.

Lemma filter_threshold_incl (t1 t2 : Q) (l : list DetectedElement.t) :
  t1 < t2 ->
  incl (filter (fun e => Qgeb (DetectedElement.confidence e) t2) l)
       (filter (fun e => Qgeb (DetectedElement.confidence e) t1) l).
Proof.
  intros Hlt e He. apply filter_In in He. destruct He as [Hin Hc].
  apply filter_In. split; [exact Hin|].
  apply Qgeb_le in Hc. apply Qgeb_le. lra.
Qed.

(** C9.  In both detectors, with everything but [confidenceThreshold] the
    same, every element [detectFields] returns for the threshold [t2] is
    among those it returns for a lower threshold [t1]. *)
Theorem confidenceThreshold_monotone (t1 t2 : Q) :
  t1 < t2 ->
  (forall passes options imageData pageWidth pageHeight textElements,
     incl (snd (RasterHeuristics.detectFields passes
                  (DetectionOptions.withConfidenceThreshold options t2)
                  imageData pageWidth pageHeight textElements))
          (snd (RasterHeuristics.detectFields passes
                  (DetectionOptions.withConfidenceThreshold options t1)
                  imageData pageWidth pageHeight textElements)))
  /\ (forall passes options imageData pageWidth pageHeight textElements,
        incl (snd (PdfFieldDetection.detectFields passes
                     (DetectionOptions.withConfidenceThreshold options t2)
                     imageData pageWidth pageHeight textElements))
             (snd (PdfFieldDetection.detectFields passes
                     (DetectionOptions.withConfidenceThreshold options t1)
                     imageData pageWidth pageHeight textElements))).
Proof.
  intros Hlt. split; intros passes options imageData pageWidth pageHeight textElements.
  - unfold RasterHeuristics.detectFields, RasterHeuristics.mergeAdjacentFields,
      RasterHeuristics.filterByMinimumSize.
    cbn [snd DetectionOptions.setMaxFieldHeight DetectionOptions.withConfidenceThreshold
         DetectionOptions.maxFieldHeight
         DetectionOptions.minTextFieldHeight DetectionOptions.minCheckboxSize
         DetectionOptions.maxCheckboxSize DetectionOptions.minRadioSize
         DetectionOptions.maxRadioSize DetectionOptions.mergeThreshold
         DetectionOptions.confidenceThreshold].
    match goal with
    | |- incl (filter _ (RasterHeuristics.mergeFrom ?o2 _ ?l _ _))
              (filter _ (RasterHeuristics.mergeFrom ?o1 _ _ _ _)) =>
        rewrite (raster_mergeFrom_ext o2 o1 eq_refl)
    end.
    apply filter_threshold_incl, Hlt.
  - unfold PdfFieldDetection.detectFields, PdfFieldDetection.mergeAdjacentFields.
    cbn [snd DetectionOptions.setMaxFieldHeight DetectionOptions.withConfidenceThreshold
         DetectionOptions.maxFieldHeight
         DetectionOptions.minTextFieldHeight DetectionOptions.minCheckboxSize
         DetectionOptions.maxCheckboxSize DetectionOptions.minRadioSize
         DetectionOptions.maxRadioSize DetectionOptions.mergeThreshold
         DetectionOptions.confidenceThreshold].
    match goal with
    | |- incl (filter _ (PdfFieldDetection.mergeFrom ?o2 _ ?l _ _))
              (filter _ (PdfFieldDetection.mergeFrom ?o1 _ _ _ _)) =>
        rewrite (legacy_mergeFrom_ext o2 o1 eq_refl)
    end.
    apply filter_threshold_incl, Hlt.
Qed.

Lemma confidenceThreshold_monotone_witness :
  incl (snd (RasterHeuristics.detectFields fixedRasterPasses
               (DetectionOptions.withConfidenceThreshold DetectionOptions.defaults (6 # 10))
               blankImage 1000 1000 None))
       (snd (RasterHeuristics.detectFields fixedRasterPasses
               (DetectionOptions.withConfidenceThreshold DetectionOptions.defaults (3 # 10))
               blankImage 1000 1000 None)).
Proof.
  apply (confidenceThreshold_monotone (3 # 10) (6 # 10)). reflexivity.
Defined.

(* ================================================================== *)
(** * Further properties of the evaluator *)

(** ** More on the greedy matcher *)

Lemma indexed_nth {A : Type} (l : list A) (i : nat) (a : A) :
  nth_error l i = Some a -> In (i, a) (Evaluate.indexed l).
Proof.
  unfold Evaluate.indexed. intros H.
  assert (G : forall (l : list A) s i a,
             nth_error l i = Some a -> In ((s + i)%nat, a) (combine (seq s (length l)) l)).
  { clear. induction l as [|b l IH]; intros s i a H; destruct i; simpl in *;
      try discriminate.
    - inversion H; subst. left. f_equal. lia.
    - right. replace (s + S i)%nat with (S s + i)%nat by lia. now apply IH. }
  exact (G l 0%nat i a H).
Qed.

Lemma collectCandidates_complete truths predictions threshold i j t p :
  nth_error truths i = Some t ->
  nth_error predictions j = Some p ->
  Instance.pageIndex t = Instance.pageIndex p ->
  threshold <= Evaluate.computeIoU (FieldAnnotation.rect (Instance.field t))
                                   (FieldPrediction.rect (Instance.field p)) ->
  In (Evaluate.mkCandidate i j
        (Evaluate.computeIoU (FieldAnnotation.rect (Instance.field t))
                             (FieldPrediction.rect (Instance.field p))))
     (Evaluate.collectCandidates truths predictions threshold).
Proof.
  intros Ht Hp Hpage Hiou. unfold Evaluate.collectCandidates.
  apply in_flat_map. exists (i, t). split; [now apply indexed_nth|].
  apply in_flat_map. exists (j, p). split; [now apply indexed_nth|].
  cbn [fst snd]. rewrite Hpage, Z.eqb_refl. cbn [negb].
  replace (Qgeb _ threshold) with true by (symmetry; now apply Qgeb_le).
  now left.
Qed.

Section Loop.

Variable type : FieldType.
Variable truths : list (Instance.t FieldAnnotation.t).
Variable predictions : list (Instance.t FieldPrediction.t).

Local Abbreviation step := (Evaluate.acceptCandidate type truths predictions).

Lemma acceptCandidate_grows st c :
  incl (Evaluate.matchedTruth st) (Evaluate.matchedTruth (step st c))
  /\ incl (Evaluate.matchedPredictions st) (Evaluate.matchedPredictions (step st c)).
Proof.
  unfold Evaluate.acceptCandidate.
  destruct (setHas _ _ || setHas _ _)%bool; [split; apply incl_refl|].
  destruct (nth_error truths _); [|split; apply incl_refl].
  destruct (nth_error predictions _); [|split; apply incl_refl].
  simpl. split; apply incl_appl, incl_refl.
Qed.

Lemma fold_accept_grows cs st :
  incl (Evaluate.matchedTruth st) (Evaluate.matchedTruth (fold_left step cs st))
  /\ incl (Evaluate.matchedPredictions st)
          (Evaluate.matchedPredictions (fold_left step cs st)).
Proof.
  revert st. induction cs as [|c cs IH]; intros st; simpl.
  - split; apply incl_refl.
  - destruct (IH (step st c)) as [H1 H2].
    destruct (acceptCandidate_grows st c) as [G1 G2].
    split; eapply incl_tran; eassumption.
Qed.

Lemma acceptCandidate_settles st c :
  (Evaluate.truthIndex c < length truths)%nat ->
  (Evaluate.predictionIndex c < length predictions)%nat ->
  In (Evaluate.truthIndex c) (Evaluate.matchedTruth (step st c))
  \/ In (Evaluate.predictionIndex c) (Evaluate.matchedPredictions (step st c)).
Proof.
  intros Ht Hp. unfold Evaluate.acceptCandidate.
  destruct (setHas (Evaluate.matchedTruth st) _) eqn:E1; simpl.
  { left. now apply setHas_In. }
  destruct (setHas (Evaluate.matchedPredictions st) _) eqn:E2; simpl.
  { right. now apply setHas_In. }
  destruct (nth_error truths _) eqn:Et; [|apply nth_error_None in Et; lia].
  destruct (nth_error predictions _) eqn:Ep; [|apply nth_error_None in Ep; lia].
  simpl. left. apply in_or_app. right. now left.
Qed.

Lemma fold_accept_settles cs st c :
  In c cs ->
  (Evaluate.truthIndex c < length truths)%nat ->
  (Evaluate.predictionIndex c < length predictions)%nat ->
  In (Evaluate.truthIndex c) (Evaluate.matchedTruth (fold_left step cs st))
  \/ In (Evaluate.predictionIndex c)
        (Evaluate.matchedPredictions (fold_left step cs st)).
Proof.
  revert st. induction cs as [|d cs IH]; intros st Hin Ht Hp; [contradiction|].
  simpl. destruct Hin as [->|Hin].
  - destruct (fold_accept_grows cs (step st c)) as [G1 G2].
    destruct (acceptCandidate_settles st c Ht Hp) as [H|H]; [left | right]; auto.
  - now apply IH.
Qed.

End Loop.

(** X1.  The greedy matching is maximal: when a truth and a prediction of
    the two lists lie on the same page and their IoU is at least the
    threshold, then after the accept loop the truth is matched or the
    prediction is matched. *)
Theorem greedyMatch_maximal type truths predictions threshold i j t p :
  nth_error truths i = Some t ->
  nth_error predictions j = Some p ->
  Instance.pageIndex t = Instance.pageIndex p ->
  threshold <= Evaluate.computeIoU (FieldAnnotation.rect (Instance.field t))
                                   (FieldPrediction.rect (Instance.field p)) ->
  let st := Evaluate.acceptLoop type truths predictions threshold in
  In i (Evaluate.matchedTruth st) \/ In j (Evaluate.matchedPredictions st).
Proof.
  intros Ht Hp Hpage Hiou st.
  pose proof (collectCandidates_complete truths predictions threshold i j t p
                Ht Hp Hpage Hiou) as Hc.
  apply sortCandidates_In in Hc.
  apply (fold_accept_settles type truths predictions _ _ _ Hc); simpl.
  - apply nth_error_Some. congruence.
  - apply nth_error_Some. congruence.
Qed.

(** ** The order of the candidates *)

Lemma insertCandidate_sorted c l :
  StronglySorted betterFirst l ->
  StronglySorted betterFirst (Evaluate.insertCandidate c l).
Proof.
  induction 1 as [|d l Hs IH Hd]; simpl.
  - repeat constructor.
  - destruct (Qgtb (Evaluate.iou d) (Evaluate.iou c)) eqn:E.
    + apply Qgtb_lt in E. constructor; [exact IH|].
      apply Forall_forall. intros e He. apply insertCandidate_In in He.
      destruct He as [->|He].
      * unfold betterFirst. lra.
      * rewrite Forall_forall in Hd. now apply Hd.
    + apply Qgtb_le in E. constructor; [now constructor|].
      constructor; [exact E|].
      rewrite Forall_forall in *. intros e He. specialize (Hd e He).
      unfold betterFirst in *. lra.
Qed.

Lemma sortCandidates_sorted l : StronglySorted betterFirst (Evaluate.sortCandidates l).
Proof.
  induction l as [|c l IH]; simpl; [constructor|].
  now apply insertCandidate_sorted.
Qed.

(** ** What a match record holds *)

Section Records.

Variable type : FieldType.
Variable truths : list (Instance.t FieldAnnotation.t).
Variable predictions : list (Instance.t FieldPrediction.t).
Variable threshold : Q.

Local Abbreviation step := (Evaluate.acceptCandidate type truths predictions).
Local Abbreviation candidates :=
  (Evaluate.sortCandidates (Evaluate.collectCandidates truths predictions threshold)).

Lemma acceptCandidate_matches st c :
  Evaluate.matches (step st c) = Evaluate.matches st
  \/ exists t p,
       nth_error truths (Evaluate.truthIndex c) = Some t
       /\ nth_error predictions (Evaluate.predictionIndex c) = Some p
       /\ Evaluate.matches (step st c)
          = Evaluate.matches st
            ++ [MatchRecord.mk type (Instance.pageIndex t) t p (Evaluate.iou c)].
Proof.
  unfold Evaluate.acceptCandidate.
  destruct (setHas _ _ || setHas _ _)%bool; [now left|].
  destruct (nth_error truths _) as [t|]; [|now left].
  destruct (nth_error predictions _) as [p|]; [|now left].
  right. exists t, p. repeat split.
Qed.

Lemma fold_valid cs st :
  (forall c, In c cs -> In c candidates) ->
  Forall (validMatch type threshold) (Evaluate.matches st) ->
  Forall (validMatch type threshold) (Evaluate.matches (fold_left step cs st)).
Proof.
  revert st. induction cs as [|c cs IH]; intros st Hin Hst; simpl; [exact Hst|].
  apply IH; [intros d Hd; apply Hin; now right|].
  destruct (acceptCandidate_matches st c) as [->|[t [p [Et [Ep ->]]]]]; [exact Hst|].
  apply Forall_app. split; [exact Hst|]. constructor; [|constructor].
  assert (Hc : In c candidates) by (apply Hin; now left).
  apply sortCandidates_In, collectCandidates_in_range in Hc.
  destruct Hc as [t' [p' [Et' [Ep' [Hpage [Hthr Hiou]]]]]].
  rewrite Et in Et'. rewrite Ep in Ep'. inversion Et'; inversion Ep'; subst t' p'.
  unfold validMatch. cbn. repeat split; assumption.
Qed.

Lemma fold_descending cs st :
  StronglySorted betterFirst cs ->
  StronglySorted (fun a b => MatchRecord.iou b <= MatchRecord.iou a) (Evaluate.matches st) ->
  (forall m c, In m (Evaluate.matches st) -> In c cs -> Evaluate.iou c <= MatchRecord.iou m) ->
  StronglySorted (fun a b => MatchRecord.iou b <= MatchRecord.iou a)
                 (Evaluate.matches (fold_left step cs st)).
Proof.
  revert st. induction cs as [|c cs IH]; intros st Hcs Hst Hbound; simpl; [exact Hst|].
  inversion Hcs as [|? ? Hcs' Hc]; subst. rewrite Forall_forall in Hc.
  destruct (acceptCandidate_matches st c) as [E|[t [p [_ [_ E]]]]].
  - apply IH; [exact Hcs' | now rewrite E |].
    rewrite E. intros m d Hm Hd. apply Hbound; [exact Hm | now right].
  - apply IH; [exact Hcs' | |].
    + rewrite E. clear -Hst Hbound.
      induction (Evaluate.matches st) as [|m ms IHms]; simpl.
      * repeat constructor.
      * inversion Hst as [|? ? Hms Hm]; subst. constructor.
        -- apply IHms; [exact Hms|]. intros m' d Hm' Hd. apply Hbound; [now right | exact Hd].
        -- apply Forall_app. split; [exact Hm|]. constructor; [|constructor].
           cbn. apply Hbound; now left.
    + rewrite E. intros m d Hm Hd. apply in_app_iff in Hm. destruct Hm as [Hm|[<-|[]]].
      * apply Hbound; [exact Hm | now right].
      * cbn. exact (Hc d Hd).
Qed.

End Records.

(** X2.  Every match record greedyMatch returns has the type of the run, the
    page index of its truth, a truth and a prediction on the same page,
    their computeIoU as iou, and an iou of at least the threshold; the
    records come in descending order of iou. *)
Theorem greedyMatch_records type truths predictions threshold :
  let run := Evaluate.greedyMatch type truths predictions threshold in
  Forall (validMatch type threshold) (Evaluate.runMatches run)
  /\ StronglySorted (fun a b => MatchRecord.iou b <= MatchRecord.iou a)
                    (Evaluate.runMatches run).
Proof.
  cbv zeta. unfold Evaluate.greedyMatch, Evaluate.acceptLoop.
  cbn [Evaluate.runMatches]. split.
  - apply fold_valid with (threshold := threshold); [auto | constructor].
  - apply fold_descending.
    + apply sortCandidates_sorted.
    + constructor.
    + intros m c [].
Qed.

(** ** Every instance is accounted for once *)

Lemma pick_seq {A : Type} (l : list A) (s : nat) (pre : list A) :
  length pre = s -> pick (pre ++ l) (seq s (length l)) = l.
Proof.
  revert s pre. induction l as [|a l IH]; intros s pre Hs; simpl; [reflexivity|].
  rewrite nth_error_app2 by lia. replace (s - length pre)%nat with 0%nat by lia.
  simpl. f_equal.
  replace (pre ++ a :: l) with ((pre ++ [a]) ++ l) by now rewrite <- app_assoc.
  apply IH. rewrite length_app. simpl. lia.
Qed.

Lemma pick_all {A : Type} (l : list A) : pick l (seq 0 (length l)) = l.
Proof. exact (pick_seq l 0 [] eq_refl). Qed.

Lemma pick_matches {A B : Type} (l : list A) (proj : B -> A) (ms : list B) (idx : list nat) :
  Forall2 (fun m i => nth_error l i = Some (proj m)) ms idx ->
  map proj ms = pick l idx.
Proof.
  induction 1 as [|m i ms idx H _ IH]; simpl; [reflexivity|].
  rewrite H. simpl. now f_equal.
Qed.

Lemma pick_unmatched {A : Type} (l : list A) (s : list nat) :
  Evaluate.unmatched l s
  = pick l (filter (fun i => negb (setHas s i)) (seq 0 (length l))).
Proof.
  unfold Evaluate.unmatched, Evaluate.indexed.
  assert (G : forall (l pre : list A) n,
            length pre = n ->
            map snd (filter (fun ix : nat * A => negb (setHas s (fst ix)))
                            (combine (seq n (length l)) l))
            = pick (pre ++ l) (filter (fun i => negb (setHas s i)) (seq n (length l)))).
  { clear. induction l as [|a l IH]; intros pre n Hn; simpl; [reflexivity|].
    assert (Hrest :
              map snd (filter (fun ix : nat * A => negb (setHas s (fst ix)))
                              (combine (seq (S n) (length l)) l))
              = pick (pre ++ a :: l)
                     (filter (fun i => negb (setHas s i)) (seq (S n) (length l)))).
    { replace (pre ++ a :: l) with ((pre ++ [a]) ++ l) by now rewrite <- app_assoc.
      apply IH. rewrite length_app. simpl. lia. }
    destruct (negb (setHas s n)); simpl; [|exact Hrest].
    rewrite nth_error_app2 by lia. replace (n - length pre)%nat with 0%nat by lia.
    simpl. now f_equal. }
  exact (G l [] 0%nat eq_refl).
Qed.

Lemma pick_perm {A : Type} (l : list A) (idx idx' : list nat) :
  Permutation idx idx' -> Permutation (pick l idx) (pick l idx').
Proof.
  intros H. unfold pick. induction H; simpl.
  - constructor.
  - now apply Permutation_app_head.
  - rewrite !app_assoc. apply Permutation_app_tail, Permutation_app_comm.
  - eapply Permutation_trans; eassumption.
Qed.

Lemma claimed_and_rest (s : list nat) (n : nat) :
  NoDup s -> (forall i, In i s -> (i < n)%nat) ->
  Permutation (s ++ filter (fun i => negb (setHas s i)) (seq 0 n)) (seq 0 n).
Proof.
  intros Hs Hb. apply NoDup_Permutation.
  - apply NoDup_app; [exact Hs | apply NoDup_filter, seq_NoDup |].
    intros i Hi Hf. apply filter_In in Hf. destruct Hf as [_ Hf].
    apply negb_true_iff, setHas_not_In in Hf. contradiction.
  - apply seq_NoDup.
  - intros i. rewrite in_app_iff, filter_In, in_seq, negb_true_iff, setHas_not_In.
    split.
    + intros [Hi|[Hi _]]; [specialize (Hb i Hi)|]; lia.
    + intros Hi. destruct (in_dec Nat.eq_dec i s); [now left | right; split; [lia | assumption]].
Qed.

Lemma greedy_partition type truths predictions threshold :
  let run := Evaluate.greedyMatch type truths predictions threshold in
  Permutation (map MatchRecord.truth (Evaluate.runMatches run)
               ++ Evaluate.runFalseNegatives run) truths
  /\ Permutation (map MatchRecord.prediction (Evaluate.runMatches run)
                  ++ Evaluate.runFalsePositives run) predictions.
Proof.
  cbv zeta.
  destruct (acceptLoop_accepted type truths predictions threshold) as [Ht Hp Hft Hfp].
  unfold Evaluate.greedyMatch.
  cbn [Evaluate.runMatches Evaluate.runFalseNegatives Evaluate.runFalsePositives].
  rewrite (pick_matches _ _ _ _ Hft), (pick_matches _ _ _ _ Hfp), !pick_unmatched.
  unfold pick at 1 2 3 4. rewrite <- !flat_map_app. fold (@pick (Instance.t FieldAnnotation.t)).
  split.
  - rewrite <- (pick_all truths) at 3. apply pick_perm, claimed_and_rest; [exact Ht|].
    exact (Forall2_nth_error_bound _ _ _ _ Hft).
  - rewrite <- (pick_all predictions) at 3. apply pick_perm, claimed_and_rest; [exact Hp|].
    exact (Forall2_nth_error_bound _ _ _ _ Hfp).
Qed.

(** ** The range of the metrics *)

Lemma inject_Z_nonneg (n : Z) : (0 <= n)%Z -> 0 <= inject_Z n.
Proof. intros H. unfold Qle. simpl. lia. Qed.

Lemma ratio_value (a b : Z) :
  (if (a + b =? 0)%Z then 0 else inject_Z a / inject_Z (a + b))
  == inject_Z a / (inject_Z a + inject_Z b).
Proof.
  destruct (a + b =? 0)%Z eqn:E.
  - apply Z.eqb_eq in E. rewrite <- inject_Z_plus, E. unfold Qdiv.
    change (/ inject_Z 0) with 0. ring.
  - rewrite inject_Z_plus. reflexivity.
Qed.

Lemma ratio_range (a b : Q) : 0 <= a -> 0 <= b -> 0 <= a / (a + b) <= 1.
Proof.
  intros Ha Hb. destruct (Qeq_dec (a + b) 0) as [E|E].
  - rewrite E. unfold Qdiv. change (/ 0) with 0. split; [|lra].
    rewrite Qmult_0_r. lra.
  - assert (0 < a + b) by lra. split.
    + apply Qle_shift_div_l; lra.
    + apply Qle_shift_div_r; lra.
Qed.

Lemma precision_value (counts : TypeCounts.t) :
  TypeMetrics.precision (Evaluate.calcMetrics counts)
  == inject_Z (TypeCounts.tp counts)
     / (inject_Z (TypeCounts.tp counts) + inject_Z (TypeCounts.fp counts)).
Proof.
  cbn [Evaluate.calcMetrics TypeMetrics.precision].
  rewrite rawPrecision_value. cbn [Evaluate.clamp]. apply ratio_value.
Qed.

Lemma recall_value (counts : TypeCounts.t) :
  TypeMetrics.recall (Evaluate.calcMetrics counts)
  == inject_Z (TypeCounts.tp counts)
     / (inject_Z (TypeCounts.tp counts) + inject_Z (TypeCounts.fn counts)).
Proof.
  cbn [Evaluate.calcMetrics TypeMetrics.recall].
  rewrite rawRecall_value. cbn [Evaluate.clamp]. apply ratio_value.
Qed.

Lemma f1_value (counts : TypeCounts.t) :
  let p := TypeMetrics.precision (Evaluate.calcMetrics counts) in
  let r := TypeMetrics.recall (Evaluate.calcMetrics counts) in
  TypeMetrics.f1 (Evaluate.calcMetrics counts)
  = if Qeq_bool (p + r) 0 then 0 else 2 * p * r / (p + r).
Proof.
  cbn [Evaluate.calcMetrics TypeMetrics.precision TypeMetrics.recall TypeMetrics.f1].
  rewrite rawF1_value. reflexivity.
Qed.

Lemma harmonic_range (p r : Q) :
  0 <= p <= 1 -> 0 <= r <= 1 ->
  0 <= (if Qeq_bool (p + r) 0 then 0 else 2 * p * r / (p + r)) <= 1.
Proof.
  intros Hp Hr. destruct (Qeq_bool (p + r) 0) eqn:E; [lra|].
  assert (Hne : ~ p + r == 0).
  { intros H. apply Qeq_bool_iff in H. congruence. }
  assert (0 < p + r) by lra. split.
  - apply Qle_shift_div_l; [lra|]. nra.
  - apply Qle_shift_div_r; [lra|]. nra.
Qed.

(** X4.  For counts tp, fp, fn that are not negative, the precision, recall
    and F1 that calcMetrics returns each lie between 0 and 1. *)
Theorem calcMetrics_range (counts : TypeCounts.t) :
  (0 <= TypeCounts.tp counts)%Z ->
  (0 <= TypeCounts.fp counts)%Z ->
  (0 <= TypeCounts.fn counts)%Z ->
  let m := Evaluate.calcMetrics counts in
  0 <= TypeMetrics.precision m <= 1
  /\ 0 <= TypeMetrics.recall m <= 1
  /\ 0 <= TypeMetrics.f1 m <= 1.
Proof.
  intros Htp Hfp Hfn m.
  assert (Hp : 0 <= TypeMetrics.precision m <= 1).
  { unfold m. rewrite precision_value. apply ratio_range; now apply inject_Z_nonneg. }
  assert (Hr : 0 <= TypeMetrics.recall m <= 1).
  { unfold m. rewrite recall_value. apply ratio_range; now apply inject_Z_nonneg. }
  split; [exact Hp|]. split; [exact Hr|].
  unfold m. rewrite f1_value. cbv zeta. now apply harmonic_range.
Qed.

Lemma calcMetrics_range_witness :
  0 <= TypeMetrics.f1 (Evaluate.calcMetrics (TypeCounts.mk 3 1 2)) <= 1.
Proof.
  apply (calcMetrics_range (TypeCounts.mk 3 1 2)); simpl; lia.
Defined.

(** ** The empty baseline *)

Lemma flat_map_nil {A B : Type} (f : A -> list B) (l : list A) :
  (forall a, In a l -> f a = []) -> flat_map f l = [].
Proof.
  induction l as [|a l IH]; intros H; simpl; [reflexivity|].
  rewrite (H a) by now left. apply IH. intros b Hb. apply H. now right.
Qed.

Lemma emptyDetect_no_fields sample : Evaluate.flattenPredictions (emptyDetect sample) = [].
Proof.
  unfold Evaluate.flattenPredictions, emptyDetect. cbn [DetectionOutput.pages].
  apply flat_map_nil. intros page Hpage.
  destruct (DatasetSample.annotations sample); [|contradiction].
  apply in_map_iff in Hpage. destruct Hpage as [p [<- _]]. reflexivity.
Qed.

Lemma greedyMatch_no_prediction type truths threshold :
  Evaluate.greedyMatch type truths [] threshold = Evaluate.mkMatchRun [] [] truths.
Proof.
  unfold Evaluate.greedyMatch, Evaluate.acceptLoop.
  assert (E : Evaluate.collectCandidates truths [] threshold = []).
  { unfold Evaluate.collectCandidates. apply flat_map_nil. reflexivity. }
  rewrite E. unfold Evaluate.sortCandidates.
  cbn [fold_right fold_left Evaluate.matches Evaluate.matchedTruth
       Evaluate.matchedPredictions].
  now rewrite !unmatched_nil.
Qed.

Lemma no_prediction_metrics (n : Z) :
  let m := Evaluate.calcMetrics (TypeCounts.mk 0 0 n) in
  TypeMetrics.precision m == 0 /\ TypeMetrics.recall m == 0 /\ TypeMetrics.f1 m == 0.
Proof.
  cbv zeta.
  assert (Ep : TypeMetrics.precision (Evaluate.calcMetrics (TypeCounts.mk 0 0 n)) == 0).
  { rewrite precision_value. reflexivity. }
  assert (Er : TypeMetrics.recall (Evaluate.calcMetrics (TypeCounts.mk 0 0 n)) == 0).
  { rewrite recall_value. cbn [TypeCounts.tp TypeCounts.fn].
    unfold Qdiv. apply Qmult_0_l. }
  split; [exact Ep|]. split; [exact Er|].
  rewrite f1_value. cbv zeta.
  replace (Qeq_bool _ 0) with true; [reflexivity|].
  symmetry. apply Qeq_bool_iff. rewrite Ep, Er. reflexivity.
Qed.

Lemma no_prediction_report annotations detections threshold :
  Evaluate.flattenPredictions detections = [] ->
  let report := Evaluate.evaluateDetectorOutput annotations detections threshold in
  EvaluationReport.matches report = []
  /\ EvaluationReport.falsePositives report = []
  /\ Permutation (EvaluationReport.falseNegatives report)
                 (Evaluate.flattenTruth annotations)
  /\ (forall i, In i (Evaluate.flattenTruth annotations) ->
        exists m, In (Evaluate.truthType i, m) (EvaluationReport.perType report))
  /\ (forall t m, In (t, m) (EvaluationReport.perType report) ->
        TypeMetrics.precision m == 0 /\ TypeMetrics.recall m == 0
        /\ TypeMetrics.f1 m == 0).
Proof.
  intros Hnone report.
  set (thr := match threshold with Some t => t | None => 1 # 2 end).
  set (T := Evaluate.flattenTruth annotations).
  destruct (evalLoop_lists T [] thr (Evaluate.activeTypesOf T [])) as [Hper [Hm [Hfp Hfn]]].
  assert (Hrun : forall t, Evaluate.typeRun T [] thr t
                           = Evaluate.mkMatchRun [] []
                               (filter (fun i => FieldType_beq (Evaluate.truthType i) t) T)).
  { intros t. unfold Evaluate.typeRun. simpl. apply greedyMatch_no_prediction. }
  unfold report, Evaluate.evaluateDetectorOutput.
  cbn [EvaluationReport.matches EvaluationReport.falseNegatives
       EvaluationReport.falsePositives EvaluationReport.perType].
  rewrite Hnone. fold thr. fold T. rewrite Hper, Hm, Hfp, Hfn. clear Hper Hm Hfp Hfn.
  repeat split.
  - apply flat_map_nil. intros t _. now rewrite Hrun.
  - apply flat_map_nil. intros t _. now rewrite Hrun.
  - rewrite (flat_map_ext _
               (fun t => filter (fun i => FieldType_beq (Evaluate.truthType i) t) T))
      by (intros t; now rewrite Hrun).
    apply group_by_type_perm.
    + apply activeTypes_NoDup.
    + intros a Ha. now apply activeTypes_truth.
  - intros i Hi. eexists. apply in_map_iff. exists (Evaluate.truthType i).
    split; [reflexivity|]. now apply activeTypes_truth.
  - apply in_map_iff in H. destruct H as [u [E _]]. inversion E; subst.
    rewrite Hrun. apply no_prediction_metrics.
  - apply in_map_iff in H. destruct H as [u [E _]]. inversion E; subst.
    rewrite Hrun. apply no_prediction_metrics.
  - apply in_map_iff in H. destruct H as [u [E _]]. inversion E; subst.
    rewrite Hrun. apply no_prediction_metrics.
Qed.

(** X6.  Scoring the output of the 'empty' detector gives no match and no
    false positive, every truth as a false negative, a perType entry for the
    type of every truth, and precision, recall and F1 equal to 0 in every
    perType entry. *)
Theorem empty_baseline_report (sample : DatasetSample.t)
    (annotations : option DocumentAnnotation.t) (threshold : option Q) :
  let report :=
    Evaluate.evaluateDetectorOutput annotations (emptyDetect sample) threshold in
  EvaluationReport.matches report = []
  /\ EvaluationReport.falsePositives report = []
  /\ Permutation (EvaluationReport.falseNegatives report)
                 (Evaluate.flattenTruth annotations)
  /\ (forall i, In i (Evaluate.flattenTruth annotations) ->
        exists m, In (Evaluate.truthType i, m) (EvaluationReport.perType report))
  /\ (forall t m, In (t, m) (EvaluationReport.perType report) ->
        TypeMetrics.precision m == 0 /\ TypeMetrics.recall m == 0
        /\ TypeMetrics.f1 m == 0).
Proof.
  apply no_prediction_report, emptyDetect_no_fields.
Qed.

Lemma empty_baseline_report_witness :
  exists m,
    In (FCheckbox, m)
       (EvaluationReport.perType
          (Evaluate.evaluateDetectorOutput (Some smokeAnnotations)
             (emptyDetect smokeSample) None))
    /\ TypeMetrics.recall m == 0.
Proof.
  destruct (empty_baseline_report smokeSample (Some smokeAnnotations) None)
    as [_ [_ [_ [Hentry Hzero]]]].
  destruct (Hentry (Instance.mk 0%Z smokeCheckboxTruth)) as [m Hm].
  { right. left. reflexivity. }
  exists m. split; [exact Hm|]. apply (Hzero _ _ Hm).
Defined.

(** ** The entries of [perType] *)

Lemma activeTypes_In truths predictions t :
  In t (Evaluate.activeTypesOf truths predictions)
  <-> (exists i, In i truths /\ Evaluate.truthType i = t)
      \/ (exists p, In p predictions /\ Evaluate.predictionType p = t).
Proof.
  unfold Evaluate.activeTypesOf. rewrite !fold_setAdd_In. simpl. tauto.
Qed.

(** X7.  The keys of perType are pairwise distinct and are exactly the types
    of the truths and of the predictions; in the entry of a type, tp + fn is
    the number of truths of that type and tp + fp the number of predictions
    of that type. *)
Theorem perType_entries annotations detections threshold :
  let report := Evaluate.evaluateDetectorOutput annotations detections threshold in
  let truths := Evaluate.flattenTruth annotations in
  let predictions := Evaluate.flattenPredictions detections in
  NoDup (map fst (EvaluationReport.perType report))
  /\ (forall t, In t (map fst (EvaluationReport.perType report))
        <-> (exists i, In i truths /\ Evaluate.truthType i = t)
            \/ (exists p, In p predictions /\ Evaluate.predictionType p = t))
  /\ (forall t m, In (t, m) (EvaluationReport.perType report) ->
        (TypeMetrics.tp m + TypeMetrics.fn m
         = Evaluate.lengthZ
             (filter (fun i => FieldType_beq (Evaluate.truthType i) t) truths))%Z
        /\ (TypeMetrics.tp m + TypeMetrics.fp m
            = Evaluate.lengthZ
                (filter (fun p => FieldType_beq (Evaluate.predictionType p) t)
                        predictions))%Z).
Proof.
  intros report truths predictions.
  set (thr := match threshold with Some t => t | None => 1 # 2 end).
  destruct (evalLoop_lists truths predictions thr
              (Evaluate.activeTypesOf truths predictions)) as [Hper _].
  unfold report, Evaluate.evaluateDetectorOutput. cbn [EvaluationReport.perType].
  fold truths predictions thr. rewrite Hper. clear Hper.
  assert (Hfst : map fst (map (fun t => (t, Evaluate.calcMetrics
                                 (Evaluate.typeCounts
                                    (Evaluate.typeRun truths predictions thr t))))
                              (Evaluate.activeTypesOf truths predictions))
                 = Evaluate.activeTypesOf truths predictions).
  { rewrite map_map. cbn [fst]. apply map_id. }
  rewrite Hfst. split; [apply activeTypes_NoDup|]. split; [apply activeTypes_In|].
  intros t m Hin. apply in_map_iff in Hin. destruct Hin as [u [E _]].
  inversion E; subst. clear E.
  destruct (greedyMatch_lengths t
              (filter (fun i => FieldType_beq (Evaluate.truthType i) t) truths)
              (filter (fun p => FieldType_beq (Evaluate.predictionType p) t) predictions)
              thr) as [Hn Hp].
  unfold Evaluate.typeRun, Evaluate.typeCounts, Evaluate.lengthZ.
  cbn [Evaluate.calcMetrics TypeMetrics.tp TypeMetrics.fn TypeMetrics.fp
       TypeCounts.tp TypeCounts.fp TypeCounts.fn].
  cbv zeta in Hn, Hp. split; lia.
Qed.

(** ** Every instance of the document is accounted for once *)

Lemma flat_map_pair_perm {A B : Type} (f g : A -> list B) (l : list A) :
  Permutation (flat_map f l ++ flat_map g l) (flat_map (fun a => f a ++ g a) l).
Proof.
  induction l as [|a l IH]; simpl; [constructor|].
  rewrite <- !app_assoc. apply Permutation_app_head.
  eapply Permutation_trans; [|apply Permutation_app_head, IH].
  rewrite !app_assoc. apply Permutation_app_tail, Permutation_app_comm.
Qed.

Lemma flat_map_perm_pointwise {A B : Type} (f g : A -> list B) (l : list A) :
  (forall a, Permutation (f a) (g a)) -> Permutation (flat_map f l) (flat_map g l).
Proof.
  intros H. induction l as [|a l IH]; simpl; [constructor|].
  now apply Permutation_app.
Qed.

(** X8.  The report accounts for every instance exactly once: the truths of
    the match records together with falseNegatives are a permutation of the
    flattened truths, and the predictions of the match records together with
    falsePositives are a permutation of the flattened predictions. *)
Theorem report_partition annotations detections threshold :
  let report := Evaluate.evaluateDetectorOutput annotations detections threshold in
  Permutation (map MatchRecord.truth (EvaluationReport.matches report)
               ++ EvaluationReport.falseNegatives report)
              (Evaluate.flattenTruth annotations)
  /\ Permutation (map MatchRecord.prediction (EvaluationReport.matches report)
                  ++ EvaluationReport.falsePositives report)
                 (Evaluate.flattenPredictions detections).
Proof.
  intros report.
  set (thr := match threshold with Some t => t | None => 1 # 2 end).
  set (T := Evaluate.flattenTruth annotations).
  set (P := Evaluate.flattenPredictions detections).
  destruct (evalLoop_lists T P thr (Evaluate.activeTypesOf T P)) as [_ [Hm [Hfp Hfn]]].
  unfold report, Evaluate.evaluateDetectorOutput.
  cbn [EvaluationReport.matches EvaluationReport.falseNegatives
       EvaluationReport.falsePositives].
  fold thr T P. rewrite Hm, Hfp, Hfn. clear Hm Hfp Hfn.
  rewrite !flat_map_concat_map, !concat_map, !map_map, <- !flat_map_concat_map.
  split.
  - eapply Permutation_trans; [apply flat_map_pair_perm|].
    eapply Permutation_trans;
      [apply (flat_map_perm_pointwise _
                (fun t => filter (fun i => FieldType_beq (Evaluate.truthType i) t) T))|].
    + intros t. unfold Evaluate.typeRun. apply greedy_partition.
    + apply group_by_type_perm; [apply activeTypes_NoDup|].
      intros a Ha. now apply activeTypes_truth.
  - eapply Permutation_trans; [apply flat_map_pair_perm|].
    eapply Permutation_trans;
      [apply (flat_map_perm_pointwise _
                (fun t => filter (fun i => FieldType_beq (Evaluate.predictionType i) t) P))|].
    + intros t. unfold Evaluate.typeRun. apply greedy_partition.
    + apply group_by_type_perm; [apply activeTypes_NoDup|].
      intros a Ha. now apply activeTypes_prediction.
Qed.

(* ================================================================== *)
(** * The benchmark detectors *)

(** ** The detector registry *)

Lemma find_snoc_hit {A : Type} (f : A -> bool) (l : list A) (a : A) :
  existsb f l = false -> f a = true -> find f (l ++ [a]) = Some a.
Proof.
  induction l as [|b l IH]; simpl; intros Hl Ha.
  - now rewrite Ha.
  - apply orb_false_iff in Hl. destruct Hl as [Hb Hl]. rewrite Hb. now apply IH.
Qed.

Lemma find_snoc_miss {A : Type} (f : A -> bool) (l : list A) (a : A) :
  f a = false -> find f (l ++ [a]) = find f l.
Proof.
  induction l as [|b l IH]; simpl; intros Ha.
  - now rewrite Ha.
  - destruct (f b); [reflexivity | now apply IH].
Qed.

Lemma has_getDetector registry id :
  Detectors.has registry id = true <-> Detectors.getDetector registry id <> None.
Proof.
  unfold Detectors.has, Detectors.getDetector.
  induction registry as [|e registry IH]; simpl.
  - split; [discriminate | intros H; now contradiction H].
  - destruct (String.eqb (fst e) id); simpl; [split; [discriminate | reflexivity]|].
    exact IH.
Qed.

(** X9.  registerDetector either adds the detector, in which case the id was
    unknown before (getDetector undefined, requireDetector throws),
    getDetector then returns the new detector, every other id resolves as
    before and listDetectors gains the entry at the end; or it throws, in
    which case the id was registered and requireDetector returns the
    registered detector. *)
Theorem registerDetector_getDetector (registry : Detectors.Registry) (id : string)
    (detector : Detector.t) :
  match Detectors.registerDetector registry id detector with
  | inl registry' =>
      Detectors.getDetector registry id = None
      /\ (exists message, Detectors.requireDetector registry id = inr message)
      /\ Detectors.getDetector registry' id = Some detector
      /\ (forall other, other <> id ->
            Detectors.getDetector registry' other = Detectors.getDetector registry other)
      /\ Detectors.listDetectors registry'
         = Detectors.listDetectors registry
           ++ [(id, Detector.name detector, Detector.description detector)]
  | inr _ =>
      exists registered,
        Detectors.getDetector registry id = Some registered
        /\ Detectors.requireDetector registry id = inl registered
  end.
Proof.
  unfold Detectors.registerDetector.
  destruct (Detectors.has registry id) eqn:Ehas.
  - apply has_getDetector in Ehas. unfold Detectors.requireDetector.
    destruct (Detectors.getDetector registry id) as [d|]; [|contradiction].
    now exists d.
  - assert (Hnone : Detectors.getDetector registry id = None).
    { destruct (Detectors.getDetector registry id) eqn:E; [|reflexivity].
      assert (Detectors.has registry id = true); [|congruence].
      apply has_getDetector. congruence. }
    split; [exact Hnone|].
    split; [unfold Detectors.requireDetector; rewrite Hnone; eexists; reflexivity|].
    split; [|split].
    + unfold Detectors.getDetector, Detectors.has in *.
      rewrite find_snoc_hit; [reflexivity | exact Ehas | apply String.eqb_refl].
    + intros other Hother. unfold Detectors.getDetector.
      rewrite find_snoc_miss; [reflexivity|]. cbn [fst].
      apply String.eqb_neq. congruence.
    + unfold Detectors.listDetectors. now rewrite map_app.
Qed.

(** ** From pixels to the unit square *)

(** X11.  A rectangle with non-negative corner and sides that lies inside a
    viewport of positive width and height is normalised by normalizeRect to
    a rectangle inside the unit square. *)
Theorem normalizeRect_unit_square (r : Rect.t) (viewportWidth viewportHeight : Q) :
  0 < viewportWidth -> 0 < viewportHeight ->
  0 <= Rect.x r -> 0 <= Rect.y r -> 0 <= Rect.width r -> 0 <= Rect.height r ->
  Rect.x r + Rect.width r <= viewportWidth ->
  Rect.y r + Rect.height r <= viewportHeight ->
  let n := Detectors.normalizeRect r viewportWidth viewportHeight in
  0 <= Rect.x n /\ 0 <= Rect.y n /\ 0 <= Rect.width n /\ 0 <= Rect.height n
  /\ Rect.x n + Rect.width n <= 1 /\ Rect.y n + Rect.height n <= 1.
Proof.
  intros Hw Hh Hx Hy Hrw Hrh Hxw Hyh n. unfold n, Detectors.normalizeRect.
  replace (Qeq_bool viewportWidth 0) with false.
  2:{ symmetry. destruct (Qeq_bool viewportWidth 0) eqn:E; [|reflexivity].
      apply Qeq_bool_iff in E. lra. }
  replace (Qeq_bool viewportHeight 0) with false.
  2:{ symmetry. destruct (Qeq_bool viewportHeight 0) eqn:E; [|reflexivity].
      apply Qeq_bool_iff in E. lra. }
  cbn [Rect.x Rect.y Rect.width Rect.height].
  repeat split; try (apply Qle_shift_div_l; lra).
  - setoid_replace (Rect.x r / viewportWidth + Rect.width r / viewportWidth)
      with ((Rect.x r + Rect.width r) / viewportWidth) by (field; lra).
    apply Qle_shift_div_r; lra.
  - setoid_replace (Rect.y r / viewportHeight + Rect.height r / viewportHeight)
      with ((Rect.y r + Rect.height r) / viewportHeight) by (field; lra).
    apply Qle_shift_div_r; lra.
Qed.

Lemma normalizeRect_unit_square_witness :
  let n := Detectors.normalizeRect (DetectedElement.rect rightBox) 100 100 in
  Rect.x n + Rect.width n <= 1.
Proof.
  apply (normalizeRect_unit_square (DetectedElement.rect rightBox) 100 100);
    unfold Qle, Qlt; simpl; lia.
Defined.

(** ** What the heuristic detector passes on *)

Lemma toPredictions_In (w h : Q) (raw : list DetectedElement.t) (p : FieldPrediction.t) :
  In p (Detectors.toPredictions w h raw)
  <-> exists e, In e raw
        /\ Detectors.TYPE_MAPPING (DetectedElement.type e) = Some (FieldPrediction.type p)
        /\ FieldPrediction.rect p = Detectors.normalizeRect (DetectedElement.rect e) w h
        /\ FieldPrediction.confidence p = Some (DetectedElement.confidence e).
Proof.
  unfold Detectors.toPredictions. rewrite in_flat_map. split.
  - intros [e [He Hp]]. exists e. split; [exact He|].
    unfold Detectors.toPrediction in Hp.
    destruct (Detectors.TYPE_MAPPING (DetectedElement.type e)) as [t|]; [|contradiction].
    destruct Hp as [<-|[]]. repeat split.
  - intros [e [He [Ht [Hr Hc]]]]. exists e. split; [exact He|].
    unfold Detectors.toPrediction. rewrite Ht. left.
    destruct p as [pt pr pc]. cbn in *. now subst.
Qed.

Lemma TYPE_MAPPING_supported e t :
  Detectors.TYPE_MAPPING e = Some t -> supportedType t.
Proof.
  unfold supportedType. destruct e; simpl; intros H; inversion H; auto.
Qed.

(** X12.  A page of the heuristic detector keeps the page index; each
    prediction has type text, checkbox, radio or signature and comes from an
    element detectFields returned, with that element's rectangle normalised
    by the canvas size and its confidence, which is at least the confidence
    threshold; each returned element of a mapped type yields a prediction. *)
Theorem heuristicPage_predictions (passes : RasterHeuristics.Passes)
    (options : DetectionOptions.t) (pageIndex : Z)
    (imageData : ImageData.t) (width height : Q) :
  let result := Detectors.heuristicPage passes options pageIndex imageData width height in
  let detected :=
    snd (RasterHeuristics.detectFields passes options imageData width height None) in
  PagePrediction.pageIndex (snd result) = pageIndex
  /\ (forall p, In p (PagePrediction.fields (snd result)) ->
        supportedType (FieldPrediction.type p)
        /\ exists e, In e detected
             /\ FieldPrediction.rect p
                = Detectors.normalizeRect (DetectedElement.rect e) width height
             /\ FieldPrediction.confidence p = Some (DetectedElement.confidence e)
             /\ DetectionOptions.confidenceThreshold options
                <= DetectedElement.confidence e)
  /\ (forall e, In e detected ->
        Detectors.TYPE_MAPPING (DetectedElement.type e) <> None ->
        exists p, In p (PagePrediction.fields (snd result))
                  /\ FieldPrediction.confidence p = Some (DetectedElement.confidence e)).
Proof.
  intros result detected. unfold result, Detectors.heuristicPage.
  destruct (RasterHeuristics.detectFields passes options imageData width height None)
    as [options' raw] eqn:E.
  assert (Hraw : raw = detected) by reflexivity.
  cbn [snd PagePrediction.pageIndex PagePrediction.fields].
  split; [reflexivity|]. split.
  - intros p Hp. apply toPredictions_In in Hp.
    destruct Hp as [e [He [Ht [Hr Hc]]]].
    split; [eapply TYPE_MAPPING_supported; eassumption|].
    exists e. rewrite <- Hraw. repeat split; try assumption.
    unfold RasterHeuristics.detectFields in E. inversion E as [[Ho Hf]].
    rewrite <- Hf in He. apply filter_In in He. destruct He as [_ He].
    apply Qgeb_le in He. exact He.
  - intros e He Hsup. rewrite <- Hraw in He.
    destruct (Detectors.TYPE_MAPPING (DetectedElement.type e)) as [t|] eqn:Et;
      [|contradiction].
    exists (FieldPrediction.mk t
              (Detectors.normalizeRect (DetectedElement.rect e) width height)
              (Some (DetectedElement.confidence e))).
    split; [|reflexivity]. apply toPredictions_In. exists e. repeat split; assumption.
Qed.

(** ** Clamped rectangles *)

Section ClampedRects.

Import JsNumber.

Lemma clampUnit_Fin (q : Q) : unitNumber (Detectors.clampUnit (Fin q)).
Proof.
  unfold Detectors.clampUnit, JsMath.min, JsMath.max, lt, unitNumber.
  destruct (Qle_bool 1 q) eqn:E1; cbn [negb].
  - replace (Qle_bool 1 0) with false by reflexivity. cbn [negb].
    exists 1. split; [reflexivity | lra].
  - apply Qle_bool_false in E1. destruct (Qle_bool q 0) eqn:E2; cbn [negb].
    + exists 0. split; [reflexivity | lra].
    + apply Qle_bool_false in E2. exists q. split; [reflexivity | lra].
Qed.

Lemma clampUnit_Inf (s : bool) : unitNumber (Detectors.clampUnit (Inf s)).
Proof.
  destruct s; cbn.
  - exists 0. split; [reflexivity | lra].
  - exists 1. split; [reflexivity | lra].
Qed.

Lemma clamped_ratio (a b : Q) :
  (a == 0 /\ b == 0 -> Detectors.clampUnit (div (Fin a) (Fin b)) = NaN)
  /\ (~ (a == 0 /\ b == 0) -> unitNumber (Detectors.clampUnit (div (Fin a) (Fin b)))).
Proof.
  unfold div. split.
  - intros [Ha Hb]. apply Qeq_bool_iff in Ha, Hb. now rewrite Ha, Hb.
  - intros Hn. destruct (Qeq_bool b 0) eqn:Eb.
    + destruct (Qeq_bool a 0) eqn:Ea.
      * exfalso. apply Hn. split; now apply Qeq_bool_iff.
      * apply clampUnit_Inf.
    + apply clampUnit_Fin.
Qed.

(** X13.  Each number normalizeRectTopLeft returns is finite and between 0
    and 1, except when the numerator and the page size it is divided by are
    both 0, where it is NaN. *)
Theorem normalizeRectTopLeft_range (x y width height pageWidth pageHeight : Q) :
  let r := Detectors.normalizeRectTopLeft x y width height pageWidth pageHeight in
  ((x == 0 /\ pageWidth == 0 -> NumberRect.x r = NaN)
   /\ (~ (x == 0 /\ pageWidth == 0) -> unitNumber (NumberRect.x r)))
  /\ ((y == 0 /\ pageHeight == 0 -> NumberRect.y r = NaN)
      /\ (~ (y == 0 /\ pageHeight == 0) -> unitNumber (NumberRect.y r)))
  /\ ((width == 0 /\ pageWidth == 0 -> NumberRect.width r = NaN)
      /\ (~ (width == 0 /\ pageWidth == 0) -> unitNumber (NumberRect.width r)))
  /\ ((height == 0 /\ pageHeight == 0 -> NumberRect.height r = NaN)
      /\ (~ (height == 0 /\ pageHeight == 0) -> unitNumber (NumberRect.height r))).
Proof.
  cbv zeta. unfold Detectors.normalizeRectTopLeft.
  cbn [NumberRect.x NumberRect.y NumberRect.width NumberRect.height].
  repeat split; apply clamped_ratio.
Qed.

Lemma normalizeRectTopLeft_range_witness :
  NumberRect.x (Detectors.normalizeRectTopLeft 0 10 20 5 0 100) = NaN
  /\ unitNumber (NumberRect.width (Detectors.normalizeRectTopLeft 0 10 20 5 0 100)).
Proof.
  destruct (normalizeRectTopLeft_range 0 10 20 5 0 100) as [[Hx _] [_ [[_ Hw] _]]].
  split.
  - apply Hx. split; reflexivity.
  - apply Hw. intros [H _]. vm_compute in H. discriminate.
Defined.

Lemma clampUnit_low (q : Q) :
  q <= 0 -> finiteValue (Detectors.clampUnit (Fin q)) 0.
Proof.
  intros Hq.
  unfold Detectors.clampUnit, JsMath.min, JsMath.max, lt, finiteValue.
  destruct (Qle_bool 1 q) eqn:E1; cbn [negb].
  - apply Qle_bool_iff in E1. lra.
  - destruct (Qle_bool q 0) eqn:E2; cbn [negb].
    + exists 0. split; reflexivity.
    + apply Qle_bool_false in E2. lra.
Qed.

Lemma clampUnit_high (q : Q) :
  1 <= q -> finiteValue (Detectors.clampUnit (Fin q)) 1.
Proof.
  intros Hq.
  unfold Detectors.clampUnit, JsMath.min, JsMath.max, lt, finiteValue.
  destruct (Qle_bool 1 q) eqn:E1; cbn [negb].
  - replace (Qle_bool 1 0) with false by reflexivity. cbn [negb].
    exists 1. split; reflexivity.
  - apply Qle_bool_false in E1. lra.
Qed.

(** X14.  On a page of positive width and height each number
    normalizeRectFromBottomLeft returns is finite and between 0 and 1, and
    the vertical axis is flipped: y is 0 when the top edge y + height of
    the rectangle is at or above the top of the page, and 1 when it is at
    or below the bottom of the page. *)
Theorem normalizeRectFromBottomLeft_on_page (x y width height pageWidth pageHeight : Q) :
  0 < pageWidth -> 0 < pageHeight ->
  let r := Detectors.normalizeRectFromBottomLeft x y width height pageWidth pageHeight in
  (unitNumber (NumberRect.x r) /\ unitNumber (NumberRect.y r)
   /\ unitNumber (NumberRect.width r) /\ unitNumber (NumberRect.height r))
  /\ (pageHeight <= y + height -> finiteValue (NumberRect.y r) 0)
  /\ (y + height <= 0 -> finiteValue (NumberRect.y r) 1).
Proof.
  intros Hw Hh r.
  unfold r, Detectors.normalizeRectFromBottomLeft, Detectors.normalizeRectTopLeft.
  cbn [NumberRect.x NumberRect.y NumberRect.width NumberRect.height].
  assert (Hdiv : forall a b, 0 < b -> div (Fin a) (Fin b) = Fin (a / b)).
  { intros a b Hb. unfold div.
    destruct (Qeq_bool b 0) eqn:E; [|reflexivity].
    apply Qeq_bool_iff in E. lra. }
  rewrite !Hdiv by assumption.
  split; [repeat split; apply clampUnit_Fin|]. split.
  - intros Htop. apply clampUnit_low. apply Qle_shift_div_r; lra.
  - intros Hbottom. apply clampUnit_high. apply Qle_shift_div_l; lra.
Qed.

Lemma normalizeRectFromBottomLeft_on_page_witness :
  unitNumber (NumberRect.y (Detectors.normalizeRectFromBottomLeft 10 20 30 40 100 200))
  /\ finiteValue
       (NumberRect.y (Detectors.normalizeRectFromBottomLeft 10 180 30 40 100 200)) 0.
Proof.
  split.
  - apply (normalizeRectFromBottomLeft_on_page 10 20 30 40 100 200);
      unfold Qlt; simpl; lia.
  - apply (normalizeRectFromBottomLeft_on_page 10 180 30 40 100 200);
      unfold Qlt, Qle; simpl; lia.
Defined.

End ClampedRects.

(** ** Non-maximum suppression *)

Lemma insertByArea_perm f l : Permutation (Detectors.insertByArea f l) (f :: l).
Proof.
  induction l as [|g l IH]; cbn [Detectors.insertByArea]; [reflexivity|].
  destruct (Qgtb _ _); [|reflexivity].
  rewrite IH. apply perm_swap.
Qed.

Lemma sortByArea_perm l : Permutation (Detectors.sortByArea l) l.
Proof.
  induction l as [|f l IH]; cbn; [reflexivity|].
  fold (Detectors.sortByArea l). rewrite insertByArea_perm. now constructor.
Qed.

Lemma insertByArea_sorted f l :
  StronglySorted largerFirst l -> StronglySorted largerFirst (Detectors.insertByArea f l).
Proof.
  induction l as [|g l IH]; intros Hs; cbn [Detectors.insertByArea].
  - repeat constructor.
  - inversion Hs as [|? ? Hl Hg]; subst.
    destruct (Qgtb (Detectors.fieldArea g) (Detectors.fieldArea f)) eqn:E.
    + apply Qgtb_lt in E. constructor; [now apply IH|].
      rewrite Forall_forall. intros h Hh.
      apply (Permutation_in _ (insertByArea_perm f l)) in Hh.
      destruct Hh as [<-|Hh].
      * unfold largerFirst. lra.
      * rewrite Forall_forall in Hg. now apply Hg.
    + apply Qgtb_le in E. constructor; [exact Hs|].
      constructor; [exact E|].
      rewrite Forall_forall in *. intros h Hh. specialize (Hg h Hh).
      unfold largerFirst in *. lra.
Qed.

Lemma sortByArea_sorted l : StronglySorted largerFirst (Detectors.sortByArea l).
Proof.
  induction l as [|f l IH]; cbn; [constructor|].
  now apply insertByArea_sorted.
Qed.

Lemma filter_sorted {A} (R : A -> A -> Prop) (keep : A -> bool) l :
  StronglySorted R l -> StronglySorted R (filter keep l).
Proof.
  induction 1 as [|a l Hs IH Ha]; cbn; [constructor|].
  destruct (keep a); [|exact IH].
  constructor; [exact IH|].
  rewrite Forall_forall in *. intros x Hx. apply filter_In in Hx. now apply Ha.
Qed.

Lemma nmsLoop_spec (turns : nat) (threshold : Q) :
  forall candidates kept,
    (length candidates <= turns)%nat ->
    StronglySorted largerFirst candidates ->
    exists chosen,
      Detectors.nmsLoop turns threshold candidates kept = kept ++ chosen
      /\ incl chosen candidates
      /\ StronglySorted largerFirst chosen
      /\ ForallOrdPairs (apart threshold) chosen
      /\ (forall f, In f candidates ->
            In f chosen \/ exists k, In k chosen /\ suppresses threshold k f)
      /\ (forall c rest, candidates = c :: rest -> exists rest', chosen = c :: rest').
Proof.
  induction turns as [|turns IH]; intros candidates kept Hlen Hs.
  - destruct candidates; [|cbn in Hlen; lia].
    exists []. cbn. rewrite app_nil_r.
    repeat split; try constructor; try easy.
  - destruct candidates as [|current rest].
    + exists []. cbn. rewrite app_nil_r.
      repeat split; try constructor; try easy.
    + cbn [Detectors.nmsLoop].
      set (keep := fun candidate : FieldPrediction.t =>
             negb (Qgeb (Detectors.rectIoU (FieldPrediction.rect current)
                                           (FieldPrediction.rect candidate))
                        threshold)).
      inversion Hs as [|? ? Hrest Hcur]; subst.
      destruct (IH (filter keep rest) (kept ++ [current])) as
        [chosen [Heq [Hincl [Hsorted [Hapart [Hcover _]]]]]].
      { pose proof (filter_length_le keep rest). cbn in Hlen. lia. }
      { now apply filter_sorted. }
      exists (current :: chosen). rewrite Heq, <- app_assoc. cbn [app].
      split; [reflexivity|].
      assert (Hin : forall f, In f chosen -> In f rest /\ keep f = true).
      { intros f Hf. apply Hincl in Hf. now apply filter_In in Hf. }
      split; [|split; [|split; [|split]]].
      * intros f [<-|Hf]; [now left | right; now apply Hin].
      * constructor; [exact Hsorted|].
        rewrite Forall_forall in *. intros f Hf. apply Hcur. now apply Hin.
      * constructor; [|exact Hapart].
        rewrite Forall_forall. intros f Hf. apply Hin in Hf. destruct Hf as [_ Hk].
        unfold keep in Hk. apply negb_true_iff in Hk.
        unfold apart. unfold Qgeb in Hk. apply Qle_bool_false in Hk. exact Hk.
      * intros f [<-|Hf]; [left; now left|].
        destruct (keep f) eqn:Ek.
        -- destruct (Hcover f) as [Hc|[k [Hk Hsup]]].
           { apply filter_In. now split. }
           { left. now right. }
           { right. exists k. split; [now right | exact Hsup]. }
        -- right. exists current. split; [now left|].
           split.
           ++ rewrite Forall_forall in Hcur. now apply Hcur.
           ++ unfold keep in Ek. apply negb_false_iff in Ek.
              now apply Qgeb_le in Ek.
      * intros c rest0 E. inversion E; subst. now exists chosen.
Qed.

(** X15.  applyNms returns fields of its input, listed largest area first;
    any two of them, the earlier against the later, have a rectIoU below the
    threshold; every input field is kept or overlaps a kept field of at
    least its area by the threshold or more; a non-empty input gives a
    non-empty result. *)
Theorem applyNms_keeps (fields : list FieldPrediction.t) (threshold : Q) :
  let kept := Detectors.applyNms fields threshold in
  incl kept fields
  /\ ForallOrdPairs (apart threshold) kept
  /\ (forall f, In f fields ->
        In f kept \/ exists k, In k kept /\ suppresses threshold k f)
  /\ (fields <> [] -> kept <> [])
  /\ StronglySorted largerFirst kept.
Proof.
  cbv zeta. unfold Detectors.applyNms.
  destruct (length fields <=? 1)%nat eqn:E.
  - apply Nat.leb_le in E.
    split; [apply incl_refl|]. split.
    + destruct fields as [|f [|g l]]; [constructor| |cbn in E; lia].
      constructor; constructor.
    + split; [now left|]. split; [easy|].
      destruct fields as [|f [|g l]]; [constructor| |cbn in E; lia].
      constructor; constructor.
  - destruct (nmsLoop_spec (length (Detectors.sortByArea fields)) threshold
                (Detectors.sortByArea fields) []) as
      [chosen [Heq [Hincl [Hsorted [Hapart [Hcover Hhead]]]]]].
    { lia. }
    { apply sortByArea_sorted. }
    rewrite Heq. cbn [app].
    split; [|split; [exact Hapart|split; [|split]]].
    + intros f Hf. apply Hincl in Hf.
      now apply (Permutation_in _ (sortByArea_perm fields)).
    + intros f Hf. apply Hcover.
      now apply (Permutation_in _ (Permutation_sym (sortByArea_perm fields))).
    + intros Hne. destruct (Detectors.sortByArea fields) as [|c rest] eqn:Es.
      * pose proof (sortByArea_perm fields) as Hp. rewrite Es in Hp.
        apply Permutation_nil in Hp. contradiction.
      * destruct (Hhead c rest eq_refl) as [rest' ->]. discriminate.
    + exact Hsorted.
Qed.

(* ================================================================== *)
(** * The raster detector after its passes *)

(** ** What merging keeps *)

Lemma containedIn_refl r : containedIn r r.
Proof. unfold containedIn. repeat split; lra. Qed.

Lemma containedIn_trans r s t : containedIn r s -> containedIn s t -> containedIn r t.
Proof. unfold containedIn. intros [? [? [? ?]]] [? [? [? ?]]]. repeat split; lra. Qed.

Lemma containedIn_height inner outer :
  containedIn inner outer -> Rect.height inner <= Rect.height outer.
Proof. unfold containedIn. intros [? [? [? ?]]]. lra. Qed.

Lemma mergeRects_contains (a b : Rect.t) :
  containedIn a (RasterHeuristics.mergeRects a b)
  /\ containedIn b (RasterHeuristics.mergeRects a b).
Proof.
  unfold containedIn, RasterHeuristics.mergeRects.
  cbn [Rect.x Rect.y Rect.width Rect.height].
  pose proof (Q.le_min_l (Rect.x a) (Rect.x b)).
  pose proof (Q.le_min_r (Rect.x a) (Rect.x b)).
  pose proof (Q.le_min_l (Rect.y a) (Rect.y b)).
  pose proof (Q.le_min_r (Rect.y a) (Rect.y b)).
  pose proof (Q.le_max_l (Rect.x a + Rect.width a) (Rect.x b + Rect.width b)).
  pose proof (Q.le_max_r (Rect.x a + Rect.width a) (Rect.x b + Rect.width b)).
  pose proof (Q.le_max_l (Rect.y a + Rect.height a) (Rect.y b + Rect.height b)).
  pose proof (Q.le_max_r (Rect.y a + Rect.height a) (Rect.y b + Rect.height b)).
  repeat split; lra.
Qed.

Lemma shouldMerge_same_type options a b :
  RasterHeuristics.shouldMerge options a b = true ->
  DetectedElement.type a = DetectedElement.type b.
Proof.
  unfold RasterHeuristics.shouldMerge.
  destruct (ElementType_beq (DetectedElement.type a) (DetectedElement.type b)) eqn:E;
    cbn [negb]; [|discriminate].
  intros _. now apply internal_ElementType_dec_bl.
Qed.

Lemma nth_markVisited (j k : nat) (visited : list bool) :
  nth k (markVisited j visited) false = true ->
  k = j \/ nth k visited false = true.
Proof.
  revert j k. induction visited as [|v visited IH]; intros j k H.
  - destruct j; cbn in H; destruct k; discriminate.
  - destruct j as [|j], k as [|k]; cbn in *; auto.
    destruct (IH j k H); auto.
Qed.

Lemma nth_markVisited_keeps (j k : nat) (visited : list bool) :
  nth k visited false = true -> nth k (markVisited j visited) false = true.
Proof.
  revert j k. induction visited as [|v visited IH]; intros j k H.
  - destruct k; discriminate.
  - destruct j as [|j], k as [|k]; cbn in *; auto.
Qed.

Section RasterMerge.

Variable options : DetectionOptions.t.

Lemma mergeInto_grows (rest : list DetectedElement.t) :
  forall current visited j,
    let result := RasterHeuristics.mergeInto options current visited j rest in
    DetectedElement.type (fst result) = DetectedElement.type current
    /\ containedIn (DetectedElement.rect current) (DetectedElement.rect (fst result)).
Proof.
  induction rest as [|candidate rest IH]; intros current visited j;
    cbn [RasterHeuristics.mergeInto].
  - split; [reflexivity | apply containedIn_refl].
  - destruct (nth j visited false); [apply IH|].
    destruct (RasterHeuristics.shouldMerge options current candidate); [|apply IH].
    match goal with
    | |- context [RasterHeuristics.mergeInto options ?c ?v ?n rest] =>
        destruct (IH c v n) as [Ht Hc]
    end.
    cbv zeta. split; [exact Ht|].
    eapply containedIn_trans; [|exact Hc].
    apply mergeRects_contains.
Qed.

Lemma mergeInto_marks (rest : list DetectedElement.t) :
  forall current visited j k,
    let result := RasterHeuristics.mergeInto options current visited j rest in
    nth k (snd result) false = true ->
    nth k visited false = true
    \/ exists e, (j <= k)%nat /\ nth_error rest (k - j) = Some e
         /\ DetectedElement.type e = DetectedElement.type current
         /\ containedIn (DetectedElement.rect e) (DetectedElement.rect (fst result)).
Proof.
  induction rest as [|candidate rest IH]; intros current visited j k;
    cbn [RasterHeuristics.mergeInto].
  - cbn. auto.
  - assert (Hshift : forall result : DetectedElement.t * list bool,
              (exists e, (S j <= k)%nat /\ nth_error rest (k - S j) = Some e
                 /\ DetectedElement.type e = DetectedElement.type current
                 /\ containedIn (DetectedElement.rect e)
                                (DetectedElement.rect (fst result))) ->
              exists e, (j <= k)%nat
                 /\ nth_error (candidate :: rest) (k - j) = Some e
                 /\ DetectedElement.type e = DetectedElement.type current
                 /\ containedIn (DetectedElement.rect e)
                                (DetectedElement.rect (fst result))).
    { intros result [e [Hk [He Hrest]]]. exists e. split; [lia|].
      split; [|exact Hrest].
      replace (k - j)%nat with (S (k - S j)) by lia. exact He. }
    destruct (nth j visited false) eqn:Ev.
    { cbv zeta. intros H. destruct (IH current visited (S j) k H) as [Hv|Hn];
        [now left | right; now apply Hshift]. }
    destruct (RasterHeuristics.shouldMerge options current candidate) eqn:Em.
    2:{ cbv zeta. intros H. destruct (IH current visited (S j) k H) as [Hv|Hn];
        [now left | right; now apply Hshift]. }
    cbv zeta. intros H.
    match type of H with
    | context [RasterHeuristics.mergeInto options ?c ?v ?n rest] =>
        destruct (IH c v n k H) as [Hv|Hn];
        pose proof (mergeInto_grows rest c v n) as [_ Hgrow]
    end.
    + apply nth_markVisited in Hv. destruct Hv as [->|Hv]; [|now left].
      right. exists candidate. split; [lia|].
      split; [now rewrite Nat.sub_diag|].
      split; [symmetry; exact (shouldMerge_same_type options _ _ Em)|].
      eapply containedIn_trans; [|exact Hgrow].
      apply mergeRects_contains.
    + right. apply Hshift. exact Hn.
Qed.

Lemma mergeFrom_tail (rest : list DetectedElement.t) :
  forall i visited merged,
    exists tail,
      RasterHeuristics.mergeFrom options i rest visited merged = merged ++ tail
      /\ (length tail <= length rest)%nat
      /\ (forall m, In m tail ->
            exists e, In e rest
              /\ DetectedElement.type m = DetectedElement.type e
              /\ containedIn (DetectedElement.rect e) (DetectedElement.rect m))
      /\ (forall e, In e rest ->
            (forall k e', nth_error rest k = Some e' ->
               nth (i + k) visited false = true -> coveredBy e' merged) ->
            coveredBy e (merged ++ tail)).
Proof.
  induction rest as [|element rest IH]; intros i visited merged;
    cbn [RasterHeuristics.mergeFrom].
  - exists []. rewrite app_nil_r. repeat split; easy.
  - assert (Hweaken : forall e more, coveredBy e merged -> coveredBy e (merged ++ more)).
    { intros e more [m [Hm Hrest]]. exists m. split; [|exact Hrest].
      apply in_or_app. now left. }
    destruct (nth i visited false) eqn:Ev.
    + destruct (IH (S i) visited merged) as [tail [Heq [Hlen [Hback Hcover]]]].
      exists tail. split; [exact Heq|]. split; [cbn; lia|]. split.
      * intros m Hm. destruct (Hback m Hm) as [e [He Hrest]].
        exists e. split; [now right | exact Hrest].
      * intros e He Hinv. destruct He as [<-|He].
        -- apply Hweaken. apply (Hinv 0%nat element); [reflexivity|].
           now rewrite Nat.add_0_r.
        -- apply Hcover; [exact He|]. intros k e' Hk Hv.
           apply (Hinv (S k) e'); [exact Hk|].
           now replace (i + S k)%nat with (S i + k)%nat by lia.
    + destruct (RasterHeuristics.mergeInto options element (markVisited i visited) (S i) rest)
        as [current visited'] eqn:Einto.
      pose proof (mergeInto_grows rest element (markVisited i visited) (S i)) as Hgrow.
      pose proof (fun k => mergeInto_marks rest element (markVisited i visited) (S i) k)
        as Hmarks.
      rewrite Einto in Hgrow, Hmarks. cbn [fst snd] in Hgrow, Hmarks.
      destruct Hgrow as [Htype Hcont].
      destruct (IH (S i) visited' (merged ++ [current]))
        as [tail [Heq [Hlen [Hback Hcover]]]].
      exists (current :: tail). rewrite Heq, <- app_assoc. cbn [app].
      split; [reflexivity|]. split; [cbn; lia|]. split.
      * intros m [<-|Hm].
        -- exists element. split; [now left|]. split; assumption.
        -- destruct (Hback m Hm) as [e [He Hrest]].
           exists e. split; [now right | exact Hrest].
      * intros e He Hinv.
        assert (Hcur : forall more, In current (merged ++ current :: more)).
        { intros more. apply in_or_app. right. now left. }
        destruct He as [<-|He].
        -- exists current. split; [apply Hcur|]. split; assumption.
        -- replace (merged ++ current :: tail) with ((merged ++ [current]) ++ tail)
             by (rewrite <- app_assoc; reflexivity).
           apply Hcover; [exact He|]. intros k e' Hk Hv.
           destruct (Hmarks (S i + k)%nat Hv) as [Hold|[e0 [_ [He0 [Ht0 Hc0]]]]].
           ++ apply nth_markVisited in Hold. destruct Hold as [Hold|Hold]; [lia|].
              apply Hweaken. apply (Hinv (S k) e'); [exact Hk|].
              now replace (i + S k)%nat with (S i + k)%nat by lia.
           ++ replace (S i + k - S i)%nat with k in He0 by lia.
              rewrite Hk in He0. inversion He0; subst e0.
              exists current. split; [apply in_or_app; right; now left|].
              split; [congruence | exact Hc0].
Qed.

Lemma nth_repeat_false (n k : nat) : nth k (repeat false n) false = false.
Proof.
  revert k. induction n as [|n IH]; intros [|k]; cbn; auto.
Qed.

Lemma raster_merge_spec (elements : list DetectedElement.t) :
  let merged := RasterHeuristics.mergeAdjacentFields options elements in
  (length merged <= length elements)%nat
  /\ (forall e, In e elements -> coveredBy e merged)
  /\ (forall m, In m merged ->
        exists e, In e elements
          /\ DetectedElement.type m = DetectedElement.type e
          /\ containedIn (DetectedElement.rect e) (DetectedElement.rect m)).
Proof.
  cbv zeta. unfold RasterHeuristics.mergeAdjacentFields.
  destruct (mergeFrom_tail elements 0 (repeat false (length elements)) [])
    as [tail [Heq [Hlen [Hback Hcover]]]].
  rewrite Heq. cbn [app] in *. split; [exact Hlen|]. split; [|exact Hback].
  intros e He. apply Hcover; [exact He|].
  intros k e' _ Hv. rewrite nth_repeat_false in Hv. discriminate.
Qed.

(** Merging switched off. *)

Lemma mergeInto_off (rest : list DetectedElement.t) :
  forall current visited j,
    (forall e, In e rest -> RasterHeuristics.shouldMerge options current e = false) ->
    RasterHeuristics.mergeInto options current visited j rest = (current, visited).
Proof.
  induction rest as [|candidate rest IH]; intros current visited j Hoff;
    cbn [RasterHeuristics.mergeInto]; [reflexivity|].
  rewrite (Hoff candidate) by now left.
  destruct (nth j visited false); apply IH; intros e He; apply Hoff; now right.
Qed.

Lemma markVisited_false_prefix (n m : nat) :
  markVisited n (repeat true n ++ repeat false (S m))
  = repeat true (S n) ++ repeat false m.
Proof.
  induction n as [|n IH]; cbn; [reflexivity|]. f_equal. exact IH.
Qed.

Lemma nth_true_false (n m : nat) :
  nth n (repeat true n ++ repeat false m) false = false.
Proof.
  induction n as [|n IH]; cbn; [destruct m; reflexivity | exact IH].
Qed.

Lemma mergeFrom_off (rest : list DetectedElement.t) :
  forall i merged,
    (forall a b, In a rest -> In b rest ->
       RasterHeuristics.shouldMerge options a b = false) ->
    RasterHeuristics.mergeFrom options i rest
      (repeat true i ++ repeat false (length rest)) merged
    = merged ++ rest.
Proof.
  induction rest as [|element rest IH]; intros i merged Hoff;
    cbn [RasterHeuristics.mergeFrom].
  - now rewrite app_nil_r.
  - rewrite nth_true_false.
    rewrite mergeInto_off.
    2:{ intros e He. apply Hoff; [now left | now right]. }
    cbn [length]. rewrite markVisited_false_prefix.
    rewrite IH.
    + now rewrite <- app_assoc.
    + intros a b Ha Hb. apply Hoff; now right.
Qed.

Lemma shouldMerge_threshold a b :
  DetectionOptions.mergeThreshold options <= 0 ->
  RasterHeuristics.shouldMerge options a b = false.
Proof.
  intros Hthr. unfold RasterHeuristics.shouldMerge.
  destruct (negb _); [reflexivity|]. cbv zeta.
  assert (Hclose : forall d, Qltb (Qabs d) (DetectionOptions.mergeThreshold options) = false).
  { intros d. destruct (Qltb _ _) eqn:E; [|reflexivity].
    apply Qltb_lt in E. pose proof (Qabs_nonneg d). lra. }
  now rewrite !Hclose.
Qed.

End RasterMerge.

(** X16.  mergeAdjacentFields of the raster detector returns no more
    elements than it is given; every input element lies inside the rectangle
    of an output element of its type, and every output element has the type
    of an input element and a rectangle around it. *)
Theorem raster_merge_covers (options : DetectionOptions.t)
    (elements : list DetectedElement.t) :
  let merged := RasterHeuristics.mergeAdjacentFields options elements in
  (length merged <= length elements)%nat
  /\ (forall e, In e elements -> coveredBy e merged)
  /\ (forall m, In m merged ->
        exists e, In e elements
          /\ DetectedElement.type m = DetectedElement.type e
          /\ containedIn (DetectedElement.rect e) (DetectedElement.rect m)).
Proof. apply raster_merge_spec. Qed.

(** X17.  With a mergeThreshold of zero or less, shouldMerge is never true
    and mergeAdjacentFields of the raster detector returns its input
    unchanged. *)
Theorem raster_merge_off (options : DetectionOptions.t)
    (elements : list DetectedElement.t) :
  DetectionOptions.mergeThreshold options <= 0 ->
  (forall a b, RasterHeuristics.shouldMerge options a b = false)
  /\ RasterHeuristics.mergeAdjacentFields options elements = elements.
Proof.
  intros Hthr. split; [intros a b; now apply shouldMerge_threshold|].
  unfold RasterHeuristics.mergeAdjacentFields.
  apply (mergeFrom_off options elements 0 []).
  intros a b _ _. now apply shouldMerge_threshold.
Qed.

(** X18.  Every element the raster detectFields returns is at least
    max(minTextFieldHeight, 1% of the page height) high and has a confidence
    of at least confidenceThreshold, whatever the passes find and with or
    without text elements. *)
Theorem raster_detectFields_output (passes : RasterHeuristics.Passes)
    (options : DetectionOptions.t) (imageData : ImageData.t)
    (pageWidth pageHeight : Q) (textElements : option (list TextBox.t)) :
  forall e,
    In e (snd (RasterHeuristics.detectFields passes options imageData
                 pageWidth pageHeight textElements)) ->
    minimumHeight options pageHeight <= Rect.height (DetectedElement.rect e)
    /\ DetectionOptions.confidenceThreshold options <= DetectedElement.confidence e.
Proof.
  intros e. unfold RasterHeuristics.detectFields. cbn [snd].
  intros He. apply filter_In in He. destruct He as [He Hc].
  split.
  2:{ apply Qgeb_le in Hc. exact Hc. }
  match type of He with
  | In e (RasterHeuristics.mergeAdjacentFields ?o ?l) =>
      destruct (raster_merge_spec o l) as [_ [_ Hback]];
      destruct (Hback e He) as [e0 [He0 [_ Hcont]]]
  end.
  apply containedIn_height in Hcont.
  assert (Hsize : forall l, In e0 (RasterHeuristics.filterByMinimumSize
             (DetectionOptions.setMaxFieldHeight options
                (Qmin (DetectionOptions.maxFieldHeight options) (pageHeight * (1 # 2))))
             l pageHeight) ->
           minimumHeight options pageHeight <= Rect.height (DetectedElement.rect e0)).
  { intros l Hl. unfold RasterHeuristics.filterByMinimumSize in Hl.
    apply filter_In in Hl. destruct Hl as [_ Hl].
    cbn [DetectionOptions.setMaxFieldHeight DetectionOptions.minTextFieldHeight] in Hl.
    unfold minimumHeight.
    destruct (Qltb (Rect.height (DetectedElement.rect e0)) _) eqn:E; [discriminate|].
    unfold Qltb in E. qbool. exact E. }
  destruct textElements as [texts|].
  - unfold RasterHeuristics.filterTextOverlaps in He0. apply filter_In in He0.
    destruct He0 as [He0 _]. specialize (Hsize _ He0). lra.
  - specialize (Hsize _ He0). lra.
Qed.

(* ================================================================== *)
(** * The editor's helpers *)

Section ImportedRects.

Import JsNumber.

Lemma clamp_Fin (v lo hi : Q) :
  lo <= hi ->
  exists q, PdfEditor.clamp (Fin v) (Fin lo) (Fin hi) = Fin q
    /\ lo <= q <= hi /\ (lo <= v <= hi -> q == v).
Proof.
  intros Hlh. unfold PdfEditor.clamp, JsMath.max, JsMath.min, lt.
  destruct (Qle_bool lo v) eqn:E1; cbn [negb].
  - apply Qle_bool_iff in E1.
    destruct (Qle_bool v hi) eqn:E2; cbn [negb].
    + apply Qle_bool_iff in E2. exists v. repeat split; auto; lra.
    + apply Qle_bool_false in E2. exists hi. repeat split; try lra.
  - apply Qle_bool_false in E1.
    destruct (Qle_bool lo hi) eqn:E2; cbn [negb].
    + exists lo. repeat split; try lra.
    + apply Qle_bool_false in E2. lra.
Qed.

Lemma div_Fin (p q : Q) : ~ q == 0 -> div (Fin p) (Fin q) = Fin (p / q).
Proof.
  intros Hq. unfold div. destruct (Qeq_bool q 0) eqn:E; [|reflexivity].
  apply Qeq_bool_iff in E. contradiction.
Qed.

Lemma normalizeExistingRect_spec (rect : Rect.t) (pageWidth pageHeight : Q) :
  ~ pageWidth == 0 -> ~ pageHeight == 0 ->
  exists x y w h,
    PdfEditor.normalizeExistingRect rect pageWidth pageHeight
    = NumberRect.mk (Fin x) (Fin y) (Fin w) (Fin h)
    /\ editorRect (Rect.mk x y w h)
    /\ ((2 # 100) <= Rect.width rect / pageWidth <= 1 ->
        w == Rect.width rect / pageWidth)
    /\ ((2 # 100) <= Rect.height rect / pageHeight <= 1 ->
        h == Rect.height rect / pageHeight)
    /\ (0 <= Rect.x rect / pageWidth <= 1 - w -> x == Rect.x rect / pageWidth)
    /\ (0 <= 1 - (Rect.y rect + Rect.height rect) / pageHeight <= 1 - h ->
        y == 1 - (Rect.y rect + Rect.height rect) / pageHeight).
Proof.
  intros Hw Hh. unfold PdfEditor.normalizeExistingRect. cbv zeta.
  cbn [add]. rewrite !div_Fin by assumption.
  destruct (clamp_Fin (Rect.width rect / pageWidth) (2 # 100) 1) as [w [Ew [Hwr Hwv]]];
    [lra|].
  destruct (clamp_Fin (Rect.height rect / pageHeight) (2 # 100) 1) as [h [Eh [Hhr Hhv]]];
    [lra|].
  rewrite Ew, Eh. cbn [PdfEditor.sub].
  destruct (clamp_Fin (Rect.x rect / pageWidth) 0 (1 - w)) as [x [Ex [Hxr Hxv]]];
    [lra|].
  destruct (clamp_Fin (1 - (Rect.y rect + Rect.height rect) / pageHeight) 0 (1 - h))
    as [y [Ey [Hyr Hyv]]]; [lra|].
  rewrite Ex, Ey. exists x, y, w, h.
  split; [reflexivity|].
  split.
  { unfold editorRect. cbn [Rect.x Rect.y Rect.width Rect.height].
    repeat split; lra. }
  repeat split; assumption.
Qed.

(** X19.  For a page whose width and height are not 0, normalizeExistingRect
    returns four finite numbers with width and height between 0.02 and 1, x
    and y not negative, x + width at most 1 and y + height at most 1,
    whatever the widget rectangle. *)
Theorem normalizeExistingRect_on_page (rect : Rect.t) (pageWidth pageHeight : Q) :
  ~ pageWidth == 0 -> ~ pageHeight == 0 ->
  exists r, finiteRect (PdfEditor.normalizeExistingRect rect pageWidth pageHeight) r
            /\ editorRect r.
Proof.
  intros Hw Hh.
  destruct (normalizeExistingRect_spec rect pageWidth pageHeight Hw Hh)
    as [x [y [w [h [E [Hr _]]]]]].
  exists (Rect.mk x y w h). split; [|exact Hr].
  rewrite E. unfold finiteRect, finiteValue.
  cbn [NumberRect.x NumberRect.y NumberRect.width NumberRect.height
       Rect.x Rect.y Rect.width Rect.height].
  repeat split; eexists; split; reflexivity.
Qed.

Lemma normalizeExistingRect_on_page_witness :
  exists r,
    finiteRect (PdfEditor.normalizeExistingRect (Rect.mk (-30) 700 1000 5) 612 792) r
    /\ editorRect r.
Proof.
  apply (normalizeExistingRect_on_page (Rect.mk (-30) 700 1000 5) 612 792);
    intros H; vm_compute in H; discriminate.
Defined.

End ImportedRects.

(** ** Unique field names *)

Lemma append_inj_head (s a b : string) :
  String.append s a = String.append s b -> a = b.
Proof.
  induction s as [|c s IH]; cbn; intros H; [exact H|].
  inversion H. auto.
Qed.

Lemma append_longer (s : string) (c : Ascii.ascii) (t : string) :
  s <> String.append s (String c t).
Proof.
  induction s as [|d s IH]; cbn; intros H; [discriminate|].
  inversion H. auto.
Qed.

Lemma decimal_inj (n m : nat) : PdfEditor.decimal n = PdfEditor.decimal m -> n = m.
Proof.
  unfold PdfEditor.decimal. intros H.
  apply Unsigned.to_uint_inj.
  apply (f_equal NilEmpty.uint_of_string) in H.
  rewrite !NilEmpty.usu in H. now inversion H.
Qed.

Section Names.

Variable trim : string -> string.

Local Abbreviation candidateName := (PdfEditor.candidateName trim).

Lemma candidateName_inj (baseName : string) (j k : nat) :
  candidateName baseName j = candidateName baseName k -> j = k.
Proof.
  unfold PdfEditor.candidateName.
  destruct (j =? 1)%nat eqn:Ej, (k =? 1)%nat eqn:Ek; intros H.
  - apply Nat.eqb_eq in Ej, Ek. lia.
  - exfalso. cbn in H. eapply append_longer. exact H.
  - exfalso. cbn in H. eapply append_longer. symmetry. exact H.
  - apply append_inj_head in H. apply append_inj_head in H.
    now apply decimal_inj.
Qed.

Lemma has_In (used : list string) (candidate : string) :
  existsb (String.eqb candidate) used = true <-> In candidate used.
Proof.
  rewrite existsb_exists. split.
  - intros [x [Hx E]]. apply String.eqb_eq in E. now subst.
  - intros H. exists candidate. split; [exact H | apply String.eqb_refl].
Qed.

Lemma uniqueLoop_spec (used : list string) (baseName : string) (turns : nat) :
  forall k, (1 <= k)%nat ->
    match PdfEditor.uniqueLoop trim turns used baseName (candidateName baseName k) k with
    | Some name =>
        exists j, (k <= j < k + turns)%nat
          /\ name = candidateName baseName j /\ ~ In name used
          /\ forall i, (k <= i < j)%nat -> In (candidateName baseName i) used
    | None =>
        forall i, (k <= i < k + turns)%nat -> In (candidateName baseName i) used
    end.
Proof.
  induction turns as [|turns IH]; intros k Hk; cbn [PdfEditor.uniqueLoop].
  - intros i Hi. lia.
  - destruct (existsb (String.eqb (candidateName baseName k)) used) eqn:E.
    + apply has_In in E. cbv zeta.
      assert (Hnext : String.append (PdfEditor.trimmedOrField trim baseName)
                        (String.append " " (PdfEditor.decimal (S k)))
                      = candidateName baseName (S k)).
      { unfold PdfEditor.candidateName.
        replace (S k =? 1)%nat with false; [reflexivity|].
        symmetry. apply Nat.eqb_neq. lia. }
      rewrite Hnext. specialize (IH (S k) ltac:(lia)).
      destruct (PdfEditor.uniqueLoop trim turns used baseName
                  (candidateName baseName (S k)) (S k)) as [name|].
      * destruct IH as [j [Hj [Hname [Hfresh Hbefore]]]].
        exists j. split; [lia|]. split; [exact Hname|]. split; [exact Hfresh|].
        intros i Hi. destruct (Nat.eq_dec i k) as [->|Hne]; [exact E|].
        apply Hbefore. lia.
      * intros i Hi. destruct (Nat.eq_dec i k) as [->|Hne]; [exact E|].
        apply IH. lia.
    + exists k. split; [lia|]. split; [reflexivity|]. split.
      * intros H. apply has_In in H. congruence.
      * intros i Hi. lia.
Qed.

Lemma candidates_NoDup (baseName : string) (start count : nat) :
  NoDup (map (candidateName baseName) (seq start count)).
Proof.
  apply Injective_map_NoDup; [|apply seq_NoDup].
  intros j k. apply candidateName_inj.
Qed.

Lemma ensureUniqueFieldName_spec (baseName : string) (used : list string) :
  exists name k,
    PdfEditor.ensureUniqueFieldName trim baseName used = Some (name, used ++ [name])
    /\ ~ In name used
    /\ (1 <= k <= S (length used))%nat
    /\ name = candidateName baseName k
    /\ forall i, (1 <= i < k)%nat -> In (candidateName baseName i) used.
Proof.
  unfold PdfEditor.ensureUniqueFieldName.
  pose proof (uniqueLoop_spec used baseName (S (length used)) 1 (le_n 1)) as H.
  change (candidateName baseName 1) with (PdfEditor.trimmedOrField trim baseName) in H.
  destruct (PdfEditor.uniqueLoop trim (S (length used)) used baseName
              (PdfEditor.trimmedOrField trim baseName) 1) as [name|].
  - destruct H as [j [Hj [Hname [Hfresh Hbefore]]]].
    exists name, j. split; [reflexivity|]. split; [exact Hfresh|].
    split; [lia|]. split; [exact Hname | exact Hbefore].
  - exfalso.
    assert (Hincl : incl (map (candidateName baseName) (seq 1 (S (length used)))) used).
    { intros c Hc. apply in_map_iff in Hc. destruct Hc as [i [<- Hi]].
      apply in_seq in Hi. apply H. lia. }
    apply NoDup_incl_length in Hincl; [|apply candidates_NoDup].
    rewrite length_map, length_seq in Hincl. lia.
Qed.

Lemma uniqueNames_spec (baseNames : list string) :
  forall used,
    exists names,
      PdfEditor.uniqueNames trim baseNames used = Some (names, used ++ names)
      /\ length names = length baseNames
      /\ NoDup names
      /\ (forall name, In name names -> ~ In name used).
Proof.
  induction baseNames as [|baseName rest IH]; intros used; cbn [PdfEditor.uniqueNames].
  - exists []. rewrite app_nil_r. repeat split; [constructor | easy].
  - destruct (ensureUniqueFieldName_spec baseName used) as [name [k [E [Hfresh _]]]].
    rewrite E.
    destruct (IH (used ++ [name])) as [names [E' [Hlen [Hnd Hnew]]]].
    rewrite E'. exists (name :: names). rewrite <- app_assoc. cbn [app].
    split; [reflexivity|]. split; [cbn; now rewrite Hlen|]. split.
    + constructor; [|exact Hnd]. intros Hin. apply (Hnew name Hin).
      apply in_or_app. right. now left.
    + intros n [<-|Hn]; [exact Hfresh|].
      intros Hu. apply (Hnew n Hn). apply in_or_app. now left.
Qed.

End Names.

(** X21.  ensureUniqueFieldName always returns (within size-of-set + 1 tests
    of the loop condition): the name is not in the set before the call and
    is added to it, and it is the first name not in the set in the sequence
    base, 'base 2', 'base 3', ..., where base is the trimmed name or
    'Field'. *)
Theorem ensureUniqueFieldName_fresh (trim : string -> string)
    (baseName : string) (used : list string) :
  exists name k,
    PdfEditor.ensureUniqueFieldName trim baseName used = Some (name, used ++ [name])
    /\ ~ In name used
    /\ (1 <= k <= S (length used))%nat
    /\ name = PdfEditor.candidateName trim baseName k
    /\ forall i, (1 <= i < k)%nat -> In (PdfEditor.candidateName trim baseName i) used.
Proof. apply ensureUniqueFieldName_spec. Qed.

(** X22.  Successive calls of ensureUniqueFieldName on one set, one per base
    name, return as many names as base names, pairwise distinct and none of
    them in the set at the start; the set ends as the start set followed by
    these names. *)
Theorem uniqueNames_distinct (trim : string -> string) (baseNames used : list string) :
  exists names,
    PdfEditor.uniqueNames trim baseNames used = Some (names, used ++ names)
    /\ length names = length baseNames
    /\ NoDup names
    /\ (forall name, In name names -> ~ In name used).
Proof. apply uniqueNames_spec. Qed.

(** ** Standalone lines *)

Lemma standaloneLines_filtered (options : DetectionOptions.t) (pageHeight : Q)
    (horizontalLines : list HorizontalLine.t) :
  2 < minimumHeight options pageHeight ->
  RasterHeuristics.filterByMinimumSize options (standaloneLines horizontalLines) pageHeight
  = [].
Proof.
  intros Hmin. unfold RasterHeuristics.filterByMinimumSize, standaloneLines.
  induction horizontalLines as [|line rest IH]; [reflexivity|].
  cbn [map filter DetectedElement.rect Rect.height].
  unfold minimumHeight in Hmin.
  replace (Qltb 2 (Qmax (DetectionOptions.minTextFieldHeight options)
                        (pageHeight * (1 # 100)))) with true.
  - exact IH.
  - symmetry. unfold Qltb. apply negb_true_iff.
    destruct (Qle_bool _ 2) eqn:E; [|reflexivity].
    apply Qle_bool_iff in E. lra.
Qed.

Lemma filterByMinimumSize_app options a b pageHeight :
  RasterHeuristics.filterByMinimumSize options (a ++ b) pageHeight
  = RasterHeuristics.filterByMinimumSize options a pageHeight
    ++ RasterHeuristics.filterByMinimumSize options b pageHeight.
Proof. unfold RasterHeuristics.filterByMinimumSize. apply filter_app. Qed.

Lemma standalone_lines_filtered_out (passes : RasterHeuristics.Passes)
    (options : DetectionOptions.t) (imageData : ImageData.t)
    (pageWidth pageHeight : Q) (textElements : option (list TextBox.t))
    (horizontalLines : list HorizontalLine.t) :
  2 < minimumHeight options pageHeight ->
  RasterHeuristics.detectStandaloneLines passes imageData pageWidth pageHeight
  = standaloneLines horizontalLines ->
  RasterHeuristics.detectFields passes options imageData pageWidth pageHeight
    textElements
  = RasterHeuristics.detectFields (withoutStandaloneLines passes) options imageData
      pageWidth pageHeight textElements.
Proof.
  intros Hmin Hlines. unfold RasterHeuristics.detectFields.
  cbn [withoutStandaloneLines RasterHeuristics.detectTextFields
       RasterHeuristics.detectCheckboxes RasterHeuristics.detectRadioButtons
       RasterHeuristics.detectSignatureAreas RasterHeuristics.detectStandaloneLines].
  rewrite Hlines.
  set (o := DetectionOptions.setMaxFieldHeight options _).
  assert (Ho : minimumHeight o pageHeight = minimumHeight options pageHeight)
    by reflexivity.
  rewrite !app_assoc.
  rewrite (filterByMinimumSize_app o _ (standaloneLines horizontalLines)).
  rewrite (filterByMinimumSize_app o _ []).
  rewrite standaloneLines_filtered by (rewrite Ho; exact Hmin).
  reflexivity.
Qed.

(* ================================================================== *)
(** * The detection tester *)

Lemma bestFrom_spec (used : list nat) (expectedField : DetectedElement.t)
    (detected : list DetectedElement.t) (rest : list DetectedElement.t) :
  forall before best,
    detected = before ++ rest ->
    bestSoFar expectedField detected used (length before) best ->
    bestSoFar expectedField detected used (length detected)
      (DetectionTester.bestFrom used expectedField (length before) rest best).
Proof.
  induction rest as [|d rest IH]; intros before best Hsplit Hbest;
    cbn [DetectionTester.bestFrom].
  - assert (E : length detected = length before)
      by (rewrite Hsplit, app_nil_r; reflexivity).
    rewrite E. exact Hbest.
  - assert (Hsplit' : detected = (before ++ [d]) ++ rest)
      by (rewrite <- app_assoc; exact Hsplit).
    assert (Hlen : length (before ++ [d]) = S (length before))
      by (rewrite length_app; cbn; lia).
    assert (Hd : nth_error detected (length before) = Some d).
    { rewrite Hsplit, nth_error_app2, Nat.sub_diag by lia. reflexivity. }
    specialize (IH (before ++ [d])). rewrite Hlen in IH.
    destruct (setHas used (length before)) eqn:Eu.
    { apply IH; [exact Hsplit'|]. apply setHas_In in Eu.
      destruct best as [[[b f] r]|]; cbn in *.
      - destruct Hbest as [H1 [H2 [H3 [H4 H5]]]]. repeat split; try assumption.
        intros j other Hj Hn Hu. destruct (Nat.eq_dec j (length before)) as [->|Hne];
          [contradiction|]. apply (H5 j other); [lia | assumption | assumption].
      - intros j other Hj Hn Hu. destruct (Nat.eq_dec j (length before)) as [->|Hne];
          [contradiction|]. apply (Hbest j other); [lia | assumption | assumption]. }
    apply setHas_not_In in Eu. cbv zeta.
    set (ratio := DetectionTester.calculateOverlapRatio
                    (DetectedElement.rect expectedField) (DetectedElement.rect d)).
    destruct (Qgtb ratio (3 # 10)) eqn:E3; cbn [andb].
    + apply Qgtb_lt in E3.
      destruct best as [[[b f] r]|]; cbn [snd].
      * destruct Hbest as [H1 [H2 [H3 [H4 H5]]]].
        destruct (Qgtb ratio r) eqn:Er.
        -- apply Qgtb_lt in Er. apply IH; [exact Hsplit'|].
           cbn. repeat split; try assumption; try reflexivity.
           intros j other Hj Hn Hu.
           destruct (Nat.eq_dec j (length before)) as [->|Hne].
           ++ rewrite Hd in Hn. inversion Hn; subst other. fold ratio. lra.
           ++ specialize (H5 j other ltac:(lia) Hn Hu). lra.
        -- apply Qgtb_le in Er. apply IH; [exact Hsplit'|].
           cbn. repeat split; try assumption.
           intros j other Hj Hn Hu.
           destruct (Nat.eq_dec j (length before)) as [->|Hne].
           ++ rewrite Hd in Hn. inversion Hn; subst other. exact Er.
           ++ apply (H5 j other); [lia | assumption | assumption].
      * apply IH; [exact Hsplit'|].
        cbn. repeat split; try assumption; try reflexivity.
        intros j other Hj Hn Hu.
        destruct (Nat.eq_dec j (length before)) as [->|Hne].
        -- rewrite Hd in Hn. inversion Hn; subst other. fold ratio. lra.
        -- cbn in Hbest. specialize (Hbest j other ltac:(lia) Hn Hu). lra.
    + apply Qgtb_le in E3. apply IH; [exact Hsplit'|].
      destruct best as [[[b f] r]|]; cbn in *.
      * destruct Hbest as [H1 [H2 [H3 [H4 H5]]]]. repeat split; try assumption.
        intros j other Hj Hn Hu.
        destruct (Nat.eq_dec j (length before)) as [->|Hne].
        -- rewrite Hd in Hn. inversion Hn; subst other. fold ratio. lra.
        -- apply (H5 j other); [lia | assumption | assumption].
      * intros j other Hj Hn Hu.
        destruct (Nat.eq_dec j (length before)) as [->|Hne].
        -- rewrite Hd in Hn. inversion Hn; subst other. exact E3.
        -- apply (Hbest j other); [lia | assumption | assumption].
Qed.

Lemma bestFrom_all (used : list nat) (expectedField : DetectedElement.t)
    (detected : list DetectedElement.t) :
  bestSoFar expectedField detected used (length detected)
    (DetectionTester.bestFrom used expectedField 0 detected None).
Proof.
  apply (bestFrom_spec used expectedField detected detected []); [reflexivity|].
  cbn. intros j other Hj. lia.
Qed.

Lemma matchField_unfold (detected : list DetectedElement.t)
    (matches : list FieldMatch.t) (used : list nat) (e : DetectedElement.t) :
  DetectionTester.matchField detected (matches, used) e
  = match DetectionTester.bestFrom used e 0 detected None with
    | Some (index, found, overlapRatio) =>
        (matches ++ [FieldMatch.mk e found overlapRatio
           (ElementType_beq (DetectedElement.type e) (DetectedElement.type found))
           (DetectionTester.assessMatchQuality overlapRatio
              (ElementType_beq (DetectedElement.type e) (DetectedElement.type found)))],
         used ++ [index])
    | None => (matches, used)
    end.
Proof. reflexivity. Qed.

Lemma findMatches_fold (detected : list DetectedElement.t)
    (expected : list DetectedElement.t) :
  forall (todo : list DetectedElement.t) (matches : list FieldMatch.t) (used : list nat),
    incl todo expected ->
    NoDup used ->
    length matches = length used ->
    (forall t m index, nth_error matches t = Some m -> nth_error used t = Some index ->
       testerMatch expected detected (firstn t used) m index) ->
    let result := fold_left (DetectionTester.matchField detected) todo (matches, used) in
    NoDup (snd result)
    /\ length (fst result) = length (snd result)
    /\ (length (fst result) <= length matches + length todo)%nat
    /\ (forall t m index, nth_error (fst result) t = Some m ->
          nth_error (snd result) t = Some index ->
          testerMatch expected detected (firstn t (snd result)) m index).
Proof.
  induction todo as [|e todo IH]; intros matches used Hincl Hnd Hlen Hinv;
    cbn [fold_left].
  - cbn. split; [exact Hnd|]. split; [exact Hlen|]. split; [lia | exact Hinv].
  - rewrite (matchField_unfold detected matches used e).
    pose proof (bestFrom_all used e detected) as Hbest.
    destruct (DetectionTester.bestFrom used e 0 detected None) as [[[b f] r]|].
    + cbn in Hbest. destruct Hbest as [H1 [H2 [H3 [H4 H5]]]].
      set (m0 := FieldMatch.mk e f r
                   (ElementType_beq (DetectedElement.type e) (DetectedElement.type f))
                   (DetectionTester.assessMatchQuality r
                      (ElementType_beq (DetectedElement.type e)
                                       (DetectedElement.type f)))).
      destruct (IH (matches ++ [m0]) (used ++ [b])) as [S1 [S2 [S3 S4]]].
      * intros x Hx. apply Hincl. now right.
      * now apply NoDup_snoc.
      * rewrite !length_app. cbn. lia.
      * intros t m index Hm Hi.
        destruct (Nat.lt_ge_cases t (length used)) as [Hlt|Hge].
        -- rewrite nth_error_app1 in Hm by lia.
           rewrite nth_error_app1 in Hi by lia.
           rewrite firstn_app. replace (t - length used)%nat with 0%nat by lia.
           cbn [firstn]. rewrite app_nil_r. now apply Hinv.
        -- rewrite nth_error_app2 in Hm by lia.
           rewrite nth_error_app2 in Hi by lia.
           destruct (t - length used)%nat as [|n] eqn:En.
           2:{ destruct n; discriminate. }
           rewrite Hlen in Hm. rewrite En in Hm. cbn in Hm, Hi.
           inversion Hm; subst m. inversion Hi; subst index.
           assert (Ht : t = length used) by lia. subst t.
           rewrite firstn_app, Nat.sub_diag, firstn_all. cbn [firstn].
           rewrite app_nil_r.
           unfold testerMatch, m0. cbn.
           repeat split; try assumption; try reflexivity.
           ++ apply Hincl. now left.
           ++ intros j other Hn Hu. apply (H5 j other); try assumption.
              apply nth_error_Some. congruence.
      * cbv zeta. split; [exact S1|]. split; [exact S2|]. split; [|exact S4].
        rewrite length_app in S3. cbn in S3 |- *. lia.
    + destruct (IH matches used) as [S1 [S2 [S3 S4]]]; try assumption.
      { intros x Hx. apply Hincl. now right. }
      cbv zeta. split; [exact S1|]. split; [exact S2|]. split; [cbn; lia | exact S4].
Qed.

(** X23.  findMatches of the tester uses no detection twice and returns at
    most as many matches as expected fields and as detections; each match
    pairs an expected field with the detection at its index, records their
    overlap ratio, which is above 0.3 and no less than the ratio of any
    detection not used before, and records typeMatch and quality as computed
    from them. *)
Theorem findMatches_valid (expected detected : list DetectedElement.t) :
  let matches := DetectionTester.findMatches expected detected in
  let used := snd (DetectionTester.findMatchesRun expected detected) in
  NoDup used
  /\ length matches = length used
  /\ (length matches <= length expected)%nat
  /\ (length matches <= length detected)%nat
  /\ (forall t m index, nth_error matches t = Some m -> nth_error used t = Some index ->
        testerMatch expected detected (firstn t used) m index).
Proof.
  cbv zeta. unfold DetectionTester.findMatches, DetectionTester.findMatchesRun.
  destruct (findMatches_fold detected expected expected [] [])
    as [H1 [H2 [H3 H4]]].
  - apply incl_refl.
  - constructor.
  - reflexivity.
  - intros t m index Hm. destruct t; discriminate.
  - split; [exact H1|]. split; [exact H2|]. split; [exact H3|]. split; [|exact H4].
    rewrite H2.
    assert (Hbound : incl (snd (fold_left (DetectionTester.matchField detected)
                                  expected ([], [])))
                          (seq 0 (length detected))).
    { intros index Hin. apply In_nth_error in Hin. destruct Hin as [t Ht].
      assert (Hm : exists m, nth_error (fst (fold_left (DetectionTester.matchField detected)
                                  expected ([], []))) t = Some m).
      { destruct (nth_error (fst _) t) eqn:E; [eauto|].
        apply nth_error_None in E. rewrite H2 in E.
        assert (nth_error (snd (fold_left (DetectionTester.matchField detected)
                                  expected ([], []))) t <> None) by congruence.
        apply nth_error_Some in H. lia. }
      destruct Hm as [m Hm]. destruct (H4 t m index Hm Ht) as [_ [Hd _]].
      apply in_seq. split; [lia|]. cbn. apply nth_error_Some. congruence. }
    apply NoDup_incl_length in Hbound; [|exact H1].
    now rewrite length_seq in Hbound.
Qed.

(* ================================================================== *)
(** * Instances and closing facts *)

Lemma greedyMatch_maximal_witness :
  let st := Evaluate.acceptLoop FText [Instance.mk 0%Z smokeTextTruth]
              [Instance.mk 0%Z smokeNearPrediction] (1 # 2) in
  In 0%nat (Evaluate.matchedTruth st) \/ In 0%nat (Evaluate.matchedPredictions st).
Proof.
  apply (greedyMatch_maximal FText [Instance.mk 0%Z smokeTextTruth]
           [Instance.mk 0%Z smokeNearPrediction] (1 # 2) 0 0
           (Instance.mk 0%Z smokeTextTruth) (Instance.mk 0%Z smokeNearPrediction)).
  - reflexivity.
  - reflexivity.
  - reflexivity.
  - apply Qle_bool_iff. vm_compute. reflexivity.
Defined.

Lemma raster_merge_off_witness :
  RasterHeuristics.mergeAdjacentFields noMergeOptions [leftBox; rightBox]
  = [leftBox; rightBox].
Proof.
  apply (raster_merge_off noMergeOptions [leftBox; rightBox]).
  vm_compute. discriminate.
Defined.

Lemma raster_detectFields_output_witness :
  minimumHeight DetectionOptions.defaults 792 <= 20 /\ (3 # 10) <= (5 # 10).
Proof.
  apply (raster_detectFields_output fixedRasterPasses DetectionOptions.defaults
           blankImage 612 792 None
           (DetectedElement.mk EText (Rect.mk 10 10 100 20) (5 # 10))).
  vm_compute. left. reflexivity.
Defined.


(* ================================================================== *)
(** * The pixel passes *)

(** ** Loop counters *)

Lemma inject_nat_nonneg (k : nat) : 0 <= inject_Z (Z.of_nat k).
Proof. change 0 with (inject_Z 0). rewrite <- Zle_Qle. lia. Qed.

Lemma Qlt_div_mult (k d s : Q) : 0 < s -> k < d / s -> k * s < d.
Proof.
  intros Hs H. apply (proj2 (Qmult_lt_r _ _ s Hs)) in H.
  assert (E : d / s * s == d) by (field; lra). lra.
Qed.

Lemma Qle_div_mult (k d s : Q) : 0 < s -> k <= d / s -> k * s <= d.
Proof.
  intros Hs H. apply (Qmult_le_compat_r _ _ s) in H; [|lra].
  assert (E : d / s * s == d) by (field; lra). lra.
Qed.

Lemma countUp_In (start bound step q : Q) :
  0 < step ->
  In q (countUp start bound step) <->
  exists k : nat, q = start + inject_Z (Z.of_nat k) * step /\ q < bound.
Proof.
  intros Hstep. unfold countUp. rewrite in_map_iff. split.
  - intros [k [<- Hk]]. exists k. split; [reflexivity|].
    apply in_seq in Hk.
    pose proof (Qceiling_lt ((bound - start) / step)) as Hc.
    assert (Hle : inject_Z (Z.of_nat k)
                  <= inject_Z (Qceiling ((bound - start) / step) - 1)).
    { rewrite <- Zle_Qle. lia. }
    assert (Hlt : inject_Z (Z.of_nat k) < (bound - start) / step) by lra.
    apply Qlt_div_mult in Hlt; [|exact Hstep]. lra.
  - intros [k [-> Hk]]. exists k. split; [reflexivity|].
    apply in_seq. split; [lia|]. rewrite Nat.add_0_l.
    assert (Hlt : inject_Z (Z.of_nat k) < (bound - start) / step)
      by (apply Qlt_shift_div_l; lra).
    pose proof (Qle_ceiling ((bound - start) / step)) as Hc.
    assert (Hz : inject_Z (Z.of_nat k) < inject_Z (Qceiling ((bound - start) / step)))
      by lra.
    rewrite <- Zlt_Qlt in Hz. lia.
Qed.

Lemma countUpTo_In (start bound step q : Q) :
  0 < step ->
  In q (countUpTo start bound step) <->
  exists k : nat, q = start + inject_Z (Z.of_nat k) * step /\ q <= bound.
Proof.
  intros Hstep. unfold countUpTo. rewrite in_map_iff. split.
  - intros [k [<- Hk]]. exists k. split; [reflexivity|].
    apply in_seq in Hk.
    pose proof (Qfloor_le ((bound - start) / step)) as Hc.
    assert (Hle : inject_Z (Z.of_nat k) <= inject_Z (Qfloor ((bound - start) / step))).
    { rewrite <- Zle_Qle. lia. }
    assert (Hlt : inject_Z (Z.of_nat k) <= (bound - start) / step) by lra.
    apply Qle_div_mult in Hlt; [|exact Hstep]. lra.
  - intros [k [-> Hk]]. exists k. split; [reflexivity|].
    apply in_seq. split; [lia|]. rewrite Nat.add_0_l.
    assert (Hlt : inject_Z (Z.of_nat k) <= (bound - start) / step)
      by (apply Qle_shift_div_l; lra).
    pose proof (Qlt_floor ((bound - start) / step)) as Hc.
    assert (Hz : inject_Z (Z.of_nat k)
                 < inject_Z (Qfloor ((bound - start) / step) + 1))
      by exact (Qle_lt_trans _ _ _ Hlt Hc).
    rewrite <- Zlt_Qlt in Hz. lia.
Qed.

Lemma countUp_bounds (start bound step q : Q) :
  0 < step -> In q (countUp start bound step) -> start <= q < bound.
Proof.
  intros Hstep Hq. apply countUp_In in Hq; [|exact Hstep].
  destruct Hq as [k [-> Hk]]. split; [|exact Hk].
  pose proof (inject_nat_nonneg k). nra.
Qed.

Lemma countUpTo_bounds (start bound step q : Q) :
  0 < step -> In q (countUpTo start bound step) -> start <= q <= bound.
Proof.
  intros Hstep Hq. apply countUpTo_In in Hq; [|exact Hstep].
  destruct Hq as [k [-> Hk]]. split; [|exact Hk].
  pose proof (inject_nat_nonneg k). nra.
Qed.

Lemma firstSome_none {A B : Type} (body : A -> option B) (l : list A) :
  (forall a, In a l -> body a = None) -> firstSome body l = None.
Proof.
  induction l as [|a l IH]; intros H; cbn; [reflexivity|].
  rewrite (H a) by now left. apply IH. intros b Hb. apply H. now right.
Qed.

Lemma firstUntil_none {A B : Type} (stop : A -> bool) (body : A -> option B)
    (l : list A) :
  (forall a, In a l -> body a = None) -> firstUntil stop body l = None.
Proof.
  induction l as [|a l IH]; intros H; cbn; [reflexivity|].
  destruct (stop a); [reflexivity|].
  rewrite (H a) by now left. apply IH. intros b Hb. apply H. now right.
Qed.

Lemma firstUntil_some {A B : Type} (stop : A -> bool) (body : A -> option B)
    (l : list A) (b : B) :
  firstUntil stop body l = Some b ->
  exists a, In a l /\ stop a = false /\ body a = Some b.
Proof.
  induction l as [|a l IH]; cbn; [discriminate|].
  destruct (stop a) eqn:Es; [discriminate|].
  destruct (body a) as [b'|] eqn:Eb.
  - intros E. inversion E; subst. exists a. auto.
  - intros E. destruct (IH E) as [a' [Hin Hrest]]. exists a'. auto.
Qed.

Lemma firstSome_some {A B : Type} (body : A -> option B) (l : list A) (b : B) :
  firstSome body l = Some b -> exists a, In a l /\ body a = Some b.
Proof.
  induction l as [|a l IH]; cbn; [discriminate|].
  destruct (body a) as [b'|] eqn:Eb.
  - intros E. inversion E; subst. exists a. auto.
  - intros E. destruct (IH E) as [a' [Hin Hrest]]. exists a'. auto.
Qed.

Lemma flat_map_empty {A B : Type} (f : A -> list B) (l : list A) :
  (forall a, In a l -> f a = []) -> flat_map f l = [].
Proof.
  induction l as [|a l IH]; intros H; cbn; [reflexivity|].
  rewrite (H a) by now left. cbn. apply IH. intros b Hb. apply H. now right.
Qed.

(** ** A page without dark pixels *)

Section BlankPage.

Import JsNumber.

Variable data : list Z.
Hypothesis bright : noDarkByte data.

Lemma readNumber_bright (index : Q) (v : Z) :
  readNumber data index = Some v -> (140 <= v)%Z.
Proof.
  unfold readNumber, readElement.
  destruct (Qeq_bool _ _); [|discriminate].
  destruct (Qfloor index <? 0)%Z; [discriminate|].
  intros H. apply nth_error_In in H.
  unfold noDarkByte in bright. rewrite Forall_forall in bright. now apply bright.
Qed.

Lemma brightness_not_below (x y width threshold : Q) :
  threshold <= 140 ->
  lt (RasterPasses.getPixelBrightness data x y width) (Fin threshold) = false.
Proof.
  intros Ht. unfold RasterPasses.getPixelBrightness. cbv zeta.
  destruct (readNumber data ((y * width + x) * 4)) as [r|] eqn:Er;
    [|reflexivity].
  destruct (readNumber data ((y * width + x) * 4 + 1)) as [g|] eqn:Eg;
    [|reflexivity].
  destruct (readNumber data ((y * width + x) * 4 + 2)) as [b|] eqn:Eb;
    [|reflexivity].
  apply readNumber_bright in Er, Eg, Eb.
  cbn [ofElement ofZ mul add lt]. apply negb_false_iff, Qle_bool_iff.
  assert (Hr : 140 <= inject_Z r) by (change 140 with (inject_Z 140); now rewrite <- Zle_Qle).
  assert (Hg : 140 <= inject_Z g) by (change 140 with (inject_Z 140); now rewrite <- Zle_Qle).
  assert (Hb : 140 <= inject_Z b) by (change 140 with (inject_Z 140); now rewrite <- Zle_Qle).
  lra.
Qed.

Lemma countDarkIf_blank (width x y : Q) : RasterPasses.countDarkIf data width x y = 0%Z.
Proof.
  unfold RasterPasses.countDarkIf. rewrite brightness_not_below; [reflexivity | lra].
Qed.

Lemma measureBorderDarkness_blank (width x y rectWidth rectHeight : Q) :
  RasterPasses.measureBorderDarkness data width x y rectWidth rectHeight == 0.
Proof.
  unfold RasterPasses.measureBorderDarkness.
  assert (H1 : forall l total, exists total',
             fold_left
               (fun (counts : Z * Z) currX =>
                  let '(darkPixels, totalPixels) := counts in
                  ((darkPixels + RasterPasses.countDarkIf data width currX y
                    + RasterPasses.countDarkIf data width currX (y + rectHeight))%Z,
                   (totalPixels + 2)%Z)) l (0%Z, total) = (0%Z, total')).
  { induction l as [|c l IH]; intros total; cbn [fold_left].
    - now exists total.
    - rewrite !countDarkIf_blank. cbn. apply IH. }
  assert (H2 : forall l total, exists total',
             fold_left
               (fun (counts : Z * Z) currY =>
                  let '(darkPixels, totalPixels) := counts in
                  ((darkPixels + RasterPasses.countDarkIf data width x currY
                    + RasterPasses.countDarkIf data width (x + rectWidth) currY)%Z,
                   (totalPixels + 2)%Z)) l (0%Z, total) = (0%Z, total')).
  { induction l as [|c l IH]; intros total; cbn [fold_left].
    - now exists total.
    - rewrite !countDarkIf_blank. cbn. apply IH. }
  destruct (H1 (countUp x (x + rectWidth) 1) 0%Z) as [t1 E1]. rewrite E1.
  destruct (H2 (countUp y (y + rectHeight) 1) t1) as [t2 E2]. rewrite E2.
  destruct (0 <? t2)%Z; [|reflexivity].
  change (inject_Z 0) with 0. unfold Qdiv. ring.
Qed.

Lemma border_test_blank (width x y rectWidth rectHeight threshold : Q) :
  0 <= threshold ->
  Qgtb (RasterPasses.measureBorderDarkness data width x y rectWidth rectHeight)
       threshold = false.
Proof.
  intros Ht. apply Qgtb_le. rewrite measureBorderDarkness_blank. exact Ht.
Qed.

Lemma detectSquareAt_blank (width height x y minSize maxSize threshold : Q) :
  0 <= threshold ->
  RasterPasses.detectSquareAt data width height x y minSize maxSize threshold = None.
Proof.
  intros Ht. unfold RasterPasses.detectSquareAt. apply firstUntil_none.
  intros size _. cbv zeta. now rewrite border_test_blank.
Qed.

Lemma sampleCircle_blank (circle : nat -> Q * Q)
    (width height centerX centerY radius : Q) :
  fst (RasterPasses.sampleCircle circle data width height centerX centerY radius) = 0%Z.
Proof.
  unfold RasterPasses.sampleCircle.
  assert (H : forall l total,
             fst (fold_left
               (fun (counts : Z * Z) i =>
                  let '(darkCount, total) := counts in
                  let sampleX := inject_Z (Qfloor (centerX + radius * fst (circle i))) in
                  let sampleY := inject_Z (Qfloor (centerY + radius * snd (circle i))) in
                  if Qltb sampleX 0 || Qgeb sampleX width || Qltb sampleY 0
                     || Qgeb sampleY height
                  then counts
                  else
                    let brightness :=
                      RasterPasses.getPixelBrightness data sampleX sampleY width in
                    ((if lt brightness (Fin 140) then darkCount + 1 else darkCount)%Z,
                     (total + 1)%Z))
               l (0%Z, total)) = 0%Z).
  { induction l as [|i l IH]; intros total; cbn [fold_left]; [reflexivity|].
    cbv zeta. destruct (_ || _ || _ || _); [apply IH|].
    rewrite brightness_not_below by lra. apply IH. }
  apply H.
Qed.

Lemma detectCircleAt_blank (circle : nat -> Q * Q)
    (width height x y minSize maxSize threshold : Q) :
  0 <= threshold ->
  RasterPasses.detectCircleAt circle data width height x y minSize maxSize threshold
  = None.
Proof.
  intros Ht. unfold RasterPasses.detectCircleAt. apply firstUntil_none.
  intros size _. cbv zeta.
  pose proof (sampleCircle_blank circle width height (x + size / 2) (y + size / 2)
                (size / 2)) as Hd.
  destruct (RasterPasses.sampleCircle _ _ _ _ _ _ _) as [dark total]. cbn in Hd. subst dark.
  destruct (0 <? total)%Z; [|reflexivity]. cbn [andb].
  replace (Qgtb (inject_Z 0 / inject_Z total) threshold) with false; [reflexivity|].
  symmetry. apply Qgtb_le. change (inject_Z 0) with 0.
  setoid_replace (0 / inject_Z total) with 0 by (unfold Qdiv; ring). exact Ht.
Qed.

Lemma detectWideRectangle_blank (width height x y minWidth maxWidth minHeight
    maxHeight threshold : Q) :
  0 <= threshold ->
  RasterPasses.detectWideRectangle data width height x y minWidth maxWidth
    minHeight maxHeight threshold = None.
Proof.
  intros Ht. unfold RasterPasses.detectWideRectangle. apply firstSome_none.
  intros rectWidth _. apply firstUntil_none.
  intros rectHeight _. cbv zeta. now rewrite border_test_blank.
Qed.

Lemma detectRectangleAt_blank (minTextFieldHeight width height x y threshold : Q) :
  RasterPasses.detectRectangleAt minTextFieldHeight data width height x y threshold
  = None.
Proof.
  unfold RasterPasses.detectRectangleAt. cbv zeta. apply firstSome_none.
  intros rectHeight _. apply firstSome_none.
  intros rectWidth _. rewrite border_test_blank by lra. reflexivity.
Qed.

Lemma scanPixel_blank (width height threshold y : Q)
    (found : list HorizontalLine.t) (x : Q) :
  threshold <= 140 ->
  RasterPasses.scanPixel data width height threshold y
    (RasterPasses.mkRow (-1) 0 0%Z found) x
  = RasterPasses.mkRow (-1) 0 0%Z found.
Proof.
  intros Ht. unfold RasterPasses.scanPixel. cbv zeta.
  rewrite brightness_not_below by exact Ht. reflexivity.
Qed.

Lemma scanRow_blank (width height threshold : Q)
    (found : list HorizontalLine.t) (y : Q) :
  threshold <= 140 ->
  RasterPasses.scanRow data width height threshold found y = found.
Proof.
  intros Ht. unfold RasterPasses.scanRow. cbv zeta.
  assert (H : forall l,
             fold_left (RasterPasses.scanPixel data width height threshold y) l
               (RasterPasses.mkRow (-1) 0 0%Z found)
             = RasterPasses.mkRow (-1) 0 0%Z found).
  { induction l as [|x l IH]; cbn [fold_left]; [reflexivity|].
    now rewrite scanPixel_blank. }
  rewrite H. reflexivity.
Qed.

Lemma findHorizontalLines_blank (width height threshold : Q) :
  threshold <= 140 ->
  RasterPasses.findHorizontalLines data width height threshold = [].
Proof.
  intros Ht. unfold RasterPasses.findHorizontalLines.
  induction (countUp 10 (height - 10) 2) as [|y l IH]; cbn [fold_left];
    [reflexivity|].
  now rewrite scanRow_blank.
Qed.

End BlankPage.

(** X27.  A page without dark pixels has no field: when no byte of the image
    buffer is below 140 (a white page), the raster detectFields, with the
    pixel passes as the class has them, returns no element, whatever the
    page size, the options and the text elements. *)
Theorem blank_page_no_fields (circle : nat -> Q * Q) (options : DetectionOptions.t)
    (imageData : ImageData.t) (pageWidth pageHeight : Q)
    (textElements : option (list TextBox.t)) :
  noDarkByte (ImageData.data imageData) ->
  snd (RasterHeuristics.detectFields (RasterPasses.passes circle) options imageData
         pageWidth pageHeight textElements) = [].
Proof.
  intros Hbright. unfold RasterHeuristics.detectFields.
  cbn [snd RasterPasses.passes RasterHeuristics.detectTextFields
       RasterHeuristics.detectCheckboxes RasterHeuristics.detectRadioButtons
       RasterHeuristics.detectSignatureAreas RasterHeuristics.detectStandaloneLines].
  assert (Ht : forall m, RasterPasses.detectTextFields m imageData pageWidth pageHeight = []).
  { intros m. unfold RasterPasses.detectTextFields. cbv zeta.
    rewrite findHorizontalLines_blank by (assumption || lra). cbn [flat_map app].
    unfold RasterPasses.detectBoxedTextFields.
    apply flat_map_empty. intros y _. apply flat_map_empty. intros x _.
    now rewrite detectRectangleAt_blank. }
  assert (Hc : forall a b, RasterPasses.detectCheckboxes a b imageData pageWidth pageHeight = []).
  { intros a b. unfold RasterPasses.detectCheckboxes. cbv zeta.
    apply flat_map_empty. intros y _. apply flat_map_empty. intros x _.
    rewrite detectSquareAt_blank by (assumption || lra). reflexivity. }
  assert (Hr : forall a b,
             RasterPasses.detectRadioButtons circle a b imageData pageWidth pageHeight = []).
  { intros a b. unfold RasterPasses.detectRadioButtons. cbv zeta.
    apply flat_map_empty. intros y _. apply flat_map_empty. intros x _.
    rewrite detectCircleAt_blank by (assumption || lra). reflexivity. }
  assert (Hs : forall a b,
             RasterPasses.detectSignatureAreas a b imageData pageWidth pageHeight = []).
  { intros a b. unfold RasterPasses.detectSignatureAreas. cbv zeta.
    apply flat_map_empty. intros y _. apply flat_map_empty. intros x _.
    rewrite detectWideRectangle_blank by (assumption || lra). reflexivity. }
  assert (Hl : RasterPasses.detectStandaloneLines imageData pageWidth pageHeight = []).
  { unfold RasterPasses.detectStandaloneLines. cbv zeta.
    rewrite findHorizontalLines_blank by (assumption || lra). reflexivity. }
  rewrite Ht, Hc, Hr, Hs, Hl. cbn [app].
  unfold RasterHeuristics.filterByMinimumSize. cbn [filter].
  destruct textElements; reflexivity.
Qed.

Lemma blank_page_no_fields_witness :
  snd (RasterHeuristics.detectFields (RasterPasses.passes axisCircle)
         DetectionOptions.defaults whiteImage 4 4 None) = [].
Proof.
  apply blank_page_no_fields. unfold noDarkByte. cbn.
  repeat (constructor; [lia|]). constructor.
Defined.

(** ** The lines found *)

Lemma getPixelBrightness_ext (data : list Z) (x x' y width : Q) :
  x == x' ->
  RasterPasses.getPixelBrightness data x y width
  = RasterPasses.getPixelBrightness data x' y width.
Proof.
  intros E. unfold RasterPasses.getPixelBrightness. cbv zeta.
  rewrite (readNumber_ext data ((y * width + x) * 4) ((y * width + x') * 4))
    by (rewrite E; reflexivity).
  rewrite (readNumber_ext data ((y * width + x) * 4 + 1) ((y * width + x') * 4 + 1))
    by (rewrite E; reflexivity).
  rewrite (readNumber_ext data ((y * width + x) * 4 + 2) ((y * width + x') * 4 + 2))
    by (rewrite E; reflexivity).
  reflexivity.
Qed.

Lemma fold_left_mapped {A B C : Type} (g : A -> C -> A) (f : B -> C) (l : list B) (a : A) :
  fold_left g (map f l) a = fold_left (fun a b => g a (f b)) l a.
Proof.
  revert a. induction l as [|b l IH]; intros a; cbn; [reflexivity | apply IH].
Qed.

Lemma inject_nat_S (k : nat) :
  inject_Z (Z.of_nat (S k)) == inject_Z (Z.of_nat k) + 1.
Proof. rewrite Nat2Z.inj_succ. unfold Z.succ. rewrite inject_Z_plus. reflexivity. Qed.

Lemma inject_nat_sub (j i : nat) :
  (i <= j)%nat ->
  inject_Z (Z.of_nat (j - i)) == inject_Z (Z.of_nat j) - inject_Z (Z.of_nat i).
Proof.
  intros H. rewrite Nat2Z.inj_sub by exact H.
  unfold Z.sub. rewrite inject_Z_plus, inject_Z_opp. reflexivity.
Qed.

Lemma inject_nat_lt (a b : nat) :
  inject_Z (Z.of_nat a) < inject_Z (Z.of_nat b) <-> (a < b)%nat.
Proof. rewrite <- Zlt_Qlt. lia. Qed.

Section Row.

Variable data : list Z.
Variables width height threshold y : Q.

Local Abbreviation column := scanColumn.
Local Abbreviation dark := (fun x => darkAt data width threshold x y).
Local Abbreviation step := (RasterPasses.scanPixel data width height threshold y).

Local Abbreviation foundBefore := (foundBefore data width height threshold y).
Local Abbreviation rowState := (rowState data width height threshold y).

Lemma foundBefore_later (m m' : nat) (line : HorizontalLine.t) :
  (m <= m')%nat -> foundBefore m line -> foundBefore m' line.
Proof.
  intros Hm [Hy [i [j [Hij Hrest]]]]. split; [exact Hy|].
  exists i, j. split; [lia | exact Hrest].
Qed.

Lemma pushLine_found (found : list HorizontalLine.t) (m : nat)
    (row : RasterPasses.RowState) :
  rowState found m row ->
  forall line,
    In line (RasterPasses.pushLine data width height threshold y row) ->
    In line found \/ foundBefore m line.
Proof.
  intros [Hrun Hlines] line. unfold RasterPasses.pushLine.
  destruct (Qgeb (RasterPasses.lineLength row) 40) eqn:E40; cbn [andb];
    [|apply Hlines].
  destruct (Qgtb _ _); [|apply Hlines].
  destruct (RasterPasses.isLikelyUnderline _ _ _ _ _ _ _) eqn:Eu; [|apply Hlines].
  intros Hin. apply in_app_or in Hin. destruct Hin as [Hin|[<-|[]]];
    [now apply Hlines|].
  right. apply Qgeb_le in E40.
  destruct Hrun as [[_ Hzero]|[i [Hi [Hs [Hl Hd]]]]].
  - rewrite Hzero in E40. exfalso. revert E40. unfold Qle. cbn. lia.
  - split; [reflexivity|]. exists i, m.
    cbn [HorizontalLine.x HorizontalLine.width].
    split; [lia|]. split; [exact Hs|]. split; [exact Hl|]. split; [exact E40|].
    split; [exact Hd | exact Eu].
Qed.

Lemma column_not_sentinel (i : nat) : Qeq_bool (column i) (-1) = false.
Proof.
  destruct (Qeq_bool (column i) (-1)) eqn:E; [|reflexivity].
  apply Qeq_bool_iff in E. unfold scanColumn in E. pose proof (inject_nat_nonneg i). lra.
Qed.

Lemma scanPixel_state (found : list HorizontalLine.t) (m : nat)
    (row : RasterPasses.RowState) :
  rowState found m row -> rowState found (S m) (step row (column m)).
Proof.
  intros Hrow. pose proof (pushLine_found found m row Hrow) as Hpush.
  destruct Hrow as [Hrun Hlines].
  unfold RasterPasses.scanPixel. cbv zeta.
  destruct (JsNumber.lt _ _) eqn:Edark.
  - split.
    + right. destruct Hrun as [[Hs Hl]|[i [Hi [Hs [Hl Hd]]]]].
      * exists m. rewrite Hs. cbn [RasterPasses.lineStart RasterPasses.lineLength].
        change (Qeq_bool (-1) (-1)) with true. cbv iota.
        split; [lia|]. split; [reflexivity|]. split.
        -- replace (S m - m)%nat with 1%nat by lia. unfold scanColumn. cbn. ring.
        -- intros k Hk. assert (k = m) by lia. subst k. exact Edark.
      * exists i. rewrite Hs. cbn [RasterPasses.lineStart RasterPasses.lineLength].
        rewrite column_not_sentinel.
        split; [lia|]. split; [reflexivity|]. split.
        -- unfold scanColumn. rewrite (inject_nat_sub (S m) i) by lia.
           rewrite inject_nat_S. ring.
        -- intros k Hk. destruct (Nat.eq_dec k m) as [->|Hne]; [exact Edark|].
           apply Hd. lia.
    + cbn [RasterPasses.lines]. intros line Hin.
      destruct (Hlines line Hin) as [H|H]; [now left | right].
      apply (foundBefore_later m); [lia | exact H].
  - split; [left; split; reflexivity|].
    cbn [RasterPasses.lines]. intros line Hin.
    destruct (Hpush line Hin) as [H|H]; [now left | right].
    apply (foundBefore_later m); [lia | exact H].
Qed.

Lemma scanColumns_state (found : list HorizontalLine.t) (n : nat) :
  rowState found n
    (fold_left (fun row k => step row (column k)) (seq 0 n)
       (RasterPasses.mkRow (-1) 0 0%Z found)).
Proof.
  induction n as [|n IH].
  - cbn. split; [left; split; reflexivity|]. intros line Hin. now left.
  - rewrite seq_S, fold_left_app. cbn [fold_left Nat.add].
    now apply scanPixel_state.
Qed.

Lemma scanRow_found (found : list HorizontalLine.t) :
  forall line,
    In line (RasterPasses.scanRow data width height threshold found y) ->
    In line found
    \/ foundBefore (Z.to_nat (Qceiling ((width - 5 - 5) / 1))) line.
Proof.
  unfold RasterPasses.scanRow, countUp. cbv zeta. rewrite fold_left_mapped.
  apply pushLine_found. apply (scanColumns_state found).
Qed.

End Row.

Lemma foundBefore_underline (data : list Z) (width height threshold y : Q)
    (line : HorizontalLine.t) :
  In y (countUp 10 (height - 10) 2) ->
  foundBefore data width height threshold y
    (Z.to_nat (Qceiling ((width - 5 - 5) / 1))) line ->
  underline data width height threshold line.
Proof.
  intros Hy [Ey [i [j [Hij [Hx [Hw [H40 [Hd Hu]]]]]]]].
  apply countUp_bounds in Hy; [|reflexivity].
  subst y. unfold underline. cbv zeta.
  unfold scanColumn in Hx, Hd.
  assert (Hlast : In (5 + inject_Z (Z.of_nat (j - 1)) * 1) (countUp 5 (width - 5) 1)).
  { unfold countUp. apply in_map_iff. exists (j - 1)%nat. split; [reflexivity|].
    apply in_seq. lia. }
  apply countUp_bounds in Hlast; [|reflexivity].
  pose proof (inject_nat_nonneg i) as Hi0.
  assert (Hji : inject_Z (Z.of_nat (j - i))
                == inject_Z (Z.of_nat j) - inject_Z (Z.of_nat i))
    by (apply inject_nat_sub; lia).
  assert (Hj1 : inject_Z (Z.of_nat (j - 1)) == inject_Z (Z.of_nat j) - 1).
  { rewrite inject_nat_sub by lia. reflexivity. }
  split; [exact H40|]. rewrite Hx.
  split; [lra|]. split; [rewrite Hw; lra|]. split; [exact Hy|].
  split.
  - intros k Hk. rewrite Hw in Hk. apply inject_nat_lt in Hk.
    unfold darkAt.
    rewrite (getPixelBrightness_ext data _ (5 + inject_Z (Z.of_nat (i + k)) * 1)).
    + apply Hd. lia.
    + rewrite Nat2Z.inj_add, inject_Z_plus. ring.
  - rewrite <- Hx. exact Hu.
Qed.

(** X28.  Every line findHorizontalLines returns is at least 40 wide, starts
    at x >= 5 and ends before column width - 5, lies in a row y with 10 <= y
    < height - 10, consists of pixels that are all darker than the
    threshold, and was accepted by isLikelyUnderline. *)
Theorem findHorizontalLines_underlines (data : list Z) (width height threshold : Q) :
  Forall (underline data width height threshold)
         (RasterPasses.findHorizontalLines data width height threshold).
Proof.
  unfold RasterPasses.findHorizontalLines.
  assert (H : forall rows found,
             incl rows (countUp 10 (height - 10) 2) ->
             Forall (underline data width height threshold) found ->
             Forall (underline data width height threshold)
               (fold_left (RasterPasses.scanRow data width height threshold) rows found)).
  { induction rows as [|y rows IH]; intros found Hincl Hfound; cbn [fold_left];
      [exact Hfound|].
    apply IH; [intros r Hr; apply Hincl; now right|].
    apply Forall_forall. intros line Hin.
    apply scanRow_found in Hin. destruct Hin as [Hin|Hin].
    - rewrite Forall_forall in Hfound. now apply Hfound.
    - apply (foundBefore_underline data width height threshold y);
        [apply Hincl; now left | exact Hin]. }
  apply H; [apply incl_refl | constructor].
Qed.

(** ** Detections lie on the page *)

Lemma mergeRects_onPage (pageWidth pageHeight : Q) (a b : Rect.t) :
  onPage pageWidth pageHeight a -> onPage pageWidth pageHeight b ->
  onPage pageWidth pageHeight (RasterHeuristics.mergeRects a b).
Proof.
  unfold onPage, RasterHeuristics.mergeRects.
  cbn [Rect.x Rect.y Rect.width Rect.height].
  intros [Ha1 [Ha2 [Ha3 Ha4]]] [Hb1 [Hb2 [Hb3 Hb4]]].
  repeat split.
  - apply Q.min_glb; assumption.
  - apply Q.min_glb; assumption.
  - setoid_replace (Qmin (Rect.x a) (Rect.x b)
                    + (Qmax (Rect.x a + Rect.width a) (Rect.x b + Rect.width b)
                       - Qmin (Rect.x a) (Rect.x b)))
      with (Qmax (Rect.x a + Rect.width a) (Rect.x b + Rect.width b)) by ring.
    apply Q.max_lub_lt; assumption.
  - setoid_replace (Qmin (Rect.y a) (Rect.y b)
                    + (Qmax (Rect.y a + Rect.height a) (Rect.y b + Rect.height b)
                       - Qmin (Rect.y a) (Rect.y b)))
      with (Qmax (Rect.y a + Rect.height a) (Rect.y b + Rect.height b)) by ring.
    apply Q.max_lub_lt; assumption.
Qed.

Section MergeOnPage.

Variable options : DetectionOptions.t.
Variables pageWidth pageHeight : Q.

Local Abbreviation inside :=
  (fun e : DetectedElement.t => onPage pageWidth pageHeight (DetectedElement.rect e)).

Lemma mergeInto_onPage (rest : list DetectedElement.t) :
  forall current visited j,
    inside current -> Forall inside rest ->
    inside (fst (RasterHeuristics.mergeInto options current visited j rest)).
Proof.
  induction rest as [|candidate rest IH]; intros current visited j Hc Hrest;
    cbn [RasterHeuristics.mergeInto]; [exact Hc|].
  inversion Hrest as [|? ? Hcand Hrest']; subst.
  destruct (nth j visited false); [now apply IH|].
  destruct (RasterHeuristics.shouldMerge options current candidate); [|now apply IH].
  apply IH; [|exact Hrest'].
  cbn [DetectedElement.rect]. now apply mergeRects_onPage.
Qed.

Lemma mergeFrom_onPage (rest : list DetectedElement.t) :
  forall i visited merged,
    Forall inside rest -> Forall inside merged ->
    Forall inside (RasterHeuristics.mergeFrom options i rest visited merged).
Proof.
  induction rest as [|element rest IH]; intros i visited merged Hrest Hmerged;
    cbn [RasterHeuristics.mergeFrom]; [exact Hmerged|].
  inversion Hrest as [|? ? He Hrest']; subst.
  destruct (nth i visited false); [now apply IH|].
  pose proof (mergeInto_onPage rest element (markVisited i visited) (S i) He Hrest')
    as Hcur.
  destruct (RasterHeuristics.mergeInto options element (markVisited i visited) (S i) rest)
    as [current visited'].
  apply IH; [exact Hrest'|].
  apply Forall_app. split; [exact Hmerged|]. constructor; [exact Hcur | constructor].
Qed.

End MergeOnPage.

Lemma Forall_filter_keeps {A : Type} (P : A -> Prop) (keep : A -> bool) (l : list A) :
  Forall P l -> Forall P (filter keep l).
Proof.
  rewrite !Forall_forall. intros H a Ha. apply filter_In in Ha. now apply H.
Qed.

Lemma Forall_flat_map_in {A B : Type} (P : B -> Prop) (f : A -> list B) (l : list A) :
  (forall a, In a l -> Forall P (f a)) -> Forall P (flat_map f l).
Proof.
  intros H. apply Forall_forall. intros b Hb. apply in_flat_map in Hb.
  destruct Hb as [a [Ha Hb]]. specialize (H a Ha). rewrite Forall_forall in H.
  now apply H.
Qed.

Section PassesOnPage.

Variable imageData : ImageData.t.
Variables pageWidth pageHeight : Q.

Local Abbreviation inside :=
  (fun e : DetectedElement.t => onPage pageWidth pageHeight (DetectedElement.rect e)).

Lemma stop_false (x y size : Q) :
  Qgeb (x + size) pageWidth || Qgeb (y + size) pageHeight = false ->
  x + size < pageWidth /\ y + size < pageHeight.
Proof.
  intros H. apply orb_false_iff in H. destruct H as [H1 H2].
  unfold Qgeb in H1, H2. apply Qle_bool_false in H1, H2. split; assumption.
Qed.

Lemma squareElement_onPage (type : ElementType) (confidence x y : Q) (size : option Q) :
  0 <= x -> 0 <= y ->
  (forall s, size = Some s -> x + s < pageWidth /\ y + s < pageHeight) ->
  Forall inside (RasterPasses.squareElement type confidence x y size).
Proof.
  intros Hx Hy Hs. unfold RasterPasses.squareElement.
  destruct size as [s|]; [|constructor].
  destruct (Qeq_bool s 0); [constructor|].
  destruct (Hs s eq_refl) as [H1 H2].
  constructor; [|constructor]. unfold onPage. cbn. repeat split; assumption.
Qed.

Lemma detectCheckboxes_onPage (minSize maxSize : Q) :
  Forall inside
    (RasterPasses.detectCheckboxes minSize maxSize imageData pageWidth pageHeight).
Proof.
  unfold RasterPasses.detectCheckboxes. cbv zeta.
  apply Forall_flat_map_in. intros y Hy. apply Forall_flat_map_in. intros x Hx.
  apply countUp_bounds in Hx, Hy; try reflexivity.
  apply squareElement_onPage; try tauto.
  intros s Hs. unfold RasterPasses.detectSquareAt in Hs.
  apply firstUntil_some in Hs. destruct Hs as [size [_ [Hstop Hbody]]].
  cbv zeta in Hbody. destruct (Qgtb _ _); [|discriminate].
  inversion Hbody; subst. now apply stop_false.
Qed.

Lemma detectRadioButtons_onPage (circle : nat -> Q * Q) (minSize maxSize : Q) :
  Forall inside
    (RasterPasses.detectRadioButtons circle minSize maxSize imageData
       pageWidth pageHeight).
Proof.
  unfold RasterPasses.detectRadioButtons. cbv zeta.
  apply Forall_flat_map_in. intros y Hy. apply Forall_flat_map_in. intros x Hx.
  apply countUp_bounds in Hx, Hy; try reflexivity.
  apply squareElement_onPage; try tauto.
  intros s Hs. unfold RasterPasses.detectCircleAt in Hs.
  apply firstUntil_some in Hs. destruct Hs as [size [_ [Hstop Hbody]]].
  cbv zeta in Hbody.
  destruct (RasterPasses.sampleCircle _ _ _ _ _ _ _) as [dark total].
  destruct (_ && _); [|discriminate].
  inversion Hbody; subst. now apply stop_false.
Qed.

Lemma detectSignatureAreas_onPage (minTextFieldHeight maxFieldHeight : Q) :
  Forall inside
    (RasterPasses.detectSignatureAreas minTextFieldHeight maxFieldHeight imageData
       pageWidth pageHeight).
Proof.
  unfold RasterPasses.detectSignatureAreas. cbv zeta.
  apply Forall_flat_map_in. intros y Hy. apply Forall_flat_map_in. intros x Hx.
  apply countUp_bounds in Hx, Hy; try reflexivity.
  destruct (RasterPasses.detectWideRectangle _ _ _ _ _ _ _ _ _ _) as [r|] eqn:E;
    [|constructor].
  constructor; [|constructor]. cbn [DetectedElement.rect].
  unfold RasterPasses.detectWideRectangle in E.
  apply firstSome_some in E. destruct E as [rectWidth [_ E]].
  apply firstUntil_some in E. destruct E as [rectHeight [_ [Hstop Hbody]]].
  cbv zeta in Hbody. destruct (Qgtb _ _); [|discriminate].
  inversion Hbody; subst.
  apply orb_false_iff in Hstop. destruct Hstop as [H1 H2].
  unfold Qgeb in H1, H2. apply Qle_bool_false in H1, H2.
  unfold onPage. cbn. repeat split; tauto.
Qed.

Lemma detectBoxedTextFields_onPage (minTextFieldHeight threshold : Q) :
  Forall inside
    (RasterPasses.detectBoxedTextFields minTextFieldHeight (ImageData.data imageData)
       pageWidth pageHeight threshold).
Proof.
  unfold RasterPasses.detectBoxedTextFields.
  apply Forall_flat_map_in. intros y Hy. apply Forall_flat_map_in. intros x Hx.
  apply countUp_bounds in Hx, Hy; try reflexivity.
  destruct (RasterPasses.detectRectangleAt _ _ _ _ _ _ _) as [r|] eqn:E;
    [|constructor].
  constructor; [|constructor]. cbn [DetectedElement.rect].
  unfold RasterPasses.detectRectangleAt in E. cbv zeta in E.
  apply firstSome_some in E. destruct E as [rectHeight [Hh E]].
  apply firstSome_some in E. destruct E as [rectWidth [Hw Hbody]].
  destruct (_ && _); [|discriminate]. inversion Hbody; subst.
  apply countUp_bounds in Hh, Hw; try reflexivity.
  pose proof (Q.le_min_l (pageWidth - x) 300).
  pose proof (Q.le_min_l (pageHeight - y) 100).
  unfold onPage. cbn. repeat split; lra.
Qed.

Lemma textFieldAbove_onPage (minTextFieldHeight : Q) (line : HorizontalLine.t) :
  underline (ImageData.data imageData) pageWidth pageHeight 120 line ->
  Forall inside
    (RasterPasses.textFieldAbove minTextFieldHeight (ImageData.data imageData)
       pageWidth pageHeight line).
Proof.
  intros [H40 [Hx [Hend [Hy _]]]]. unfold RasterPasses.textFieldAbove.
  destruct (Qltb _ 40); [constructor|]. cbv zeta.
  destruct (Qgeb _ 0 && Qgeb _ _) eqn:E; [|constructor].
  destruct (Qgtb _ _); [|constructor].
  constructor; [|constructor]. cbn [DetectedElement.rect].
  apply andb_true_iff in E. destruct E as [_ E]. apply Qgeb_le in E.
  pose proof (Q.le_max_l 0 (HorizontalLine.y line
                            - Qmax minTextFieldHeight (Qmin 25 (pageHeight * (25 # 1000)))
                            - 2)).
  unfold onPage. cbn. repeat split; lra.
Qed.

Lemma detectTextFields_onPage (minTextFieldHeight : Q) :
  Forall inside
    (RasterPasses.detectTextFields minTextFieldHeight imageData pageWidth pageHeight).
Proof.
  unfold RasterPasses.detectTextFields. cbv zeta.
  apply Forall_app. split; [|apply detectBoxedTextFields_onPage].
  apply Forall_flat_map_in. intros line Hline.
  apply textFieldAbove_onPage.
  pose proof (findHorizontalLines_underlines (ImageData.data imageData)
                pageWidth pageHeight 120) as H.
  rewrite Forall_forall in H. now apply H.
Qed.

Lemma detectStandaloneLines_onPage :
  Forall inside (RasterPasses.detectStandaloneLines imageData pageWidth pageHeight).
Proof.
  unfold RasterPasses.detectStandaloneLines, standaloneLines. cbv zeta.
  apply Forall_forall. intros e He. apply in_map_iff in He.
  destruct He as [line [<- Hline]].
  pose proof (findHorizontalLines_underlines (ImageData.data imageData)
                pageWidth pageHeight 100) as H.
  rewrite Forall_forall in H. destruct (H line Hline) as [H40 [Hx [Hend [Hy _]]]].
  unfold onPage. cbn. repeat split; lra.
Qed.

End PassesOnPage.

(** X29.  Every element the raster detectFields returns, with the pixel
    passes as the class has them, lies on the page: x and y are not
    negative, x + width is below the page width and y + height below the
    page height, for every image, page size, options and text elements. *)
Theorem detections_on_page (circle : nat -> Q * Q) (options : DetectionOptions.t)
    (imageData : ImageData.t) (pageWidth pageHeight : Q)
    (textElements : option (list TextBox.t)) :
  Forall (fun e => onPage pageWidth pageHeight (DetectedElement.rect e))
    (snd (RasterHeuristics.detectFields (RasterPasses.passes circle) options imageData
            pageWidth pageHeight textElements)).
Proof.
  unfold RasterHeuristics.detectFields.
  cbn [snd RasterPasses.passes RasterHeuristics.detectTextFields
       RasterHeuristics.detectCheckboxes RasterHeuristics.detectRadioButtons
       RasterHeuristics.detectSignatureAreas RasterHeuristics.detectStandaloneLines].
  apply Forall_filter_keeps. unfold RasterHeuristics.mergeAdjacentFields.
  apply mergeFrom_onPage; [|constructor].
  assert (Hraw : forall keep,
             Forall (fun e => onPage pageWidth pageHeight (DetectedElement.rect e))
               (filter keep
                  (RasterPasses.detectTextFields
                     (DetectionOptions.minTextFieldHeight
                        (DetectionOptions.setMaxFieldHeight options
                           (Qmin (DetectionOptions.maxFieldHeight options)
                                 (pageHeight * (1 # 2)))))
                     imageData pageWidth pageHeight
                   ++ RasterPasses.detectCheckboxes
                        (DetectionOptions.minCheckboxSize
                           (DetectionOptions.setMaxFieldHeight options
                              (Qmin (DetectionOptions.maxFieldHeight options)
                                    (pageHeight * (1 # 2)))))
                        (DetectionOptions.maxCheckboxSize
                           (DetectionOptions.setMaxFieldHeight options
                              (Qmin (DetectionOptions.maxFieldHeight options)
                                    (pageHeight * (1 # 2)))))
                        imageData pageWidth pageHeight
                   ++ RasterPasses.detectRadioButtons circle
                        (DetectionOptions.minRadioSize
                           (DetectionOptions.setMaxFieldHeight options
                              (Qmin (DetectionOptions.maxFieldHeight options)
                                    (pageHeight * (1 # 2)))))
                        (DetectionOptions.maxRadioSize
                           (DetectionOptions.setMaxFieldHeight options
                              (Qmin (DetectionOptions.maxFieldHeight options)
                                    (pageHeight * (1 # 2)))))
                        imageData pageWidth pageHeight
                   ++ RasterPasses.detectSignatureAreas
                        (DetectionOptions.minTextFieldHeight
                           (DetectionOptions.setMaxFieldHeight options
                              (Qmin (DetectionOptions.maxFieldHeight options)
                                    (pageHeight * (1 # 2)))))
                        (DetectionOptions.maxFieldHeight
                           (DetectionOptions.setMaxFieldHeight options
                              (Qmin (DetectionOptions.maxFieldHeight options)
                                    (pageHeight * (1 # 2)))))
                        imageData pageWidth pageHeight
                   ++ RasterPasses.detectStandaloneLines imageData pageWidth pageHeight))).
  { intros keep. apply Forall_filter_keeps.
    apply Forall_app; split; [apply detectTextFields_onPage|].
    apply Forall_app; split; [apply detectCheckboxes_onPage|].
    apply Forall_app; split; [apply detectRadioButtons_onPage|].
    apply Forall_app; split; [apply detectSignatureAreas_onPage|].
    apply detectStandaloneLines_onPage. }
  destruct textElements as [texts|].
  - unfold RasterHeuristics.filterTextOverlaps. apply Forall_filter_keeps.
    unfold RasterHeuristics.filterByMinimumSize. apply Hraw.
  - unfold RasterHeuristics.filterByMinimumSize. apply Hraw.
Qed.

(** The model runs: on a 12 x 12 black image the checkbox pass finds a
    square of side 8 at the origin. *)
Lemma black_square_found :
  In (DetectedElement.mk ECheckbox (Rect.mk 0 0 8 8) (7 # 10))
     (RasterPasses.detectCheckboxes 8 9 blackImage 12 12).
Proof.
  vm_compute. left. reflexivity.
Qed.

(** X30.  When max(minTextFieldHeight, 1% of the page height) is above 2, as
    with the default options, the elements of detectStandaloneLines, which
    are 2 high, are all removed by filterByMinimumSize: detectFields returns
    what it would return if that pass found nothing. *)
Theorem standalone_lines_dropped (circle : nat -> Q * Q)
    (options : DetectionOptions.t) (imageData : ImageData.t)
    (pageWidth pageHeight : Q) (textElements : option (list TextBox.t)) :
  2 < minimumHeight options pageHeight ->
  RasterHeuristics.detectFields (RasterPasses.passes circle) options imageData
    pageWidth pageHeight textElements
  = RasterHeuristics.detectFields (withoutStandaloneLines (RasterPasses.passes circle))
      options imageData pageWidth pageHeight textElements.
Proof.
  intros Hmin.
  apply (standalone_lines_filtered_out (RasterPasses.passes circle) options imageData
           pageWidth pageHeight textElements
           (RasterPasses.findHorizontalLines (ImageData.data imageData)
              pageWidth pageHeight 100));
    [exact Hmin | reflexivity].
Qed.

Lemma standalone_lines_dropped_witness :
  RasterHeuristics.detectFields (RasterPasses.passes axisCircle)
    DetectionOptions.defaults blackImage 12 12 None
  = RasterHeuristics.detectFields
      (withoutStandaloneLines (RasterPasses.passes axisCircle))
      DetectionOptions.defaults blackImage 12 12 None.
Proof.
  apply standalone_lines_dropped. vm_compute. reflexivity.
Defined.

